(** * native-activity: the Engine of [app/src/main/cpp/main.cpp]

    A shallow embedding of the [Engine] class and of [android_main]:
    the render-target lifecycle ([initDisplay] / [termDisplay]), input
    routing, focus handling, state saving, the animation step and the
    event loop.  The platform (EGL, GLES, the sensor service, the looper
    and the native-app glue) is outside the repository; it appears here
    as records of answers the engine reads and as a log of the calls the
    engine issues. *)

From Stdlib Require Import ZArith List Bool Lia String.
From Stdlib Require Import Floats.SpecFloat.
From Stdlib Require Import Strings.Byte.
Import ListNotations.
Local Open Scope Z_scope.

(* ================================================================== *)
(** ** C scalar types *)

(** [float]: IEEE-754 binary32.  An object of that type is a sign and
    one of: zero, infinity, a NaN with its payload (the 23 bits of the
    fraction, not all zero), a finite number [m * 2^e].  Arithmetic is
    that of the parametric specification of the Standard Library (24
    bits of precision, infinities at exponent 128) on the numbers the
    objects stand for. *)
Module F32.

Definition prec : Z := 24.
Definition emax : Z := 128.

Inductive float : Type :=
| Zero (s : bool)
| Infinity (s : bool)
| NaN (s : bool) (payload : positive)
| Finite (s : bool) (m : positive) (e : Z).

(** The number an object stands for; the specification has one NaN. *)
Definition val (f : float) : spec_float :=
  match f with
  | Zero s => S754_zero s
  | Infinity s => S754_infinity s
  | NaN _ _ => S754_nan
  | Finite s m e => S754_finite s m e
  end.

(** The NaN an operation makes out of numbers (0/0): quiet, with an
    empty payload; its sign is the one ARM gives it. *)
Definition default_nan : float := NaN false 4194304.

Definition of_val (v : spec_float) : float :=
  match v with
  | S754_zero s => Zero s
  | S754_infinity s => Infinity s
  | S754_nan => default_nan
  | S754_finite s m e => Finite s m e
  end.

(** A NaN operand goes through an operation with its sign and its
    payload, the quiet bit (bit 22) set. *)
Definition quiet (s : bool) (payload : positive) : float :=
  NaN s (Pos.lor payload 4194304).

(** [(float) n] for an [int] n. *)
Definition of_int (n : Z) : float := of_val (binary_normalize prec emax n 0 false).

(** The literal [.01f]: 10737418 * 2^-30. *)
Definition lit_0_01 : float := Finite false 10737418 (-30).

Definition add (a b : float) : float :=
  match a, b with
  | NaN s p, _ => quiet s p
  | _, NaN s p => quiet s p
  | _, _ => of_val (SFadd prec emax (val a) (val b))
  end.

Definition div (a b : float) : float :=
  match a, b with
  | NaN s p, _ => quiet s p
  | _, NaN s p => quiet s p
  | _, _ => of_val (SFdiv prec emax (val a) (val b))
  end.

(** [a > b] *)
Definition gt (a b : float) : bool := SFltb (val b) (val a).
(** [a <= b] *)
Definition le (a b : float) : bool := SFleb (val a) (val b).

Definition INT32_MIN : Z := - 2 ^ 31.
Definition INT32_MAX : Z := 2 ^ 31 - 1.

(** [(int) f]: truncation toward zero.  Outside the range of [int]
    the C++ conversion is undefined; the ARM conversion instruction,
    which saturates and sends NaN to 0, is what is written here. *)
Definition to_int (f : float) : Z :=
  match f with
  | Finite s m e =>
      let mag := Z.shiftl (Zpos m) e in
      if s then Z.max INT32_MIN (- mag) else Z.min INT32_MAX mag
  | Infinity s => if s then INT32_MIN else INT32_MAX
  | Zero _ | NaN _ _ => 0
  end.

Definition sign_bit (s : bool) : Z := if s then 2 ^ 31 else 0.

(** The object representation: sign, 8 bits of biased exponent, 23
    bits of fraction; a NaN has all exponent bits set and its payload
    as fraction. *)
Definition bits (f : float) : Z :=
  match f with
  | Zero s => sign_bit s
  | Infinity s => sign_bit s + 255 * 2 ^ 23
  | NaN s payload => sign_bit s + 255 * 2 ^ 23 + Zpos payload
  | Finite s m e =>
      sign_bit s +
      (if 2 ^ 23 <=? Zpos m then (e + 150) * 2 ^ 23 + (Zpos m - 2 ^ 23)
       else Zpos m)
  end.

Definition of_bits (w : Z) : float :=
  let s := 2 ^ 31 <=? w in
  let biased := (w / 2 ^ 23) mod 256 in
  let frac := w mod 2 ^ 23 in
  if biased =? 0 then
    match frac with
    | Zpos m => Finite s m (-149)
    | _ => Zero s
    end
  else if biased =? 255 then
    match frac with
    | Zpos payload => NaN s payload
    | _ => Infinity s
    end
  else
    match frac + 2 ^ 23 with
    | Zpos m => Finite s m (biased - 150)
    | _ => Zero s
    end.

(** The values a [float] object can hold: a NaN payload of 23 bits, a
    finite number in canonical form. *)
Definition valid (f : float) : bool :=
  match f with
  | NaN _ payload => Zpos payload <? 2 ^ 23
  | _ => valid_binary prec emax (val f)
  end.

End F32.

(** Little-endian 32-bit words in memory, as on every Android ABI. *)
Module LE32.

Definition byte_of_Z (z : Z) : byte :=
  match Byte.of_N (Z.to_N (z mod 256)) with
  | Some b => b
  | None => Byte.x00
  end.

Definition Z_of_byte (b : byte) : Z := Z.of_N (Byte.to_N b).

Definition store (w : Z) : list byte :=
  [byte_of_Z w; byte_of_Z (w / 2 ^ 8); byte_of_Z (w / 2 ^ 16); byte_of_Z (w / 2 ^ 24)].

(** The word at byte offset [off]; bytes past the end of the buffer
    read as 0 (the C++ read there is undefined). *)
Definition load (buf : list byte) (off : nat) : Z :=
  Z_of_byte (nth off buf Byte.x00)
  + 2 ^ 8 * Z_of_byte (nth (off + 1) buf Byte.x00)
  + 2 ^ 16 * Z_of_byte (nth (off + 2) buf Byte.x00)
  + 2 ^ 24 * Z_of_byte (nth (off + 3) buf Byte.x00).

(** An unsigned word read as [int32_t]. *)
Definition signed (u : Z) : Z := if u <? 2 ^ 31 then u else u - 2 ^ 32.

End LE32.

(** Pointers and EGL handles are machine words; 0 is [nullptr]. *)
Definition nullptr : Z := 0.

(* ================================================================== *)
(** ** Platform constants and enumerations *)

(** [EGL_NO_DISPLAY], [EGL_NO_SURFACE], [EGL_NO_CONTEXT] are the null
    handle ([drawFrame] tests [ctx.display == nullptr] and [init]
    obtains them with [memset]). *)
Definition EGL_NO_DISPLAY : Z := 0.
Definition EGL_NO_SURFACE : Z := 0.
Definition EGL_NO_CONTEXT : Z := 0.
Definition EGL_DEFAULT_DISPLAY : Z := 0.
Definition EGL_WINDOW_BIT : Z := 4.

Inductive EGLattr : Type :=
| EGL_SURFACE_TYPE | EGL_BLUE_SIZE | EGL_GREEN_SIZE | EGL_RED_SIZE
| EGL_DEPTH_SIZE | EGL_NATIVE_VISUAL_ID | EGL_WIDTH | EGL_HEIGHT.

Inductive GLenum : Type :=
| GL_VENDOR | GL_RENDERER | GL_VERSION | GL_EXTENSIONS
| GL_PERSPECTIVE_CORRECTION_HINT | GL_FASTEST | GL_CULL_FACE | GL_SMOOTH
| GL_DEPTH_TEST | GL_COLOR_BUFFER_BIT.

(** The commands of [android_native_app_glue.h]. *)
Inductive AppCmd : Type :=
| APP_CMD_INPUT_CHANGED | APP_CMD_INIT_WINDOW | APP_CMD_TERM_WINDOW
| APP_CMD_WINDOW_RESIZED | APP_CMD_WINDOW_REDRAW_NEEDED
| APP_CMD_CONTENT_RECT_CHANGED | APP_CMD_GAINED_FOCUS | APP_CMD_LOST_FOCUS
| APP_CMD_CONFIG_CHANGED | APP_CMD_LOW_MEMORY | APP_CMD_START
| APP_CMD_RESUME | APP_CMD_SAVE_STATE | APP_CMD_PAUSE | APP_CMD_STOP
| APP_CMD_DESTROY.

Definition LOOPER_ID_USER : Z := 3.
Definition AINPUT_EVENT_TYPE_KEY : Z := 1.
Definition AINPUT_EVENT_TYPE_MOTION : Z := 2.
Definition ASENSOR_TYPE_ACCELEROMETER : Z := 1.

Inductive LogPriority : Type := ANDROID_LOG_INFO | ANDROID_LOG_WARN.

Inductive LogArg : Type :=
| ArgPtr (p : Z)
| ArgFloat (f : F32.float).

(* ================================================================== *)
(** ** The calls the engine issues *)

(** One constructor per platform function the engine calls, with the
    arguments it passes. *)
Inductive Call : Type :=
| eglGetDisplay (native : Z)
| eglInitialize (dpy : Z)
| eglChooseConfig (dpy : Z) (attr : list (EGLattr * Z)) (config_size : Z)
| eglGetConfigAttrib (dpy config : Z) (a : EGLattr)
| eglCreateWindowSurface (dpy config win : Z)
| eglCreateContext (dpy config : Z)
| eglMakeCurrent (dpy draw read ctx : Z)
| eglQuerySurface (dpy surf : Z) (a : EGLattr)
| eglDestroyContext (dpy ctx : Z)
| eglDestroySurface (dpy surf : Z)
| eglTerminate (dpy : Z)
| eglSwapBuffers (dpy surf : Z)
| glGetString (name : GLenum)
| glHint (target mode : GLenum)
| glEnable (cap : GLenum)
| glShadeModel (mode : GLenum)
| glDisable (cap : GLenum)
| glClearColor (r g b a : F32.float)
| glClear (mask : GLenum)
| ASensorManager_getDefaultSensor (manager type : Z)
| ASensorManager_createEventQueue (manager ident : Z)
| ASensorEventQueue_enableSensor (queue sensor : Z)
| ASensorEventQueue_setEventRate (queue sensor usec : Z)
| ASensorEventQueue_disableSensor (queue sensor : Z)
| ASensorEventQueue_getEvents (queue : Z)
| ALooper_pollAll (timeoutMillis : Z)
| malloc (size : Z)
| __android_log_print (prio : LogPriority) (fmt : string) (args : list LogArg).

Definition LOGI (fmt : string) (args : list LogArg) : Call :=
  __android_log_print ANDROID_LOG_INFO fmt args.
Definition LOGW (fmt : string) (args : list LogArg) : Call :=
  __android_log_print ANDROID_LOG_WARN fmt args.

(** A computation either completes with a value or stops at a failed
    [assert]; in both cases it leaves the calls it issued, in order. *)
Inductive Res (A : Type) : Type :=
| Ok (a : A)
| Abort.
Arguments Ok {A} a.
Arguments Abort {A}.

Definition Eff (A : Type) : Type := (Res A * list Call)%type.

Definition ret {A} (a : A) : Eff A := (Ok a, []).

Definition result {A} (m : Eff A) : Res A := fst m.
Definition trace {A} (m : Eff A) : list Call := snd m.

Definition bind {A B} (m : Eff A) (k : A -> Eff B) : Eff B :=
  match result m with
  | Ok a => (result (k a), trace m ++ trace (k a))
  | Abort => (Abort, trace m)
  end.

Definition call (c : Call) : Eff unit := (Ok tt, [c]).

(** [assert(b)] of [<cassert>]. *)
Definition cassert (b : bool) : Eff unit := if b then ret tt else (Abort, []).

Declare Scope eff_scope.
Delimit Scope eff_scope with eff.
Notation "x <- m ;; k" := (bind m (fun x => k))
  (at level 61, m at next level, right associativity) : eff_scope.
Notation "m ;; k" := (bind m (fun _ => k))
  (at level 61, right associativity) : eff_scope.
Local Open Scope eff_scope.

(* ================================================================== *)
(** ** The engine's data *)

(** [struct SavedState_]: the part of the engine that outlives it. *)
Record SavedState : Type := mkSavedState {
  angle : F32.float;
  x : Z;
  y : Z
}.

(** What the engine reads and writes of the glue's [struct android_app].
    [savedState] is the malloc'ed buffer ([None] is [nullptr]). *)
Record android_app : Type := mk_android_app {
  window : Z;
  savedState : option (list byte);
  savedStateSize : Z;
  destroyRequested : Z
}.

(** [struct Context].  [app] is the object [ctx.app] points to: the
    engine and the host share it, and the engine holds the only copy of
    it in this model. *)
Record Context : Type := mkContext {
  app : android_app;
  sensorManager : Z;
  accelerometerSensor : Z;
  sensorEventQueue : Z;
  animating : Z;
  display : Z;
  surface : Z;
  context : Z;
  width : Z;
  height : Z;
  state : SavedState
}.

Definition set_angle (v : F32.float) (s : SavedState) : SavedState :=
  mkSavedState v (x s) (y s).
Definition set_x (v : Z) (s : SavedState) : SavedState :=
  mkSavedState (angle s) v (y s).
Definition set_y (v : Z) (s : SavedState) : SavedState :=
  mkSavedState (angle s) (x s) v.

Definition set_savedState (b : option (list byte)) (n : Z) (a : android_app)
  : android_app :=
  mk_android_app (window a) b n (destroyRequested a).
Definition set_window (w : Z) (a : android_app) : android_app :=
  mk_android_app w (savedState a) (savedStateSize a) (destroyRequested a).
Definition set_destroyRequested (v : Z) (a : android_app) : android_app :=
  mk_android_app (window a) (savedState a) (savedStateSize a) v.

Definition set_app (v : android_app) (c : Context) : Context :=
  mkContext v (sensorManager c) (accelerometerSensor c) (sensorEventQueue c)
    (animating c) (display c) (surface c) (context c) (width c) (height c)
    (state c).
Definition set_animating (v : Z) (c : Context) : Context :=
  mkContext (app c) (sensorManager c) (accelerometerSensor c)
    (sensorEventQueue c) v (display c) (surface c) (context c) (width c)
    (height c) (state c).
Definition set_display (v : Z) (c : Context) : Context :=
  mkContext (app c) (sensorManager c) (accelerometerSensor c)
    (sensorEventQueue c) (animating c) v (surface c) (context c) (width c)
    (height c) (state c).
Definition set_surface (v : Z) (c : Context) : Context :=
  mkContext (app c) (sensorManager c) (accelerometerSensor c)
    (sensorEventQueue c) (animating c) (display c) v (context c) (width c)
    (height c) (state c).
Definition set_context (v : Z) (c : Context) : Context :=
  mkContext (app c) (sensorManager c) (accelerometerSensor c)
    (sensorEventQueue c) (animating c) (display c) (surface c) v (width c)
    (height c) (state c).
Definition set_width (v : Z) (c : Context) : Context :=
  mkContext (app c) (sensorManager c) (accelerometerSensor c)
    (sensorEventQueue c) (animating c) (display c) (surface c) (context c) v
    (height c) (state c).
Definition set_height (v : Z) (c : Context) : Context :=
  mkContext (app c) (sensorManager c) (accelerometerSensor c)
    (sensorEventQueue c) (animating c) (display c) (surface c) (context c)
    (width c) v (state c).
Definition set_state (v : SavedState) (c : Context) : Context :=
  mkContext (app c) (sensorManager c) (accelerometerSensor c)
    (sensorEventQueue c) (animating c) (display c) (surface c) (context c)
    (width c) (height c) v.

(** [sizeof(SavedState)]: three 4-byte members, no padding. *)
Definition sizeof_SavedState : Z := 12.

(** The object representation of a [SavedState]. *)
Definition SavedState_bytes (s : SavedState) : list byte :=
  LE32.store (F32.bits (angle s)) ++ LE32.store (x s) ++ LE32.store (y s).

(** [*(SavedState * ) buf] *)
Definition SavedState_of_bytes (buf : list byte) : SavedState :=
  {| angle := F32.of_bits (LE32.load buf 0);
     x := LE32.signed (LE32.load buf 4);
     y := LE32.signed (LE32.load buf 8) |}.

(** The values an [int32_t] object can hold. *)
Definition int32 (z : Z) : bool := (F32.INT32_MIN <=? z) && (z <=? F32.INT32_MAX).

(** The states a [SavedState] object can be in. *)
Definition SavedState_wf (s : SavedState) : bool :=
  F32.valid (angle s) && int32 (x s) && int32 (y s).

(* ================================================================== *)
(** ** The platform's answers *)

(** How EGL and GLES answer during one callback.  A handle of 0 is the
    failure value of the function that returns it. *)
Record EGL : Type := mkEGL {
  egl_getDisplay : Z -> Z;
  egl_chooseConfig : Z -> list (EGLattr * Z) -> list Z;
  egl_getConfigAttrib : Z -> Z -> EGLattr -> option Z;
  egl_createWindowSurface : Z -> Z -> Z -> Z;
  egl_createContext : Z -> Z -> Z;
  egl_makeCurrent : Z -> Z -> Z -> Z -> bool;
  egl_querySurface : Z -> Z -> EGLattr -> Z;
  gl_getString : GLenum -> Z
}.

(** How the sensor service answers [init].  The two lookups are the
    [dlsym] results of [acquireASensorManagerInstance] applied: [None]
    when the symbol is missing, otherwise the manager obtained. *)
Record Sensors : Type := mkSensors {
  getInstanceForPackageFunc : option Z;
  getInstanceFunc : option Z;
  sens_getDefaultSensor : Z -> Z -> Z;
  sens_createEventQueue : Z -> Z -> Z
}.

Record ASensorEvent : Type := mkASensorEvent {
  acceleration_x : F32.float;
  acceleration_y : F32.float;
  acceleration_z : F32.float
}.

(** An input event: its type and the coordinates of pointer 0. *)
Record AInputEvent : Type := mkAInputEvent {
  AInputEvent_getType : Z;
  AMotionEvent_getX : F32.float;
  AMotionEvent_getY : F32.float
}.

(* ================================================================== *)
(** ** class Engine *)

Definition isAnimating (c : Context) : bool := negb (animating c =? 0).

(** The [dlopen]/[dlsym]/JNI bridge, reduced to its control flow: the
    per-package lookup when it yields a manager, otherwise
    [ASensorManager_getInstance], whose presence is asserted.  The guard
    [!ctx.app] cannot fire: [init] has just stored [state] there. *)
Definition acquireASensorManagerInstance (sens : Sensors) : Eff Z :=
  let getInstance :=
    cassert (match getInstanceFunc sens with Some _ => true | None => false end) ;;
    ret (match getInstanceFunc sens with Some mgr => mgr | None => nullptr end) in
  match getInstanceForPackageFunc sens with
  | Some mgr => if negb (mgr =? nullptr) then ret mgr else getInstance
  | None => getInstance
  end.

Definition init (sens : Sensors) (st : android_app) : Eff Context :=
  (* memset(&ctx, 0, sizeof(ctx)); ctx.app = state; *)
  mgr <- acquireASensorManagerInstance sens ;;
  call (ASensorManager_getDefaultSensor mgr ASENSOR_TYPE_ACCELEROMETER) ;;
  let acc := sens_getDefaultSensor sens mgr ASENSOR_TYPE_ACCELEROMETER in
  call (ASensorManager_createEventQueue mgr LOOPER_ID_USER) ;;
  let queue := sens_createEventQueue sens mgr LOOPER_ID_USER in
  let c := mkContext st mgr acc queue 0 0 0 0 0 0
             (mkSavedState (F32.Zero false) 0 0) in
  match savedState st with
  | Some buf =>
      (* We are starting with a previous saved state; restore from it. *)
      ret (set_state (SavedState_of_bytes buf) c)
  | None => ret c
  end.

Definition attr : list (EGLattr * Z) :=
  [(EGL_SURFACE_TYPE, EGL_WINDOW_BIT); (EGL_BLUE_SIZE, 8);
   (EGL_GREEN_SIZE, 8); (EGL_RED_SIZE, 8)].

(** The condition of the [if] in the configuration loop: four queries
    joined by [&&], each made only when the one before succeeded, then
    the comparison of what they wrote. *)
Definition config_matches (egl : EGL) (dpy cfg : Z) : Eff bool :=
  call (eglGetConfigAttrib dpy cfg EGL_RED_SIZE) ;;
  match egl_getConfigAttrib egl dpy cfg EGL_RED_SIZE with
  | None => ret false
  | Some r =>
  call (eglGetConfigAttrib dpy cfg EGL_GREEN_SIZE) ;;
  match egl_getConfigAttrib egl dpy cfg EGL_GREEN_SIZE with
  | None => ret false
  | Some g =>
  call (eglGetConfigAttrib dpy cfg EGL_BLUE_SIZE) ;;
  match egl_getConfigAttrib egl dpy cfg EGL_BLUE_SIZE with
  | None => ret false
  | Some b =>
  call (eglGetConfigAttrib dpy cfg EGL_DEPTH_SIZE) ;;
  match egl_getConfigAttrib egl dpy cfg EGL_DEPTH_SIZE with
  | None => ret false
  | Some d => ret ((r =? 8) && (g =? 8) && (b =? 8) && (d =? 0))
  end end end end.

(** [for (; i < numConfigs; i++)]: the first configuration that matches,
    or [None] when the loop runs to [i == numConfigs]. *)
Fixpoint find_config (egl : EGL) (dpy : Z) (cfgs : list Z) : Eff (option Z) :=
  match cfgs with
  | [] => ret None
  | cfg :: rest =>
      m <- config_matches egl dpy cfg ;;
      if m then ret (Some cfg) else find_config egl dpy rest
  end.

(** Initialize an EGL context for the current display. *)
Definition initDisplay (egl : EGL) (c : Context) : Eff (Z * Context) :=
  call (eglGetDisplay EGL_DEFAULT_DISPLAY) ;;
  let dpy := egl_getDisplay egl EGL_DEFAULT_DISPLAY in
  call (eglInitialize dpy) ;;
  call (eglChooseConfig dpy attr 0) ;;
  let supportedConfigs := egl_chooseConfig egl dpy attr in
  let numConfigs := Z.of_nat (List.length supportedConfigs) in
  call (eglChooseConfig dpy attr numConfigs) ;;
  (* assert(supportedConfigs) cannot fail: new[] does not return null. *)
  cassert (negb (numConfigs =? 0)) ;;
  found <- find_config egl dpy supportedConfigs ;;
  let config :=
    match found with
    | Some cfg => cfg
    | None => nth 0 supportedConfigs nullptr
    end in
  if config =? nullptr then
    call (LOGW "Unable to initialize EGLConfig" []) ;;
    ret (-1, c)
  else
    call (eglGetConfigAttrib dpy config EGL_NATIVE_VISUAL_ID) ;;
    call (eglCreateWindowSurface dpy config (window (app c))) ;;
    let surf := egl_createWindowSurface egl dpy config (window (app c)) in
    call (eglCreateContext dpy config) ;;
    let cx := egl_createContext egl dpy config in
    call (eglMakeCurrent dpy surf surf cx) ;;
    if negb (egl_makeCurrent egl dpy surf surf cx) then
      call (LOGW "Unable to eglMakeCurrent" []) ;;
      ret (-1, c)
    else
      call (eglQuerySurface dpy surf EGL_WIDTH) ;;
      let w := egl_querySurface egl dpy surf EGL_WIDTH in
      call (eglQuerySurface dpy surf EGL_HEIGHT) ;;
      let h := egl_querySurface egl dpy surf EGL_HEIGHT in
      let c := set_display dpy c in
      let c := set_context cx c in
      let c := set_surface surf c in
      let c := set_width w c in
      let c := set_height h c in
      let c := set_state (set_angle (F32.of_int 0) (state c)) c in
      (* Check openGL on the system *)
      call (glGetString GL_VENDOR) ;;
      call (LOGI "OpenGL Info: %s" [ArgPtr (gl_getString egl GL_VENDOR)]) ;;
      call (glGetString GL_RENDERER) ;;
      call (LOGI "OpenGL Info: %s" [ArgPtr (gl_getString egl GL_RENDERER)]) ;;
      call (glGetString GL_VERSION) ;;
      call (LOGI "OpenGL Info: %s" [ArgPtr (gl_getString egl GL_VERSION)]) ;;
      call (glGetString GL_EXTENSIONS) ;;
      call (LOGI "OpenGL Info: %s" [ArgPtr (gl_getString egl GL_EXTENSIONS)]) ;;
      (* Initialize GL state. *)
      call (glHint GL_PERSPECTIVE_CORRECTION_HINT GL_FASTEST) ;;
      call (glEnable GL_CULL_FACE) ;;
      call (glShadeModel GL_SMOOTH) ;;
      call (glDisable GL_DEPTH_TEST) ;;
      ret (0, c).

(** Tear down the EGL context currently associated with the display. *)
Definition termDisplay (c : Context) : Eff Context :=
  (if negb (display c =? EGL_NO_DISPLAY) then
     call (eglMakeCurrent (display c) EGL_NO_SURFACE EGL_NO_SURFACE EGL_NO_CONTEXT) ;;
     (if negb (context c =? EGL_NO_CONTEXT)
      then call (eglDestroyContext (display c) (context c)) else ret tt) ;;
     (if negb (surface c =? EGL_NO_SURFACE)
      then call (eglDestroySurface (display c) (surface c)) else ret tt) ;;
     call (eglTerminate (display c))
   else ret tt) ;;
  let c := set_animating 0 c in
  let c := set_display EGL_NO_DISPLAY c in
  let c := set_context EGL_NO_CONTEXT c in
  let c := set_surface EGL_NO_SURFACE c in
  ret c.

(** Just the current frame in the display. *)
Definition drawFrame (c : Context) : Eff unit :=
  if display c =? nullptr then
    (* No display. *)
    ret tt
  else
    (* Just fill the screen with a color. *)
    call (glClearColor
            (F32.div (F32.of_int (x (state c))) (F32.of_int (width c)))
            (angle (state c))
            (F32.div (F32.of_int (y (state c))) (F32.of_int (height c)))
            (F32.of_int 1)) ;;
    call (glClear GL_COLOR_BUFFER_BIT) ;;
    call (eglSwapBuffers (display c) (surface c)).

Definition onInputEvent (event : AInputEvent) (c : Context) : Eff (Z * Context) :=
  if AInputEvent_getType event =? AINPUT_EVENT_TYPE_MOTION then
    let c := set_animating 1 c in
    let c := set_state (set_x (F32.to_int (AMotionEvent_getX event)) (state c)) c in
    let c := set_state (set_y (F32.to_int (AMotionEvent_getY event)) (state c)) c in
    ret (1, c)
  else ret (0, c).

(** The system has asked us to save our current state.  Do so. *)
Definition onSaveState (c : Context) : Eff Context :=
  call (malloc sizeof_SavedState) ;;
  ret (set_app (set_savedState (Some (SavedState_bytes (state c)))
                  sizeof_SavedState (app c)) c).

(** The window is being shown, get it ready. *)
Definition onInitWindow (egl : EGL) (c : Context) : Eff Context :=
  if negb (window (app c) =? nullptr) then
    rc <- initDisplay egl c ;;
    let c := snd rc in
    drawFrame c ;;
    ret c
  else ret c.

(** The window is being hidden or closed, clean it up. *)
Definition onTermWindow (c : Context) : Eff Context := termDisplay c.

(** System focus event *)
Definition onFocus (gained : bool) (c : Context) : Eff Context :=
  if gained then
    (* When our app gains focus, we start monitoring the accelerometer. *)
    (if negb (accelerometerSensor c =? nullptr) then
       call (ASensorEventQueue_enableSensor (sensorEventQueue c)
               (accelerometerSensor c)) ;;
       (* We'd like to get 60 events per second (in us). *)
       call (ASensorEventQueue_setEventRate (sensorEventQueue c)
               (accelerometerSensor c) (Z.quot 1000 60 * 1000))
     else ret tt) ;;
    ret c
  else
    (* When our app loses focus, we stop monitoring the accelerometer. *)
    (if negb (accelerometerSensor c =? nullptr) then
       call (ASensorEventQueue_disableSensor (sensorEventQueue c)
               (accelerometerSensor c))
     else ret tt) ;;
    (* Also stop animating. *)
    let c := set_animating 0 c in
    drawFrame c ;;
    ret c.

(** The [while] of [processSensorEvents] on a queue holding [pending]:
    one [getEvents] and one log line per event, and the [getEvents]
    that finds the queue empty. *)
Fixpoint drain_events (queue : Z) (pending : list ASensorEvent) : Eff unit :=
  match pending with
  | [] => call (ASensorEventQueue_getEvents queue)
  | ev :: rest =>
      call (ASensorEventQueue_getEvents queue) ;;
      call (LOGI "accelerometer: x=%f y=%f z=%f"
              [ArgFloat (acceleration_x ev); ArgFloat (acceleration_y ev);
               ArgFloat (acceleration_z ev)]) ;;
      drain_events queue rest
  end.

Definition processSensorEvents (pending : list ASensorEvent) (c : Context)
  : Eff unit :=
  if negb (accelerometerSensor c =? nullptr)
  then drain_events (sensorEventQueue c) pending
  else ret tt.

Definition animate (c : Context) : Eff Context :=
  if isAnimating c then
    (* Done with events; draw next animation frame. *)
    let c := set_state (set_angle (F32.add (angle (state c)) F32.lit_0_01)
                          (state c)) c in
    let c := if F32.gt (angle (state c)) (F32.of_int 1)
             then set_state (set_angle (F32.of_int 0) (state c)) c
             else c in
    drawFrame c ;;
    ret c
  else ret c.

(* ================================================================== *)
(** ** android_main *)

(** The callback stored in [state->onAppCmd]. *)
Definition onAppCmd (egl : EGL) (cmd : AppCmd) (c : Context) : Eff Context :=
  match cmd with
  | APP_CMD_SAVE_STATE => onSaveState c
  | APP_CMD_INIT_WINDOW => onInitWindow egl c
  | APP_CMD_TERM_WINDOW => onTermWindow c
  | APP_CMD_GAINED_FOCUS => onFocus true c
  | APP_CMD_LOST_FOCUS => onFocus false c
  | _ => ret c
  end.

(** What [source->process(state, source)] of the glue does, step by
    step: it writes fields of the shared [android_app] and calls the two
    callbacks [android_main] installed. *)
Inductive HostAction : Type :=
| HostSetWindow (w : Z)
| HostClearSavedState
| HostSetDestroyRequested (v : Z)
| CallOnAppCmd (cmd : AppCmd)
| CallOnInputEvent (event : AInputEvent).

Definition host_step (egl : EGL) (a : HostAction) (c : Context) : Eff Context :=
  match a with
  | HostSetWindow w => ret (set_app (set_window w (app c)) c)
  | HostClearSavedState => ret (set_app (set_savedState None 0 (app c)) c)
  | HostSetDestroyRequested v =>
      ret (set_app (set_destroyRequested v (app c)) c)
  | CallOnAppCmd cmd => onAppCmd egl cmd c
  | CallOnInputEvent event =>
      rc <- onInputEvent event c ;; ret (snd rc)
  end.

Fixpoint process (egl : EGL) (acts : list HostAction) (c : Context)
  : Eff Context :=
  match acts with
  | [] => ret c
  | a :: rest => c1 <- host_step egl a c ;; process egl rest c1
  end.

(** One return of [ALooper_pollAll]: the identifier (negative when no
    event came), the [source] out-parameter ([None] is [nullptr]), and
    how the platform answers while this event is handled: EGL and the
    content of the sensor queue. *)
Record PollResult : Type := mkPollResult {
  ident : Z;
  source : option (list HostAction);
  egl_now : EGL;
  sensorEvents : list ASensorEvent
}.

Inductive Next : Type :=
| Continue (c : Context)
| Return (c : Context).

(** The body of the inner loop up to the exit test. *)
Definition handle_event (p : PollResult) (c : Context) : Eff Context :=
  (* Process this event. *)
  c <- match source p with
       | Some acts => process (egl_now p) acts c
       | None => ret c
       end ;;
  (* If a sensor has data, process it now. *)
  (if ident p =? LOOPER_ID_USER
   then processSensorEvents (sensorEvents p) c else ret tt) ;;
  ret c.

(** One poll and what follows it.  The two nested [while] loops of
    [android_main] are one loop over polls: a poll that returns an event
    runs the body of the inner loop, a poll that returns none leaves the
    inner loop, runs [animate] and enters it again. *)
Definition iteration (p : PollResult) (c : Context) : Eff Next :=
  (* If not animating, we will block forever waiting for events. *)
  call (ALooper_pollAll (if isAnimating c then 0 else -1)) ;;
  if 0 <=? ident p then
    c <- handle_event p c ;;
    (* Check if we are exiting. *)
    if negb (destroyRequested (app c) =? 0) then
      c <- termDisplay c ;;
      ret (Return c)
    else ret (Continue c)
  else
    c <- animate c ;;
    ret (Continue c).

(** The loop against a host that answers the polls with [script]; when
    the script is used up the engine is left where the next poll would
    be issued. *)
Fixpoint event_loop (script : list PollResult) (c : Context) : Eff Next :=
  match script with
  | [] => ret (Continue c)
  | p :: rest =>
      n <- iteration p c ;;
      match n with
      | Continue c1 => event_loop rest c1
      | Return c1 => ret (Return c1)
      end
  end.

Definition android_main (sens : Sensors) (st : android_app)
  (script : list PollResult) : Eff Next :=
  c <- init sens st ;;
  event_loop script c.

(** The engine at the head of each iteration the loop runs. *)
Fixpoint loop_heads (script : list PollResult) (c : Context) : list Context :=
  match script with
  | [] => []
  | p :: rest =>
      c :: match result (iteration p c) with
           | Ok (Continue c1) => loop_heads rest c1
           | _ => []
           end
  end.

(* ================================================================== *)
(** ** Observations on states and logs *)

Definition next_ctx (n : Next) : Context :=
  match n with Continue c | Return c => c end.

(** The render target: [display], [surface], [context]. *)
Definition all_valid (c : Context) : Prop :=
  display c <> EGL_NO_DISPLAY /\ surface c <> EGL_NO_SURFACE /\
  context c <> EGL_NO_CONTEXT.

Definition all_invalid (c : Context) : Prop :=
  display c = EGL_NO_DISPLAY /\ surface c = EGL_NO_SURFACE /\
  context c = EGL_NO_CONTEXT.

(** The all-or-nothing state of the render target. *)
Definition target_ok (c : Context) : Prop := all_valid c \/ all_invalid c.

(** What the [if] of the configuration loop asks of a configuration, as
    a test on the backend's answers: the four queries succeed, with 8
    bits of red, green and blue and no depth. *)
Definition rgb888_no_depth (egl : EGL) (dpy cfg : Z) : bool :=
  match egl_getConfigAttrib egl dpy cfg EGL_RED_SIZE,
        egl_getConfigAttrib egl dpy cfg EGL_GREEN_SIZE,
        egl_getConfigAttrib egl dpy cfg EGL_BLUE_SIZE,
        egl_getConfigAttrib egl dpy cfg EGL_DEPTH_SIZE with
  | Some r, Some g, Some b, Some d => (r =? 8) && (g =? 8) && (b =? 8) && (d =? 0)
  | _, _, _, _ => false
  end.

(** The first configuration that passes the test, otherwise the first
    configuration. *)
Definition preferred_config (egl : EGL) (dpy : Z) (cfgs : list Z) : Z :=
  match find (rgb888_no_depth egl dpy) cfgs with
  | Some cfg => cfg
  | None => nth 0 cfgs nullptr
  end.

(** What keeps the target whole: on this backend [eglMakeCurrent]
    accepts the surface made for [win] and the context, both made for
    the configuration [initDisplay] settles on, only when display,
    surface and context are all valid handles.  Nothing is asked about
    other configurations, nor about the release form
    [eglMakeCurrent(dpy, EGL_NO_SURFACE, EGL_NO_SURFACE, EGL_NO_CONTEXT)]
    where it is not what an acquisition ends up calling. *)
Definition binds_valid (egl : EGL) (win : Z) : Prop :=
  let dpy := egl_getDisplay egl EGL_DEFAULT_DISPLAY in
  let config := preferred_config egl dpy (egl_chooseConfig egl dpy attr) in
  let surf := egl_createWindowSurface egl dpy config win in
  let cx := egl_createContext egl dpy config in
  config <> nullptr ->
  egl_makeCurrent egl dpy surf surf cx = true ->
  dpy <> EGL_NO_DISPLAY /\ surf <> EGL_NO_SURFACE /\ cx <> EGL_NO_CONTEXT.

(** The windows a log asks a surface for. *)
Definition surface_window (k : Call) : list Z :=
  match k with eglCreateWindowSurface _ _ win => [win] | _ => [] end.
Definition surface_windows (t : list Call) : list Z :=
  flat_map surface_window t.

(** A surface is asked for a window that is there. *)
Definition on_window (k : Call) : bool :=
  match k with
  | eglCreateWindowSurface _ _ win => negb (win =? nullptr)
  | _ => true
  end.

(** The acquisitions of a run: every window the loop asks a surface
    for, with the backend that answers at that poll. *)
Fixpoint acquisitions (script : list PollResult) (c : Context)
  : list (EGL * Z) :=
  match script with
  | [] => []
  | p :: rest =>
      map (pair (egl_now p)) (surface_windows (trace (iteration p c))) ++
      match result (iteration p c) with
      | Ok (Continue c1) => acquisitions rest c1
      | _ => []
      end
  end.

Definition is_swap (k : Call) : bool :=
  match k with eglSwapBuffers _ _ => true | _ => false end.
Definition is_terminate (k : Call) : bool :=
  match k with eglTerminate _ => true | _ => false end.

(** Frames presented in a log. *)
Definition frames (t : list Call) : nat := List.length (filter is_swap t).

(** Display connections released in a log. *)
Definition releases (t : list Call) : nat := List.length (filter is_terminate t).

(** The timeouts of the polls of a log, in order. *)
Fixpoint poll_timeouts (t : list Call) : list Z :=
  match t with
  | [] => []
  | ALooper_pollAll ms :: rest => ms :: poll_timeouts rest
  | _ :: rest => poll_timeouts rest
  end.

Definition is_motion (a : HostAction) : bool :=
  match a with
  | CallOnInputEvent event => AInputEvent_getType event =? AINPUT_EVENT_TYPE_MOTION
  | _ => false
  end.

(** A poll whose handling routes a motion event, and a script without
    one. *)
Definition routes_motion (p : PollResult) : bool :=
  (0 <=? ident p) &&
  match source p with
  | Some acts => existsb is_motion acts
  | None => false
  end.

Definition no_motion (script : list PollResult) : bool :=
  forallb (fun p => negb (routes_motion p)) script.

(** [0 <= a <= 1] on [float]. *)
Definition in_unit (a : F32.float) : bool :=
  F32.le (F32.of_int 0) a && F32.le a (F32.of_int 1).

(** The glue's delivery of [APP_CMD_DESTROY]: it raises
    [destroyRequested] before it calls [onAppCmd]. *)
Definition Destroy : list HostAction :=
  [HostSetDestroyRequested 1; CallOnAppCmd APP_CMD_DESTROY].

(** Zero, a positive finite number, or plus infinity. *)
Definition nonneg (f : spec_float) : bool :=
  match f with
  | S754_zero false | S754_finite false _ _ | S754_infinity false => true
  | _ => false
  end.

(* ================================================================== *)
(** ** Sample platforms, states and scripts *)

Module Sample.

(** [eglMakeCurrent] as EGL specifies it for the calls made here: it
    binds a surface and a context that both exist, and with
    [EGL_NO_SURFACE] and [EGL_NO_CONTEXT] it releases the current
    context, which succeeds as well ([termDisplay] relies on that
    form); a surface without a context, or a context without a
    surface, is an error. *)
Definition makeCurrent (dpy draw read cx : Z) : bool :=
  negb (dpy =? EGL_NO_DISPLAY) &&
  (((draw =? EGL_NO_SURFACE) && (read =? EGL_NO_SURFACE) && (cx =? EGL_NO_CONTEXT))
   || (negb (draw =? EGL_NO_SURFACE) && negb (read =? EGL_NO_SURFACE)
       && negb (cx =? EGL_NO_CONTEXT))).

(** Two configurations; the second is RGB888 without depth. *)
Definition getConfigAttrib (dpy cfg : Z) (a : EGLattr) : option Z :=
  match a with
  | EGL_DEPTH_SIZE => Some (if cfg =? 12 then 0 else 24)
  | _ => Some 8
  end.

Definition querySurface (dpy surf : Z) (a : EGLattr) : Z :=
  match a with EGL_WIDTH => 1080 | _ => 1920 end.

(** A backend on which the acquisition goes through. *)
Definition egl_ready : EGL :=
  mkEGL (fun _ => 7) (fun _ _ => [11; 12]) getConfigAttrib
    (fun _ _ _ => 21) (fun _ _ => 31) makeCurrent querySurface (fun _ => 99).

(** A backend that can create neither the surface nor the context. *)
Definition egl_exhausted : EGL :=
  mkEGL (fun _ => 7) (fun _ _ => [11; 12]) getConfigAttrib
    (fun _ _ _ => EGL_NO_SURFACE) (fun _ _ => EGL_NO_CONTEXT) makeCurrent
    querySurface (fun _ => 99).

(** A backend that creates the surface but no context. *)
Definition egl_unbound : EGL :=
  mkEGL (fun _ => 7) (fun _ _ => [11; 12]) getConfigAttrib
    (fun _ _ _ => 21) (fun _ _ => EGL_NO_CONTEXT) makeCurrent querySurface
    (fun _ => 99).

(** A backend that makes a surface only for a window that is there and
    a configuration it lists, and a context only for a configuration it
    lists. *)
Definition egl_checked : EGL :=
  mkEGL (fun _ => 7) (fun _ _ => [11; 12]) getConfigAttrib
    (fun _ cfg win =>
       if negb (win =? nullptr) && ((cfg =? 11) || (cfg =? 12))
       then 21 else EGL_NO_SURFACE)
    (fun _ cfg => if (cfg =? 11) || (cfg =? 12) then 31 else EGL_NO_CONTEXT)
    makeCurrent querySurface (fun _ => 99).

(** A device with an accelerometer, and one without. *)
Definition sensors : Sensors :=
  mkSensors (Some 3) None (fun _ _ => 5) (fun _ _ => 6).
Definition no_sensor : Sensors :=
  mkSensors (Some 3) None (fun _ _ => nullptr) (fun _ _ => 6).

(** The host's object at a cold start, and once a window exists. *)
Definition cold : android_app := mk_android_app nullptr None 0 0.
Definition windowed : android_app := mk_android_app 77 None 0 0.

(** x = 120, y = 340, angle = 0.37f (12415140 * 2^-25). *)
Definition saved : SavedState :=
  mkSavedState (F32.Finite false 12415140 (-25)) 120 340.

(** Twelve bytes a host may hand back: the float 0x7f800001, a NaN with
    payload 1, then x = -1 and y = 340. *)
Definition nan_buffer : list byte :=
  [Byte.x01; Byte.x00; Byte.x80; Byte.x7f;
   Byte.xff; Byte.xff; Byte.xff; Byte.xff;
   Byte.x54; Byte.x01; Byte.x00; Byte.x00].

Definition touch : AInputEvent :=
  mkAInputEvent AINPUT_EVENT_TYPE_MOTION (F32.of_int 120) (F32.of_int 340).

(** An engine that has a window, and one that has none. *)
Definition drawing : Context :=
  mkContext windowed 3 5 6 1 7 21 31 1080 1920 saved.
Definition windowless : Context :=
  mkContext cold 3 5 6 0 EGL_NO_DISPLAY EGL_NO_SURFACE EGL_NO_CONTEXT 0 0
    (mkSavedState (F32.Zero false) 0 0).

(** An engine that got a touch before any window: animating, nothing
    to draw on. *)
Definition touched : Context :=
  mkContext cold 3 5 6 1 EGL_NO_DISPLAY EGL_NO_SURFACE EGL_NO_CONTEXT 0 0
    (mkSavedState (F32.Zero false) 120 340).

Definition poll_touch : PollResult :=
  mkPollResult 2 (Some [CallOnInputEvent touch]) egl_ready [].
Definition poll_timeout : PollResult := mkPollResult (-3) None egl_ready [].
Definition poll_destroy : PollResult :=
  mkPollResult 1 (Some Destroy) egl_ready [].
Definition poll_window : PollResult :=
  mkPollResult 1 (Some [HostSetWindow 77; CallOnAppCmd APP_CMD_INIT_WINDOW])
    egl_ready [].
(** The same poll, answered by [egl_checked]. *)
Definition checked (p : PollResult) : PollResult :=
  mkPollResult (ident p) (source p) egl_checked (sensorEvents p).
Definition poll_focus : PollResult :=
  mkPollResult 1 (Some [CallOnAppCmd APP_CMD_GAINED_FOCUS]) egl_ready [].

End Sample.

(* ================================================================== *)
(** ** Further observations *)

(** Calls that give a resource back to EGL. *)
Definition is_teardown (k : Call) : bool :=
  match k with
  | eglDestroyContext _ _ | eglDestroySurface _ _ | eglTerminate _ => true
  | _ => false
  end.

(** A call that presents or gives back is addressed when none of the
    handles it names is null. *)
Definition addressed (k : Call) : bool :=
  match k with
  | eglSwapBuffers dpy _ => negb (dpy =? EGL_NO_DISPLAY)
  | eglDestroyContext dpy cx =>
      negb (dpy =? EGL_NO_DISPLAY) && negb (cx =? EGL_NO_CONTEXT)
  | eglDestroySurface dpy surf =>
      negb (dpy =? EGL_NO_DISPLAY) && negb (surf =? EGL_NO_SURFACE)
  | eglTerminate dpy => negb (dpy =? EGL_NO_DISPLAY)
  | _ => true
  end.

Definition is_sensor_call (k : Call) : bool :=
  match k with
  | ASensorEventQueue_enableSensor _ _ | ASensorEventQueue_setEventRate _ _ _
  | ASensorEventQueue_disableSensor _ _ | ASensorEventQueue_getEvents _ => true
  | _ => false
  end.

Definition is_getEvents (k : Call) : bool :=
  match k with ASensorEventQueue_getEvents _ => true | _ => false end.

Definition is_log (k : Call) : bool :=
  match k with __android_log_print _ _ _ => true | _ => false end.

Definition is_initialize (k : Call) : bool :=
  match k with eglInitialize _ => true | _ => false end.

(** Display connections opened in a log. *)
Definition initializes (t : list Call) : nat :=
  List.length (filter is_initialize t).

(** 1 when the engine holds a display connection. *)
Definition connected (c : Context) : nat :=
  if display c =? EGL_NO_DISPLAY then 0%nat else 1%nat.

(** The sensor handles of the engine. *)
Definition sensor_handles (c : Context) : Z * Z * Z :=
  (sensorManager c, accelerometerSensor c, sensorEventQueue c).

(** What the host can do without the engine reacting: a command that
    falls to the [default] of the switch, an input event that is not a
    motion event. *)
Definition ignored (a : HostAction) : bool :=
  match a with
  | CallOnAppCmd cmd =>
      match cmd with
      | APP_CMD_SAVE_STATE | APP_CMD_INIT_WINDOW | APP_CMD_TERM_WINDOW
      | APP_CMD_GAINED_FOCUS | APP_CMD_LOST_FOCUS => false
      | _ => true
      end
  | CallOnInputEvent event =>
      negb (AInputEvent_getType event =? AINPUT_EVENT_TYPE_MOTION)
  | _ => false
  end.

(** A poll that returns no event, or an event without source, or one
    whose source does only what is ignored. *)
Definition spurious (p : PollResult) : bool :=
  (ident p <? 0) ||
  match source p with
  | Some acts => forallb ignored acts
  | None => true
  end.

(** A poll that returns no event. *)
Definition timed_out (p : PollResult) : bool := ident p <? 0.

(** Inputs at the edges: events that are not for the engine (a key
    press, a command of the [default] branch, a wake-up of the sensor
    channel without source), a device without accelerometer, a backend
    without configurations. *)
Module Corner.

Definition key : AInputEvent :=
  mkAInputEvent AINPUT_EVENT_TYPE_KEY (F32.of_int 0) (F32.of_int 0).
Definition poll_key : PollResult :=
  mkPollResult 2 (Some [CallOnInputEvent key]) Sample.egl_ready [].
Definition poll_resume : PollResult :=
  mkPollResult 1 (Some [CallOnAppCmd APP_CMD_RESUME]) Sample.egl_ready [].
Definition poll_sensor : PollResult :=
  mkPollResult LOOPER_ID_USER None Sample.egl_ready [].
Definition script : list PollResult := [poll_key; poll_resume; poll_sensor].

(** One reading of the accelerometer at rest. *)
Definition at_rest : ASensorEvent :=
  mkASensorEvent (F32.of_int 0) (F32.of_int 0) (F32.of_int 9).

(** An engine with a window on a device without accelerometer. *)
Definition deaf : Context :=
  mkContext Sample.windowed 3 nullptr 6 1 7 21 31 1080 1920 Sample.saved.

(** A backend that has no configuration for [attr]. *)
Definition egl_bare : EGL :=
  mkEGL (fun _ => 7) (fun _ _ => []) Sample.getConfigAttrib
    (fun _ _ _ => 21) (fun _ _ => 31) Sample.makeCurrent Sample.querySurface
    (fun _ => 99).

End Corner.

(** A backend that has at least one configuration for [attr]. *)
Definition offers_config (egl : EGL) : Prop :=
  egl_chooseConfig egl (egl_getDisplay egl EGL_DEFAULT_DISPLAY) attr <> [].

(** One animation step on the angle: the increment, then the wrap. *)
Definition next_angle (a : F32.float) : F32.float :=
  let a1 := F32.add a F32.lit_0_01 in
  if F32.gt a1 (F32.of_int 1) then F32.of_int 0 else a1.

Definition is_nan (f : F32.float) : bool :=
  match f with F32.NaN _ _ => true | _ => false end.

(** The same test on the numbers of the specification. *)
Definition SFis_nan (v : spec_float) : bool :=
  match v with S754_nan => true | _ => false end.

(** Calls that present no frame. *)
Definition offscreen (k : Call) : bool := negb (is_swap k).

(** The line [processSensorEvents] logs for an event. *)
Definition accelerometer_line (ev : ASensorEvent) : Call :=
  LOGI "accelerometer: x=%f y=%f z=%f"
    [ArgFloat (acceleration_x ev); ArgFloat (acceleration_y ev);
     ArgFloat (acceleration_z ev)].

(** Calls that leave the sensor queue alone. *)
Definition silent (k : Call) : bool := negb (is_sensor_call k).

(** Calls that give nothing back to EGL. *)
Definition keeps (k : Call) : bool := negb (is_teardown k).

(** Calls that neither open nor close a display connection. *)
Definition neutral (k : Call) : bool :=
  negb (is_terminate k) && negb (is_initialize k).

(** A measure of the value a computation ends with; 0 when it stops at
    an [assert]. *)
Definition after {A} (f : A -> nat) (m : Eff A) : nat :=
  match result m with Ok a => f a | Abort => 0%nat end.

(** The balance of a computation that starts holding [n0] connections:
    those it closes plus those held at its end are at most those it
    opens plus those held at its start. *)
Definition balanced {A} (f : A -> nat) (m : Eff A) (n0 : nat) : Prop :=
  (releases (trace m) + after f m <= initializes (trace m) + n0)%nat.

(* ================================================================== *)
(** * Properties *)

(** ** Words and floats in memory *)

Section Memory.

Lemma Z_of_byte_of_Z (z : Z) : LE32.Z_of_byte (LE32.byte_of_Z z) = z mod 256.
Proof.
  unfold LE32.Z_of_byte, LE32.byte_of_Z.
  assert (Hr : 0 <= z mod 256 < 256) by (apply Z.mod_pos_bound; lia).
  pose proof (Byte.to_of_N_option_map (Z.to_N (z mod 256))) as H.
  destruct (Byte.of_N (Z.to_N (z mod 256))) as [b|]; simpl in H.
  - destruct (N.leb_spec (Z.to_N (z mod 256)) 255); [|discriminate].
    injection H as ->. apply Z2N.id; lia.
  - destruct (N.leb_spec (Z.to_N (z mod 256)) 255); [discriminate|lia].
Qed.

Lemma four_bytes (w : Z) :
  w mod 256 + 2 ^ 8 * ((w / 2 ^ 8) mod 256) + 2 ^ 16 * ((w / 2 ^ 16) mod 256)
  + 2 ^ 24 * ((w / 2 ^ 24) mod 256) = w mod 2 ^ 32.
Proof.
  change (2 ^ 16) with (2 ^ 8 * 2 ^ 8).
  change (2 ^ 24) with (2 ^ 8 * 2 ^ 8 * 2 ^ 8).
  rewrite <- !Z.div_div by lia.
  change (2 ^ 8) with 256. change (2 ^ 32) with 4294967296.
  set (q1 := w / 256). set (q2 := q1 / 256). set (q3 := q2 / 256).
  pose proof (Z.div_mod w 256 ltac:(lia)) as E0.
  pose proof (Z.div_mod q1 256 ltac:(lia)) as E1.
  pose proof (Z.div_mod q2 256 ltac:(lia)) as E2.
  pose proof (Z.div_mod q3 256 ltac:(lia)) as E3.
  pose proof (Z.mod_pos_bound w 256 ltac:(lia)).
  pose proof (Z.mod_pos_bound q1 256 ltac:(lia)).
  pose proof (Z.mod_pos_bound q2 256 ltac:(lia)).
  pose proof (Z.mod_pos_bound q3 256 ltac:(lia)).
  fold q1 in E0. fold q2 in E1. fold q3 in E2.
  apply Z.mod_unique with (q := q3 / 256); lia.
Qed.

(** A stored word is read back modulo 2^32, wherever it lies. *)
Lemma load_store (pre post : list byte) (w : Z) :
  LE32.load (pre ++ LE32.store w ++ post) (List.length pre) = w mod 2 ^ 32.
Proof.
  unfold LE32.load.
  rewrite <- (Nat.add_0_r (List.length pre)) at 1.
  rewrite !app_nth2_plus.
  cbn [LE32.store List.app nth].
  rewrite !Z_of_byte_of_Z. apply four_bytes.
Qed.

Lemma signed_int32 (z : Z) : int32 z = true -> LE32.signed (z mod 2 ^ 32) = z.
Proof.
  unfold int32, F32.INT32_MIN, F32.INT32_MAX, LE32.signed.
  change (2 ^ 31) with 2147483648. change (2 ^ 32) with 4294967296.
  intros H. apply andb_prop in H as [H1 H2].
  apply Z.leb_le in H1. apply Z.leb_le in H2.
  destruct (Z.neg_nonneg_cases z).
  - replace (z mod 4294967296) with (z + 4294967296)
      by (apply Z.mod_unique with (q := -1); lia).
    destruct (Z.ltb_spec (z + 4294967296) 2147483648); lia.
  - rewrite Z.mod_small by lia.
    destruct (Z.ltb_spec z 2147483648); lia.
Qed.

Lemma digits2_pos_bounds (m : positive) :
  2 ^ (Zpos (digits2_pos m) - 1) <= Zpos m < 2 ^ Zpos (digits2_pos m).
Proof.
  induction m as [m IH | m IH |]; cbn [digits2_pos].
  - rewrite Pos2Z.inj_succ.
    replace (Z.succ (Zpos (digits2_pos m)) - 1)
      with (Z.succ (Zpos (digits2_pos m) - 1)) by lia.
    rewrite !Z.pow_succ_r by lia. lia.
  - rewrite Pos2Z.inj_succ.
    replace (Z.succ (Zpos (digits2_pos m)) - 1)
      with (Z.succ (Zpos (digits2_pos m) - 1)) by lia.
    rewrite !Z.pow_succ_r by lia. lia.
  - cbn. lia.
Qed.

(** A [float] is normal, with 24 significant bits, or subnormal at the
    least exponent. *)
Lemma valid_finite (s : bool) (m : positive) (e : Z) :
  F32.valid (F32.Finite s m e) = true ->
  (2 ^ 23 <= Zpos m < 2 ^ 24 /\ -149 <= e <= 104) \/
  (Zpos m < 2 ^ 23 /\ e = -149).
Proof.
  unfold F32.valid, F32.val, valid_binary, bounded, canonical_mantissa, fexp,
    emin, F32.prec, F32.emax.
  intros H. apply andb_prop in H as [H1 H2].
  apply Z.eqb_eq in H1. apply Z.leb_le in H2.
  pose proof (digits2_pos_bounds m) as [Hlo Hhi].
  destruct (Z.max_spec (Zpos (digits2_pos m) + e - 24) (3 - 128 - 24))
    as [[Hlt Hmax] | [Hle Hmax]]; rewrite Hmax in H1.
  - right. split; [|lia].
    assert (Hd : Zpos (digits2_pos m) <= 23) by lia.
    pose proof (Z.pow_le_mono_r 2 _ _ ltac:(lia) Hd). lia.
  - left. assert (Hd : Zpos (digits2_pos m) = 24) by lia.
    rewrite Hd in Hlo, Hhi. change (24 - 1) with 23 in Hlo. lia.
Qed.

Lemma bits_of_bits (f : F32.float) :
  F32.valid f = true ->
  0 <= F32.bits f < 2 ^ 32 /\ F32.of_bits (F32.bits f) = f.
Proof.
  destruct f as [s | s | s p | s m e]; intros Hv.
  - destruct s; split; cbn; try lia; reflexivity.
  - destruct s; split; cbn; try lia; reflexivity.
  - cbn [F32.valid] in Hv. apply Z.ltb_lt in Hv.
    unfold F32.bits, F32.of_bits, F32.sign_bit.
    change (2 ^ 23) with 8388608 in *.
    change (2 ^ 31) with 2147483648. change (2 ^ 32) with 4294967296.
    set (sb := if s then 1 else 0).
    assert (Hsb : (if s then 2147483648 else 0) = sb * 256 * 8388608)
      by (destruct s; reflexivity).
    assert (Hsb01 : 0 <= sb <= 1) by (destruct s; cbn; lia).
    rewrite Hsb.
    set (w := sb * 256 * 8388608 + 255 * 8388608 + Zpos p).
    assert (Hq : w / 8388608 = sb * 256 + 255)
      by (symmetry; apply Z.div_unique with (r := Zpos p); lia).
    assert (Hr : w mod 8388608 = Zpos p)
      by (symmetry; apply Z.mod_unique with (q := sb * 256 + 255); lia).
    assert (Hb : (sb * 256 + 255) mod 256 = 255)
      by (symmetry; apply Z.mod_unique with (q := sb); lia).
    rewrite Hq, Hr, Hb.
    assert (Hs : (2147483648 <=? w) = s).
    { destruct s; cbn in sb; subst sb.
      - apply Z.leb_le. lia.
      - apply Z.leb_gt. lia. }
    rewrite Hs. split; [lia | reflexivity].
  - apply valid_finite in Hv.
    unfold F32.bits, F32.of_bits, F32.sign_bit.
    change (2 ^ 23) with 8388608 in *. change (2 ^ 24) with 16777216 in *.
    change (2 ^ 31) with 2147483648. change (2 ^ 32) with 4294967296.
    set (sb := if s then 1 else 0).
    assert (Hsb : (if s then 2147483648 else 0) = sb * 256 * 8388608)
      by (destruct s; reflexivity).
    assert (Hsb01 : 0 <= sb <= 1) by (destruct s; cbn; lia).
    rewrite Hsb.
    destruct Hv as [[Hm He] | [Hm He]].
    + destruct (Z.leb_spec 8388608 (Zpos m)); [|lia].
      set (w := sb * 256 * 8388608 + ((e + 150) * 8388608 + (Zpos m - 8388608))).
      assert (Hq : w / 8388608 = sb * 256 + (e + 150))
        by (symmetry; apply Z.div_unique with (r := Zpos m - 8388608); lia).
      assert (Hr : w mod 8388608 = Zpos m - 8388608)
        by (symmetry; apply Z.mod_unique with (q := sb * 256 + (e + 150)); lia).
      assert (Hb : (sb * 256 + (e + 150)) mod 256 = e + 150)
        by (symmetry; apply Z.mod_unique with (q := sb); lia).
      rewrite Hq, Hr, Hb.
      assert (Hs : (2147483648 <=? w) = s).
      { destruct s; cbn in sb; subst sb.
        - apply Z.leb_le. lia.
        - apply Z.leb_gt. lia. }
      rewrite Hs. split; [lia|].
      destruct (Z.eqb_spec (e + 150) 0); [lia|].
      destruct (Z.eqb_spec (e + 150) 255); [lia|].
      replace (Zpos m - 8388608 + 8388608) with (Zpos m) by lia.
      f_equal. lia.
    + destruct (Z.leb_spec 8388608 (Zpos m)); [lia|].
      set (w := sb * 256 * 8388608 + Zpos m).
      assert (Hq : w / 8388608 = sb * 256)
        by (symmetry; apply Z.div_unique with (r := Zpos m); lia).
      assert (Hr : w mod 8388608 = Zpos m)
        by (symmetry; apply Z.mod_unique with (q := sb * 256); lia).
      assert (Hb : (sb * 256) mod 256 = 0)
        by (symmetry; apply Z.mod_unique with (q := sb); lia).
      rewrite Hq, Hr, Hb.
      assert (Hs : (2147483648 <=? w) = s).
      { destruct s; cbn in sb; subst sb.
        - apply Z.leb_le. lia.
        - apply Z.leb_gt. lia. }
      rewrite Hs. split; [lia|]. cbn [Z.eqb]. subst e. reflexivity.
Qed.

(** Reading a well-formed [SavedState] back from its bytes. *)
Lemma SavedState_of_bytes_bytes (s : SavedState) :
  SavedState_wf s = true -> SavedState_of_bytes (SavedState_bytes s) = s.
Proof.
  unfold SavedState_wf. intros H.
  apply andb_prop in H as [H Hy]. apply andb_prop in H as [Ha Hx].
  destruct (bits_of_bits _ Ha) as [Hrange Hbits].
  unfold SavedState_of_bytes, SavedState_bytes.
  pose proof (load_store [] (LE32.store (x s) ++ LE32.store (y s))
                (F32.bits (angle s))) as L0.
  pose proof (load_store (LE32.store (F32.bits (angle s))) (LE32.store (y s))
                (x s)) as L4.
  pose proof (load_store (LE32.store (F32.bits (angle s)) ++ LE32.store (x s))
                [] (y s)) as L8.
  rewrite app_nil_r, <- app_assoc in L8.
  cbn [List.app List.length LE32.store] in L0, L4, L8 |- *.
  rewrite L0, L4, L8.
  rewrite Z.mod_small by exact Hrange.
  rewrite Hbits, !signed_int32 by assumption.
  destruct s; reflexivity.
Qed.

(** *** From bytes to a state and back *)

Lemma Z_of_byte_range (b : byte) : 0 <= LE32.Z_of_byte b < 256.
Proof.
  unfold LE32.Z_of_byte. pose proof (Byte.to_N_bounded b). lia.
Qed.

Lemma byte_of_Z_eq (z : Z) (b : byte) :
  z mod 256 = LE32.Z_of_byte b -> LE32.byte_of_Z z = b.
Proof.
  intros H. unfold LE32.byte_of_Z. rewrite H. unfold LE32.Z_of_byte.
  rewrite N2Z.id, Byte.of_to_N. reflexivity.
Qed.

(** The four bytes of a word read from memory are the bytes it was
    read from. *)
Lemma store_word (b0 b1 b2 b3 : byte) (w : Z) :
  w mod 2 ^ 32 =
  LE32.Z_of_byte b0 + 2 ^ 8 * LE32.Z_of_byte b1 + 2 ^ 16 * LE32.Z_of_byte b2
  + 2 ^ 24 * LE32.Z_of_byte b3 ->
  LE32.store w = [b0; b1; b2; b3].
Proof.
  pose proof (Z_of_byte_range b0) as R0.
  pose proof (Z_of_byte_range b1) as R1.
  pose proof (Z_of_byte_range b2) as R2.
  pose proof (Z_of_byte_range b3) as R3.
  change (2 ^ 8) with 256. change (2 ^ 16) with 65536.
  change (2 ^ 24) with 16777216. change (2 ^ 32) with 4294967296.
  intros Hw. unfold LE32.store.
  change (2 ^ 8) with 256. change (2 ^ 16) with 65536.
  change (2 ^ 24) with 16777216.
  pose proof (Z.div_mod w 4294967296 ltac:(lia)) as Ew. rewrite Hw in Ew.
  set (q := w / 4294967296) in Ew.
  set (z0 := LE32.Z_of_byte b0) in *. set (z1 := LE32.Z_of_byte b1) in *.
  set (z2 := LE32.Z_of_byte b2) in *. set (z3 := LE32.Z_of_byte b3) in *.
  assert (H0 : w mod 256 = z0)
    by (symmetry; apply Z.mod_unique
          with (q := 16777216 * q + z1 + 256 * z2 + 65536 * z3); lia).
  assert (Q1 : w / 256 = 16777216 * q + z1 + 256 * z2 + 65536 * z3)
    by (symmetry; apply Z.div_unique with (r := z0); lia).
  assert (H1 : (w / 256) mod 256 = z1)
    by (rewrite Q1; symmetry; apply Z.mod_unique
          with (q := 65536 * q + z2 + 256 * z3); lia).
  assert (Q2 : w / 65536 = 65536 * q + z2 + 256 * z3)
    by (symmetry; apply Z.div_unique with (r := z0 + 256 * z1); lia).
  assert (H2 : (w / 65536) mod 256 = z2)
    by (rewrite Q2; symmetry; apply Z.mod_unique with (q := 256 * q + z3); lia).
  assert (Q3 : w / 16777216 = 256 * q + z3)
    by (symmetry; apply Z.div_unique with (r := z0 + 256 * z1 + 65536 * z2);
        lia).
  assert (H3 : (w / 16777216) mod 256 = z3)
    by (rewrite Q3; symmetry; apply Z.mod_unique with (q := q); lia).
  rewrite (byte_of_Z_eq _ b0 H0), (byte_of_Z_eq _ b1 H1),
    (byte_of_Z_eq _ b2 H2), (byte_of_Z_eq _ b3 H3).
  reflexivity.
Qed.

Lemma load_range (buf : list byte) (off : nat) :
  0 <= LE32.load buf off < 2 ^ 32.
Proof.
  unfold LE32.load.
  pose proof (Z_of_byte_range (nth off buf Byte.x00)).
  pose proof (Z_of_byte_range (nth (off + 1) buf Byte.x00)).
  pose proof (Z_of_byte_range (nth (off + 2) buf Byte.x00)).
  pose proof (Z_of_byte_range (nth (off + 3) buf Byte.x00)).
  change (2 ^ 8) with 256. change (2 ^ 16) with 65536.
  change (2 ^ 24) with 16777216. change (2 ^ 32) with 4294967296. lia.
Qed.

Lemma signed_mod (u : Z) :
  0 <= u < 2 ^ 32 -> LE32.signed u mod 2 ^ 32 = u.
Proof.
  unfold LE32.signed. change (2 ^ 31) with 2147483648.
  change (2 ^ 32) with 4294967296. intros H.
  destruct (Z.ltb_spec u 2147483648).
  - apply Z.mod_small. lia.
  - symmetry. apply Z.mod_unique with (q := -1); lia.
Qed.

(** Every 32-bit word is the image of the float it is read as. *)
Lemma word_of_bits (w : Z) :
  0 <= w < 2 ^ 32 -> F32.bits (F32.of_bits w) = w.
Proof.
  change (2 ^ 32) with 4294967296. intros Hw.
  unfold F32.of_bits.
  change (2 ^ 23) with 8388608. change (2 ^ 31) with 2147483648.
  pose proof (Z.div_mod w 8388608 ltac:(lia)) as E1.
  pose proof (Z.mod_pos_bound w 8388608 ltac:(lia)) as B1.
  pose proof (Z.div_mod (w / 8388608) 256 ltac:(lia)) as E2.
  pose proof (Z.mod_pos_bound (w / 8388608) 256 ltac:(lia)) as B2.
  set (frac := w mod 8388608) in *.
  set (biased := (w / 8388608) mod 256) in *.
  set (hi := w / 8388608 / 256) in *.
  assert (Hhi : 0 <= hi <= 1) by lia.
  assert (Hs : F32.sign_bit (2147483648 <=? w) = hi * 2147483648).
  { unfold F32.sign_bit. change (2 ^ 31) with 2147483648.
    destruct (Z.leb_spec 2147483648 w); lia. }
  destruct (Z.eqb_spec biased 0) as [Hb0 | Hb0].
  - destruct frac as [| m | m] eqn:Ef; [| |lia];
      unfold F32.bits; rewrite Hs; change (2 ^ 23) with 8388608.
    + lia.
    + destruct (Z.leb_spec 8388608 (Zpos m)); lia.
  - destruct (Z.eqb_spec biased 255) as [Hb1 | Hb1].
    + destruct frac as [| p | p] eqn:Ef; [| |lia];
        unfold F32.bits; rewrite Hs; change (2 ^ 23) with 8388608; lia.
    + destruct (frac + 8388608) as [| m | m] eqn:Ef; [lia| |lia].
      unfold F32.bits. rewrite Hs. change (2 ^ 23) with 8388608.
      destruct (Z.leb_spec 8388608 (Zpos m)); lia.
Qed.

(** The bytes of a state read from twelve bytes are those bytes. *)
Lemma SavedState_bytes_of_bytes (buf : list byte) :
  List.length buf = 12%nat -> SavedState_bytes (SavedState_of_bytes buf) = buf.
Proof.
  intros Hlen.
  do 12 (destruct buf as [|? buf]; [discriminate|]).
  destruct buf; [|discriminate]. clear Hlen.
  unfold SavedState_bytes, SavedState_of_bytes. cbn [angle x y].
  rewrite word_of_bits by apply load_range.
  rewrite (store_word b b0 b1 b2), (store_word b3 b4 b5 b6),
    (store_word b7 b8 b9 b10); [reflexivity | | |].
  - rewrite signed_mod by apply load_range. reflexivity.
  - rewrite signed_mod by apply load_range. reflexivity.
  - rewrite Z.mod_small by apply load_range. reflexivity.
Qed.

Lemma finite_valid (s : bool) (m : positive) (e : Z) :
  (2 ^ 23 <= Zpos m < 2 ^ 24 /\ -149 <= e <= 104) \/
  (Zpos m < 2 ^ 23 /\ e = -149) ->
  F32.valid (F32.Finite s m e) = true.
Proof.
  unfold F32.valid, F32.val, valid_binary, bounded, canonical_mantissa, fexp,
    emin, F32.prec, F32.emax.
  pose proof (digits2_pos_bounds m) as [Hlo Hhi].
  assert (Hd0 : 0 < Zpos (digits2_pos m)) by lia.
  intros [[Hm He] | [Hm He]]; apply andb_true_intro; split;
    try (apply Z.leb_le; lia); apply Z.eqb_eq.
  - assert (23 < Zpos (digits2_pos m))
      by (apply (Z.pow_lt_mono_r_iff 2); lia).
    assert (Zpos (digits2_pos m) - 1 < 24)
      by (apply (Z.pow_lt_mono_r_iff 2); lia).
    lia.
  - assert (Zpos (digits2_pos m) - 1 < 23)
      by (apply (Z.pow_lt_mono_r_iff 2); lia).
    lia.
Qed.

(** Every 32-bit word encodes a [float]. *)
Lemma of_bits_valid (w : Z) :
  0 <= w < 2 ^ 32 -> F32.valid (F32.of_bits w) = true.
Proof.
  change (2 ^ 32) with 4294967296. intros Hw.
  unfold F32.of_bits.
  pose proof (Z.mod_pos_bound w (2 ^ 23) ltac:(lia)) as B1.
  pose proof (Z.mod_pos_bound (w / 2 ^ 23) 256 ltac:(lia)) as B2.
  set (frac := w mod 2 ^ 23) in *.
  set (biased := (w / 2 ^ 23) mod 256) in *.
  destruct (Z.eqb_spec biased 0) as [Hb0 | Hb0].
  - destruct frac as [| m | m] eqn:Ef; [reflexivity | | reflexivity].
    apply finite_valid. right. lia.
  - destruct (Z.eqb_spec biased 255) as [Hb1 | Hb1].
    + destruct frac as [| p | p] eqn:Ef; [reflexivity | | reflexivity].
      cbn [F32.valid]. apply Z.ltb_lt. lia.
    + destruct (frac + 2 ^ 23) as [| m | m] eqn:Ef;
        [reflexivity | | reflexivity].
      apply finite_valid. left. change (2 ^ 24) with (2 * 2 ^ 23). lia.
Qed.

Lemma signed_is_int32 (u : Z) :
  0 <= u < 2 ^ 32 -> int32 (LE32.signed u) = true.
Proof.
  unfold int32, F32.INT32_MIN, F32.INT32_MAX, LE32.signed.
  change (2 ^ 31) with 2147483648. change (2 ^ 32) with 4294967296.
  intros H. apply andb_true_intro.
  destruct (Z.ltb_spec u 2147483648); split; apply Z.leb_le; lia.
Qed.

(** Whatever the bytes, what is read from them is a state a
    [SavedState] object can be in. *)
Lemma SavedState_of_bytes_wf (buf : list byte) :
  SavedState_wf (SavedState_of_bytes buf) = true.
Proof.
  unfold SavedState_wf, SavedState_of_bytes. cbn [angle x y].
  rewrite of_bits_valid, !signed_is_int32 by apply load_range. reflexivity.
Qed.

Lemma SavedState_bytes_length (s : SavedState) :
  Z.of_nat (List.length (SavedState_bytes s)) = sizeof_SavedState.
Proof. reflexivity. Qed.

End Memory.

(** ** Float arithmetic of the animation step *)

Section FloatFacts.

Variables prec emax : Z.

Lemma shr_1_nonneg (mrs : shr_record) :
  0 <= shr_m mrs -> 0 <= shr_m (shr_1 mrs).
Proof.
  destruct mrs as [m r s]. cbn [shr_m].
  destruct m as [| p | p]; [cbn; lia | | lia].
  intros _. destruct p; cbn; lia.
Qed.

Lemma iter_shr_1_nonneg (p : positive) :
  forall mrs, 0 <= shr_m mrs -> 0 <= shr_m (iter_pos shr_1 p mrs).
Proof.
  induction p as [p IH | p IH |]; intros mrs H; cbn [iter_pos].
  - apply IH, IH, shr_1_nonneg, H.
  - apply IH, IH, H.
  - apply shr_1_nonneg, H.
Qed.

Lemma shr_fexp_nonneg (m e : Z) (l : location) :
  0 <= m -> 0 <= shr_m (fst (shr_fexp prec emax m e l)).
Proof.
  intros H. unfold shr_fexp, shr.
  assert (H0 : 0 <= shr_m (shr_record_of_loc m l))
    by (destruct l as [| []]; exact H).
  destruct (fexp prec emax (Zdigits2 m + e) - e); cbn [fst]; auto.
  apply iter_shr_1_nonneg, H0.
Qed.

Lemma round_nearest_even_nonneg (m : Z) (l : location) :
  0 <= m -> 0 <= round_nearest_even m l.
Proof.
  intros H. destruct l as [| []]; cbn [round_nearest_even]; try lia.
  destruct (Z.even m); lia.
Qed.

(** Rounding a non-negative significand with a positive sign gives a
    non-negative number: never NaN, never a negative result. *)
Lemma binary_round_aux_nonneg (m e : Z) (l : location) :
  0 <= m -> nonneg (binary_round_aux prec emax false m e l) = true.
Proof.
  intros H. unfold binary_round_aux.
  pose proof (shr_fexp_nonneg m e l H) as H1.
  destruct (shr_fexp prec emax m e l) as [mrs' e'] eqn:E1. cbn [fst] in H1.
  pose proof (shr_fexp_nonneg _ e' loc_Exact
                (round_nearest_even_nonneg _ (loc_of_shr_record mrs') H1)) as H2.
  destruct (shr_fexp prec emax _ e' loc_Exact) as [mrs'' e''] eqn:E2.
  cbn [fst] in H2.
  destruct (shr_m mrs'') as [| q | q]; [reflexivity | | lia].
  destruct (e'' <=? emax - prec); reflexivity.
Qed.

Lemma SFadd_nonneg (m1 m2 : positive) (e1 e2 : Z) :
  nonneg (SFadd prec emax (S754_finite false m1 e1) (S754_finite false m2 e2))
  = true.
Proof.
  cbn [SFadd cond_Zopp]. rewrite <- Pos2Z.inj_add.
  cbn [binary_normalize]. unfold binary_round.
  destruct (shl_align _ _ _) as [mz ez].
  apply binary_round_aux_nonneg. lia.
Qed.

Lemma SFcompare_pos_antisym (m1 m2 : positive) (e1 e2 : Z) :
  SFcompare (S754_finite false m2 e2) (S754_finite false m1 e1) =
  option_map CompOpp
    (SFcompare (S754_finite false m1 e1) (S754_finite false m2 e2)).
Proof.
  cbn [SFcompare option_map]. f_equal.
  rewrite (Z.compare_antisym e1 e2).
  destruct (e1 ?= e2); cbn [CompOpp]; try reflexivity.
  rewrite (Pos.compare_cont_antisym m1 m2 Eq). reflexivity.
Qed.

End FloatFacts.

(** The wrap test keeps an angle of [0, 1] in [0, 1]. *)
Lemma val_of_val (v : spec_float) : F32.val (F32.of_val v) = v.
Proof. destruct v; reflexivity. Qed.

Lemma step_in_unit (a : F32.float) :
  in_unit a = true ->
  let a1 := F32.add a F32.lit_0_01 in
  in_unit (if F32.gt a1 (F32.of_int 1) then F32.of_int 0 else a1) = true.
Proof.
  unfold in_unit, F32.le, F32.gt. intros H.
  apply andb_prop in H as [H0 H1].
  change (F32.of_int 0) with (F32.Zero false) in *.
  change (F32.of_int 1) with (F32.Finite false 8388608 (-23)) in *.
  destruct a as [s | s | s p | s m e]; cbn [F32.val] in *; try discriminate.
  - destruct s; reflexivity.
  - destruct s; discriminate.
  - destruct s; [discriminate|].
    cbv zeta. unfold F32.lit_0_01. cbn [F32.add F32.val].
    rewrite val_of_val.
    pose proof (SFadd_nonneg F32.prec F32.emax m 10737418 e (-30)) as Hn.
    destruct (SFadd F32.prec F32.emax (S754_finite false m e)
                (S754_finite false 10737418 (-30))) as [s' | s' | | s' m' e'];
      try discriminate.
    + destruct s'; [discriminate | reflexivity].
    + destruct s'; [discriminate | reflexivity].
    + destruct s'; [discriminate|].
      unfold SFltb, SFleb.
      rewrite (SFcompare_pos_antisym m' 8388608 e' (-23)).
      assert (exists k, SFcompare (S754_finite false m' e')
                          (S754_finite false 8388608 (-23)) = Some k)
        as [k E] by (cbn [SFcompare]; eexists; reflexivity).
      rewrite E. cbn [option_map].
      destruct k; cbn [CompOpp F32.of_val F32.val]; cbv iota;
        cbn [F32.val]; rewrite ?E; reflexivity.
Qed.

(** ** Computations and their logs *)

Section EffFacts.

Context {A B : Type}.

Lemma result_bind (m : Eff A) (k : A -> Eff B) :
  result (bind m k) =
  match result m with Ok a => result (k a) | Abort => Abort end.
Proof. unfold bind. destruct (result m); reflexivity. Qed.

Lemma trace_bind (m : Eff A) (k : A -> Eff B) :
  trace (bind m k) =
  match result m with Ok a => trace m ++ trace (k a) | Abort => trace m end.
Proof. unfold bind. destruct (result m); reflexivity. Qed.

Lemma result_ret (a : A) : result (ret a) = Ok a.
Proof. reflexivity. Qed.

Lemma trace_ret (a : A) : trace (ret a) = [].
Proof. reflexivity. Qed.

Lemma eff_eta (m : Eff A) : m = (result m, trace m).
Proof. destruct m; reflexivity. Qed.

Lemma eff_inv (m : Eff A) (r : Res A) (t : list Call) :
  m = (r, t) -> result m = r /\ trace m = t.
Proof. intros ->. split; reflexivity. Qed.

End EffFacts.

Lemma result_call (k : Call) : result (call k) = Ok tt.
Proof. reflexivity. Qed.

Lemma trace_call (k : Call) : trace (call k) = [k].
Proof. reflexivity. Qed.

Lemma result_cassert (b : bool) :
  result (cassert b) = if b then Ok tt else Abort.
Proof. destruct b; reflexivity. Qed.

Lemma trace_cassert (b : bool) : trace (cassert b) = [].
Proof. destruct b; reflexivity. Qed.

Create Rewrite HintDb eff.
#[local] Hint Rewrite @result_bind @trace_bind @result_ret @trace_ret
  result_call trace_call result_cassert trace_cassert : eff.

(** Rewrite a computation into its result and log, then reduce the
    matches on known results. *)
Ltac eff := autorewrite with eff; cbv beta iota.

(** ** The engine's methods *)

Lemma frames_app (t1 t2 : list Call) :
  frames (t1 ++ t2) = (frames t1 + frames t2)%nat.
Proof. unfold frames. rewrite filter_app, length_app. reflexivity. Qed.

Lemma releases_app (t1 t2 : list Call) :
  releases (t1 ++ t2) = (releases t1 + releases t2)%nat.
Proof. unfold releases. rewrite filter_app, length_app. reflexivity. Qed.

Lemma poll_timeouts_app (t1 t2 : list Call) :
  poll_timeouts (t1 ++ t2) = poll_timeouts t1 ++ poll_timeouts t2.
Proof.
  induction t1 as [|k t1 IH]; [reflexivity|].
  destruct k; cbn [List.app poll_timeouts]; rewrite IH; reflexivity.
Qed.

(** *** drawFrame *)

Lemma drawFrame_result (c : Context) : result (drawFrame c) = Ok tt.
Proof. unfold drawFrame. destruct (display c =? nullptr); reflexivity. Qed.

#[local] Hint Rewrite drawFrame_result : eff.

Lemma drawFrame_frames (c : Context) :
  frames (trace (drawFrame c)) = if display c =? nullptr then 0%nat else 1%nat.
Proof. unfold drawFrame. destruct (display c =? nullptr); reflexivity. Qed.

(** *** termDisplay *)

Lemma termDisplay_result (c : Context) :
  result (termDisplay c) =
  Ok (mkContext (app c) (sensorManager c) (accelerometerSensor c)
        (sensorEventQueue c) 0 EGL_NO_DISPLAY EGL_NO_SURFACE EGL_NO_CONTEXT
        (width c) (height c) (state c)).
Proof.
  unfold termDisplay.
  destruct (display c =? EGL_NO_DISPLAY), (context c =? EGL_NO_CONTEXT),
    (surface c =? EGL_NO_SURFACE); reflexivity.
Qed.

Lemma termDisplay_trace_invalid (c : Context) :
  display c = EGL_NO_DISPLAY -> trace (termDisplay c) = [].
Proof. unfold termDisplay. intros ->. reflexivity. Qed.

Lemma termDisplay_frames (c : Context) : frames (trace (termDisplay c)) = 0%nat.
Proof.
  unfold termDisplay.
  destruct (display c =? EGL_NO_DISPLAY), (context c =? EGL_NO_CONTEXT),
    (surface c =? EGL_NO_SURFACE); reflexivity.
Qed.

Lemma termDisplay_releases (c : Context) :
  releases (trace (termDisplay c)) =
  if display c =? EGL_NO_DISPLAY then 0%nat else 1%nat.
Proof.
  unfold termDisplay.
  destruct (display c =? EGL_NO_DISPLAY), (context c =? EGL_NO_CONTEXT),
    (surface c =? EGL_NO_SURFACE); reflexivity.
Qed.

(** *** initDisplay *)

Lemma config_matches_result (egl : EGL) (dpy cfg : Z) :
  exists b, result (config_matches egl dpy cfg) = Ok b.
Proof.
  unfold config_matches. eff.
  repeat (match goal with
          | |- context [match ?o with Some _ => _ | None => _ end] =>
              destruct o
          end; eff);
    eexists; reflexivity.
Qed.

Lemma find_config_result (egl : EGL) (dpy : Z) (cfgs : list Z) :
  exists o, result (find_config egl dpy cfgs) = Ok o.
Proof.
  induction cfgs as [|cfg rest IH]; cbn [find_config].
  - eexists; reflexivity.
  - rewrite result_bind.
    destruct (config_matches_result egl dpy cfg) as [b ->].
    destruct b; [eexists; reflexivity | exact IH].
Qed.

(** The two ways [initDisplay] returns: -1 with the engine untouched,
    or 0 with the handles of a configuration for which
    [eglMakeCurrent] answered true. *)
Lemma config_matches_test (egl : EGL) (dpy cfg : Z) :
  result (config_matches egl dpy cfg) = Ok (rgb888_no_depth egl dpy cfg).
Proof.
  unfold config_matches, rgb888_no_depth. eff.
  destruct (egl_getConfigAttrib egl dpy cfg EGL_RED_SIZE); [|reflexivity]. eff.
  destruct (egl_getConfigAttrib egl dpy cfg EGL_GREEN_SIZE); [|reflexivity]. eff.
  destruct (egl_getConfigAttrib egl dpy cfg EGL_BLUE_SIZE); [|reflexivity]. eff.
  destruct (egl_getConfigAttrib egl dpy cfg EGL_DEPTH_SIZE); reflexivity.
Qed.

Lemma find_config_preferred (egl : EGL) (dpy : Z) (cfgs : list Z) :
  result (find_config egl dpy cfgs) = Ok (find (rgb888_no_depth egl dpy) cfgs).
Proof.
  induction cfgs as [|cfg rest IH]; [reflexivity|].
  cbn [find_config find]. rewrite result_bind, config_matches_test.
  destruct (rgb888_no_depth egl dpy cfg); [reflexivity | exact IH].
Qed.

Lemma initDisplay_result (egl : EGL) (c : Context) (rc : Z * Context) :
  result (initDisplay egl c) = Ok rc ->
  rc = (-1, c) \/
  exists config,
    config <> nullptr /\
    let dpy := egl_getDisplay egl EGL_DEFAULT_DISPLAY in
    let surf := egl_createWindowSurface egl dpy config (window (app c)) in
    let cx := egl_createContext egl dpy config in
    egl_makeCurrent egl dpy surf surf cx = true /\
    rc = (0, mkContext (app c) (sensorManager c) (accelerometerSensor c)
               (sensorEventQueue c) (animating c) dpy surf cx
               (egl_querySurface egl dpy surf EGL_WIDTH)
               (egl_querySurface egl dpy surf EGL_HEIGHT)
               (mkSavedState (F32.Zero false) (x (state c)) (y (state c)))).
Proof.
  unfold initDisplay. eff.
  destruct (negb _); [|discriminate].
  destruct (find_config_result egl (egl_getDisplay egl EGL_DEFAULT_DISPLAY)
              (egl_chooseConfig egl (egl_getDisplay egl EGL_DEFAULT_DISPLAY)
                 attr))
    as [found ->].
  set (config := match found with Some cfg => cfg | None => _ end).
  destruct (Z.eqb_spec config nullptr) as [|Hcfg]; eff.
  - intros [= <-]. left; reflexivity.
  - destruct (egl_makeCurrent _ _ _ _ _) eqn:Hmc; cbn [negb]; eff.
    + intros [= <-]. right. exists config. cbv zeta.
      repeat split; assumption.
    + intros [= <-]. left; reflexivity.
Qed.

(** What [initDisplay] never touches, whichever way it returns. *)
Lemma initDisplay_frame (egl : EGL) (c : Context) (rc : Z * Context) :
  result (initDisplay egl c) = Ok rc ->
  app (snd rc) = app c /\ animating (snd rc) = animating c /\
  accelerometerSensor (snd rc) = accelerometerSensor c /\
  sensorEventQueue (snd rc) = sensorEventQueue c /\
  x (state (snd rc)) = x (state c) /\ y (state (snd rc)) = y (state c).
Proof.
  intros H. apply initDisplay_result in H as [-> | (cfg & _ & _ & ->)];
    cbn; repeat split; reflexivity.
Qed.

Lemma onInitWindow_frame (egl : EGL) (c c' : Context) :
  result (onInitWindow egl c) = Ok c' ->
  app c' = app c /\ animating c' = animating c /\
  accelerometerSensor c' = accelerometerSensor c /\
  sensorEventQueue c' = sensorEventQueue c /\
  x (state c') = x (state c) /\ y (state c') = y (state c).
Proof.
  unfold onInitWindow.
  destruct (negb (window (app c) =? nullptr)); eff.
  - destruct (result (initDisplay egl c)) as [rc|] eqn:E; [|discriminate].
    eff. intros [= <-].
    apply (initDisplay_frame egl c rc E).
  - intros [= <-]. repeat split; reflexivity.
Qed.

(** *** onInputEvent, onSaveState, onFocus, animate *)

Lemma onInputEvent_result (event : AInputEvent) (c : Context) :
  onInputEvent event c =
  if AInputEvent_getType event =? AINPUT_EVENT_TYPE_MOTION
  then (Ok (1, mkContext (app c) (sensorManager c) (accelerometerSensor c)
                 (sensorEventQueue c) 1 (display c) (surface c) (context c)
                 (width c) (height c)
                 (mkSavedState (angle (state c))
                    (F32.to_int (AMotionEvent_getX event))
                    (F32.to_int (AMotionEvent_getY event)))), [])
  else (Ok (0, c), []).
Proof.
  unfold onInputEvent.
  destruct (AInputEvent_getType event =? AINPUT_EVENT_TYPE_MOTION);
    reflexivity.
Qed.

Lemma onSaveState_result (c : Context) :
  onSaveState c =
  (Ok (mkContext
         (mk_android_app (window (app c))
            (Some (SavedState_bytes (state c))) sizeof_SavedState
            (destroyRequested (app c)))
         (sensorManager c) (accelerometerSensor c) (sensorEventQueue c)
         (animating c) (display c) (surface c) (context c) (width c)
         (height c) (state c)),
   [malloc sizeof_SavedState]).
Proof. reflexivity. Qed.

Lemma onFocus_gained (c : Context) :
  onFocus true c =
  (Ok c,
   if accelerometerSensor c =? nullptr then []
   else [ASensorEventQueue_enableSensor (sensorEventQueue c)
           (accelerometerSensor c);
         ASensorEventQueue_setEventRate (sensorEventQueue c)
           (accelerometerSensor c) 16000]).
Proof.
  unfold onFocus. destruct (accelerometerSensor c =? nullptr); reflexivity.
Qed.

Lemma onFocus_lost_result (c : Context) :
  result (onFocus false c) = Ok (set_animating 0 c).
Proof.
  unfold onFocus. eff.
  destruct (negb (accelerometerSensor c =? nullptr)); eff; reflexivity.
Qed.

Lemma animate_idle (c : Context) :
  isAnimating c = false -> animate c = (Ok c, []).
Proof. unfold animate. intros ->. reflexivity. Qed.

Lemma animate_step (c : Context) :
  isAnimating c = true ->
  let a1 := F32.add (angle (state c)) F32.lit_0_01 in
  let c' := set_state
              (set_angle (if F32.gt a1 (F32.of_int 1) then F32.of_int 0 else a1)
                 (state c)) c in
  animate c = (Ok c', trace (drawFrame c')).
Proof.
  unfold animate. intros ->. cbv zeta.
  cbn [angle state set_state set_angle].
  destruct (F32.gt _ _); rewrite (eff_eta (bind _ _)); eff;
    rewrite app_nil_r; reflexivity.
Qed.

(** ** Polls in the log *)

Lemma poll_bind {A B} (m : Eff A) (k : A -> Eff B) :
  poll_timeouts (trace m) = [] ->
  (forall a, poll_timeouts (trace (k a)) = []) ->
  poll_timeouts (trace (bind m k)) = [].
Proof.
  intros Hm Hk. rewrite trace_bind.
  destruct (result m); [|exact Hm].
  rewrite poll_timeouts_app, Hm, Hk. reflexivity.
Qed.

Lemma poll_cassert (b : bool) : poll_timeouts (trace (cassert b)) = [].
Proof. rewrite trace_cassert. reflexivity. Qed.

Create HintDb quiet.
#[local] Hint Resolve poll_cassert : quiet.

(** Decompose a computation along its binds and branches; what is left
    are single calls other than the poll, and computations already known
    to issue none. *)
Ltac quiet :=
  cbv zeta;
  repeat first
    [ apply poll_bind; [| intro]
    | match goal with
      | |- poll_timeouts (trace (if ?b then _ else _)) = [] => destruct b
      | |- poll_timeouts (trace (match ?o with Some _ => _ | None => _ end)) = [] =>
          destruct o
      end
    | progress cbv zeta ];
  try reflexivity; auto with quiet.

Lemma drawFrame_quiet (c : Context) : poll_timeouts (trace (drawFrame c)) = [].
Proof. unfold drawFrame. quiet. Qed.
#[local] Hint Resolve drawFrame_quiet : quiet.

Lemma termDisplay_quiet (c : Context) :
  poll_timeouts (trace (termDisplay c)) = [].
Proof. unfold termDisplay. quiet. Qed.
#[local] Hint Resolve termDisplay_quiet : quiet.

Lemma config_matches_quiet (egl : EGL) (dpy cfg : Z) :
  poll_timeouts (trace (config_matches egl dpy cfg)) = [].
Proof. unfold config_matches. quiet. Qed.
#[local] Hint Resolve config_matches_quiet : quiet.

Lemma find_config_quiet (egl : EGL) (dpy : Z) (cfgs : list Z) :
  poll_timeouts (trace (find_config egl dpy cfgs)) = [].
Proof. induction cfgs; cbn [find_config]; quiet. Qed.
#[local] Hint Resolve find_config_quiet : quiet.

Lemma initDisplay_quiet (egl : EGL) (c : Context) :
  poll_timeouts (trace (initDisplay egl c)) = [].
Proof. unfold initDisplay. quiet. Qed.
#[local] Hint Resolve initDisplay_quiet : quiet.

Lemma onAppCmd_quiet (egl : EGL) (cmd : AppCmd) (c : Context) :
  poll_timeouts (trace (onAppCmd egl cmd c)) = [].
Proof.
  destruct cmd; cbn [onAppCmd];
    unfold onSaveState, onInitWindow, onTermWindow, onFocus; quiet.
Qed.
#[local] Hint Resolve onAppCmd_quiet : quiet.

Lemma host_step_quiet (egl : EGL) (a : HostAction) (c : Context) :
  poll_timeouts (trace (host_step egl a c)) = [].
Proof. destruct a; cbn [host_step]; unfold onInputEvent; quiet. Qed.
#[local] Hint Resolve host_step_quiet : quiet.

Lemma process_quiet (egl : EGL) (acts : list HostAction) :
  forall c, poll_timeouts (trace (process egl acts c)) = [].
Proof. induction acts; intros c; cbn [process]; quiet. Qed.
#[local] Hint Resolve process_quiet : quiet.

Lemma drain_events_quiet (queue : Z) (pending : list ASensorEvent) :
  poll_timeouts (trace (drain_events queue pending)) = [].
Proof. induction pending; cbn [drain_events]; quiet. Qed.
#[local] Hint Resolve drain_events_quiet : quiet.

Lemma processSensorEvents_quiet (pending : list ASensorEvent) (c : Context) :
  poll_timeouts (trace (processSensorEvents pending c)) = [].
Proof. unfold processSensorEvents. quiet. Qed.
#[local] Hint Resolve processSensorEvents_quiet : quiet.

Lemma handle_event_quiet (p : PollResult) (c : Context) :
  poll_timeouts (trace (handle_event p c)) = [].
Proof. unfold handle_event. quiet. Qed.
#[local] Hint Resolve handle_event_quiet : quiet.

Lemma animate_quiet (c : Context) : poll_timeouts (trace (animate c)) = [].
Proof. unfold animate. quiet. Qed.
#[local] Hint Resolve animate_quiet : quiet.

(** An iteration issues exactly one poll, its first call. *)
Lemma iteration_polls (p : PollResult) (c : Context) :
  poll_timeouts (trace (iteration p c)) = [if isAnimating c then 0 else -1].
Proof.
  unfold iteration. rewrite trace_bind, result_call, trace_call.
  cbn [List.app poll_timeouts]. f_equal. quiet.
Qed.

(** ** The animating flag along the loop *)

Lemma acquire_cases (sens : Sensors) :
  acquireASensorManagerInstance sens =
  match getInstanceForPackageFunc sens, getInstanceFunc sens with
  | Some mgr, Some mgr' => (Ok (if mgr =? nullptr then mgr' else mgr), [])
  | Some mgr, None => if mgr =? nullptr then (Abort, []) else (Ok mgr, [])
  | None, Some mgr' => (Ok mgr', [])
  | None, None => (Abort, [])
  end.
Proof.
  unfold acquireASensorManagerInstance.
  destruct (getInstanceForPackageFunc sens) as [mgr|],
    (getInstanceFunc sens) as [mgr'|];
    try destruct (mgr =? nullptr); reflexivity.
Qed.

Lemma init_result (sens : Sensors) (st : android_app) :
  result (init sens st) =
  match result (acquireASensorManagerInstance sens) with
  | Ok mgr =>
      Ok (mkContext st mgr
            (sens_getDefaultSensor sens mgr ASENSOR_TYPE_ACCELEROMETER)
            (sens_createEventQueue sens mgr LOOPER_ID_USER) 0
            EGL_NO_DISPLAY EGL_NO_SURFACE EGL_NO_CONTEXT 0 0
            (match savedState st with
             | Some buf => SavedState_of_bytes buf
             | None => mkSavedState (F32.Zero false) 0 0
             end))
  | Abort => Abort
  end.
Proof.
  unfold init. eff.
  destruct (result (acquireASensorManagerInstance sens)); [|reflexivity].
  destruct (savedState st); reflexivity.
Qed.

Lemma onAppCmd_animating (egl : EGL) (cmd : AppCmd) (c c' : Context) :
  result (onAppCmd egl cmd c) = Ok c' -> animating c = 0 -> animating c' = 0.
Proof.
  intros H H0.
  destruct cmd; cbn [onAppCmd] in H;
    try (injection H as <-; exact H0).
  - apply onInitWindow_frame in H. destruct H as (_ & -> & _). exact H0.
  - unfold onTermWindow in H. rewrite termDisplay_result in H.
    injection H as <-. reflexivity.
  - rewrite onFocus_gained in H. injection H as <-. exact H0.
  - rewrite onFocus_lost_result in H. injection H as <-. reflexivity.
Qed.

Lemma host_step_animating (egl : EGL) (a : HostAction) (c c' : Context) :
  result (host_step egl a c) = Ok c' ->
  is_motion a = false -> animating c = 0 -> animating c' = 0.
Proof.
  intros H Hm H0.
  destruct a as [w | | v | cmd | event]; cbn [host_step] in H;
    try (injection H as <-; exact H0).
  - eapply onAppCmd_animating; eassumption.
  - cbn [is_motion] in Hm. rewrite result_bind, onInputEvent_result, Hm in H.
    injection H as <-. exact H0.
Qed.

Lemma process_animating (egl : EGL) (acts : list HostAction) :
  forall c c', result (process egl acts c) = Ok c' ->
               existsb is_motion acts = false ->
               animating c = 0 -> animating c' = 0.
Proof.
  induction acts as [|a rest IH]; intros c c' H Hm H0; cbn [process] in H.
  - injection H as <-. exact H0.
  - cbn [existsb] in Hm. apply orb_false_elim in Hm as [Ha Hrest].
    rewrite result_bind in H.
    destruct (result (host_step egl a c)) as [c1|] eqn:E; [|discriminate].
    apply (IH c1 c' H Hrest).
    eapply host_step_animating; eassumption.
Qed.

Lemma drain_events_result (queue : Z) (pending : list ASensorEvent) :
  result (drain_events queue pending) = Ok tt.
Proof.
  induction pending as [|ev rest IH]; cbn [drain_events]; eff;
    [reflexivity | exact IH].
Qed.

Lemma processSensorEvents_result (pending : list ASensorEvent) (c : Context) :
  result (processSensorEvents pending c) = Ok tt.
Proof.
  unfold processSensorEvents.
  destruct (negb _); [apply drain_events_result | reflexivity].
Qed.

(** Handling an event changes the engine only through [process]. *)
Lemma handle_event_result (p : PollResult) (c : Context) :
  result (handle_event p c) =
  match source p with
  | Some acts => result (process (egl_now p) acts c)
  | None => Ok c
  end.
Proof.
  unfold handle_event. rewrite result_bind.
  destruct (source p) as [acts|].
  - destruct (result (process (egl_now p) acts c)); [|reflexivity].
    eff. destruct (ident p =? LOOPER_ID_USER);
      rewrite ?processSensorEvents_result; reflexivity.
  - eff. destruct (ident p =? LOOPER_ID_USER);
      rewrite ?processSensorEvents_result; reflexivity.
Qed.

Lemma animate_result (c : Context) :
  exists c', result (animate c) = Ok c' /\ animating c' = animating c.
Proof.
  destruct (isAnimating c) eqn:E.
  - rewrite (animate_step c E). eexists; split; reflexivity.
  - rewrite (animate_idle c E). eexists; split; reflexivity.
Qed.

(** The iteration that meets a destroy request: the poll, the handling
    of the event, one [termDisplay], and the return. *)
Lemma iteration_destroy (p : PollResult) (c c1 : Context) :
  0 <= ident p ->
  result (handle_event p c) = Ok c1 ->
  destroyRequested (app c1) <> 0 ->
  iteration p c =
  (Ok (Return (mkContext (app c1) (sensorManager c1) (accelerometerSensor c1)
                 (sensorEventQueue c1) 0 EGL_NO_DISPLAY EGL_NO_SURFACE
                 EGL_NO_CONTEXT (width c1) (height c1) (state c1))),
   ALooper_pollAll (if isAnimating c then 0 else -1)
   :: trace (handle_event p c) ++ trace (termDisplay c1)).
Proof.
  intros Hid Hev Hd. unfold iteration.
  rewrite (eff_eta (bind _ _)). eff.
  destruct (Z.leb_spec 0 (ident p)); [|lia]. eff. rewrite Hev.
  destruct (Z.eqb_spec (destroyRequested (app c1)) 0); [contradiction|].
  cbn [negb]. eff. rewrite termDisplay_result. eff.
  rewrite app_nil_r. reflexivity.
Qed.

Lemma iteration_continue (p : PollResult) (c c1 : Context) :
  0 <= ident p ->
  result (handle_event p c) = Ok c1 ->
  destroyRequested (app c1) = 0 ->
  result (iteration p c) = Ok (Continue c1).
Proof.
  intros Hid Hev Hd. unfold iteration. eff.
  destruct (Z.leb_spec 0 (ident p)); [|lia]. eff. rewrite Hev, Hd.
  reflexivity.
Qed.

Lemma iteration_animating (p : PollResult) (c : Context) (n : Next) :
  result (iteration p c) = Ok n ->
  routes_motion p = false -> animating c = 0 -> animating (next_ctx n) = 0.
Proof.
  unfold iteration, routes_motion. eff. intros H Hm H0.
  destruct (0 <=? ident p); cbn [andb] in Hm; eff.
  - rewrite result_bind, handle_event_result in H.
    assert (Hc1 : forall c1,
               match source p with
               | Some acts => result (process (egl_now p) acts c)
               | None => Ok c
               end = Ok c1 -> animating c1 = 0).
    { intros c1 E. destruct (source p) as [acts|].
      - eapply process_animating; eassumption.
      - injection E as <-. exact H0. }
    destruct (match source p with Some _ => _ | None => _ end) as [c1|];
      [|discriminate].
    specialize (Hc1 c1 eq_refl).
    destruct (negb _).
    + rewrite result_bind, termDisplay_result in H. injection H as <-.
      reflexivity.
    + injection H as <-. exact Hc1.
  - rewrite result_bind in H.
    destruct (animate_result c) as (c' & E & Ha). rewrite E in H.
    injection H as <-. cbn [next_ctx]. congruence.
Qed.

Lemma event_loop_animating (script : list PollResult) :
  forall c,
    animating c = 0 -> no_motion script = true ->
    Forall (fun h => animating h = 0) (loop_heads script c) /\
    forall n, result (event_loop script c) = Ok n -> animating (next_ctx n) = 0.
Proof.
  induction script as [|p rest IH]; intros c H0 Hm;
    cbn [loop_heads event_loop].
  - split; [constructor|]. intros n [= <-]. exact H0.
  - cbn [no_motion forallb] in Hm. apply andb_prop in Hm as [Hp Hrest].
    apply negb_true_iff in Hp. rewrite result_bind.
    pose proof (iteration_animating p c) as Hit.
    destruct (result (iteration p c)) as [[c1 | c1] |].
    + specialize (Hit _ eq_refl Hp H0). cbn [next_ctx] in Hit.
      destruct (IH c1 Hit Hrest) as [IH1 IH2].
      split; [constructor; assumption | exact IH2].
    + specialize (Hit _ eq_refl Hp H0).
      split; [repeat constructor; assumption|].
      intros n [= <-]. exact Hit.
    + split; [repeat constructor; assumption | discriminate].
Qed.

(** ** The calls of a log, one by one *)

Lemma forallb_bind {A B} (P : Call -> bool) (m : Eff A) (k : A -> Eff B) :
  forallb P (trace m) = true ->
  (forall a, forallb P (trace (k a)) = true) ->
  forallb P (trace (bind m k)) = true.
Proof.
  intros Hm Hk. rewrite trace_bind.
  destruct (result m); [|exact Hm].
  rewrite forallb_app, Hm, Hk. reflexivity.
Qed.

Lemma forallb_cassert (P : Call -> bool) (b : bool) :
  forallb P (trace (cassert b)) = true.
Proof. rewrite trace_cassert. reflexivity. Qed.

Create HintDb calls.
#[local] Hint Resolve forallb_cassert : calls.

(** Decompose a computation along its binds and branches, keeping the
    tests it branched on; single calls are then checked one by one. *)
Ltac each_call :=
  cbv zeta;
  repeat first
    [ solve [auto with calls]
    | apply forallb_bind; [| intro]
    | match goal with
      | |- forallb _ (trace (if ?b then _ else _)) = true => destruct b eqn:?
      | |- forallb _ (trace (match ?o with Some _ => _ | None => _ end)) = true =>
          destruct o
      end
    | progress cbv zeta ];
  try reflexivity; auto with calls.

(** ** The render target along the loop *)

Lemma target_ok_ext (c c' : Context) :
  display c' = display c -> surface c' = surface c -> context c' = context c ->
  target_ok c -> target_ok c'.
Proof.
  unfold target_ok, all_valid, all_invalid. intros -> -> ->. exact (fun H => H).
Qed.

(** *** The windows of a log *)

Lemma bind_windows_l {A B} (m : Eff A) (k : A -> Eff B) (win : Z) :
  In win (surface_windows (trace m)) ->
  In win (surface_windows (trace (bind m k))).
Proof.
  intros H. rewrite trace_bind. destruct (result m); [|exact H].
  unfold surface_windows. rewrite flat_map_app. apply in_or_app. left. exact H.
Qed.

Lemma bind_windows_r {A B} (m : Eff A) (k : A -> Eff B) (a : A) (win : Z) :
  result m = Ok a ->
  In win (surface_windows (trace (k a))) ->
  In win (surface_windows (trace (bind m k))).
Proof.
  intros E H. rewrite trace_bind, E.
  unfold surface_windows. rewrite flat_map_app. apply in_or_app. right. exact H.
Qed.

Lemma on_window_windows (t : list Call) (win : Z) :
  forallb on_window t = true -> In win (surface_windows t) -> win <> nullptr.
Proof.
  intros Ht Hin. apply in_flat_map in Hin as (k & Hk & Hw).
  rewrite forallb_forall in Ht. specialize (Ht k Hk).
  destruct k; cbn [surface_window] in Hw; try contradiction.
  destruct Hw as [<- | []]. cbn [on_window] in Ht.
  apply negb_true_iff, Z.eqb_neq in Ht. exact Ht.
Qed.

(** An [initDisplay] that returns is either a failure that changes
    nothing, or has asked a surface for the app's window under the
    preferred configuration and stored what [eglMakeCurrent] accepted. *)
Lemma initDisplay_acquires (egl : EGL) (c : Context) (rc : Z * Context) :
  result (initDisplay egl c) = Ok rc ->
  rc = (-1, c) \/
  let dpy := egl_getDisplay egl EGL_DEFAULT_DISPLAY in
  let config := preferred_config egl dpy (egl_chooseConfig egl dpy attr) in
  let surf := egl_createWindowSurface egl dpy config (window (app c)) in
  let cx := egl_createContext egl dpy config in
  config <> nullptr /\
  egl_makeCurrent egl dpy surf surf cx = true /\
  In (window (app c)) (surface_windows (trace (initDisplay egl c))) /\
  rc = (0, mkContext (app c) (sensorManager c) (accelerometerSensor c)
             (sensorEventQueue c) (animating c) dpy surf cx
             (egl_querySurface egl dpy surf EGL_WIDTH)
             (egl_querySurface egl dpy surf EGL_HEIGHT)
             (mkSavedState (F32.Zero false) (x (state c)) (y (state c)))).
Proof.
  cbv zeta. unfold initDisplay, preferred_config. eff.
  destruct (negb _); [|discriminate].
  rewrite find_config_preferred.
  set (config := match find _ _ with Some cfg => cfg | None => _ end).
  destruct (Z.eqb_spec config nullptr) as [|Hcfg]; eff.
  - intros [= <-]. left; reflexivity.
  - destruct (egl_makeCurrent _ _ _ _ _) eqn:Hmc; cbn [negb]; eff.
    + intros [= <-]. right. split; [exact Hcfg|]. split; [reflexivity|].
      split; [|reflexivity].
      apply in_flat_map.
      exists (eglCreateWindowSurface (egl_getDisplay egl EGL_DEFAULT_DISPLAY)
                config (window (app c))).
      split; [|left; reflexivity].
      cbn [List.app]. do 4 right. apply in_or_app. right.
      right. left. reflexivity.
    + intros [= <-]. left; reflexivity.
Qed.

(** *** No surface without a window *)

Lemma drawFrame_on_window (c : Context) :
  forallb on_window (trace (drawFrame c)) = true.
Proof. unfold drawFrame. each_call. Qed.
#[local] Hint Resolve drawFrame_on_window : calls.

Lemma termDisplay_on_window (c : Context) :
  forallb on_window (trace (termDisplay c)) = true.
Proof. unfold termDisplay. each_call. Qed.
#[local] Hint Resolve termDisplay_on_window : calls.

Lemma config_matches_on_window (egl : EGL) (dpy cfg : Z) :
  forallb on_window (trace (config_matches egl dpy cfg)) = true.
Proof. unfold config_matches. each_call. Qed.
#[local] Hint Resolve config_matches_on_window : calls.

Lemma find_config_on_window (egl : EGL) (dpy : Z) (cfgs : list Z) :
  forallb on_window (trace (find_config egl dpy cfgs)) = true.
Proof. induction cfgs; cbn [find_config]; each_call. Qed.
#[local] Hint Resolve find_config_on_window : calls.

Lemma initDisplay_on_window (egl : EGL) (c : Context) :
  negb (window (app c) =? nullptr) = true ->
  forallb on_window (trace (initDisplay egl c)) = true.
Proof.
  intros Hw. unfold initDisplay. each_call.
  cbn [trace call snd forallb on_window]. rewrite Hw. reflexivity.
Qed.
#[local] Hint Resolve initDisplay_on_window : calls.

Lemma onAppCmd_on_window (egl : EGL) (cmd : AppCmd) (c : Context) :
  forallb on_window (trace (onAppCmd egl cmd c)) = true.
Proof.
  destruct cmd; cbn [onAppCmd];
    unfold onSaveState, onInitWindow, onTermWindow, onFocus; each_call.
Qed.
#[local] Hint Resolve onAppCmd_on_window : calls.

Lemma host_step_on_window (egl : EGL) (a : HostAction) (c : Context) :
  forallb on_window (trace (host_step egl a c)) = true.
Proof. destruct a; cbn [host_step]; unfold onInputEvent; each_call. Qed.
#[local] Hint Resolve host_step_on_window : calls.

Lemma process_on_window (egl : EGL) (acts : list HostAction) :
  forall c, forallb on_window (trace (process egl acts c)) = true.
Proof. induction acts; intros c; cbn [process]; each_call. Qed.
#[local] Hint Resolve process_on_window : calls.

Lemma drain_events_on_window (queue : Z) (pending : list ASensorEvent) :
  forallb on_window (trace (drain_events queue pending)) = true.
Proof. induction pending; cbn [drain_events]; each_call. Qed.
#[local] Hint Resolve drain_events_on_window : calls.

Lemma processSensorEvents_on_window (pending : list ASensorEvent) (c : Context) :
  forallb on_window (trace (processSensorEvents pending c)) = true.
Proof. unfold processSensorEvents. each_call. Qed.
#[local] Hint Resolve processSensorEvents_on_window : calls.

Lemma animate_on_window (c : Context) :
  forallb on_window (trace (animate c)) = true.
Proof. unfold animate. each_call. Qed.
#[local] Hint Resolve animate_on_window : calls.

Lemma iteration_on_window (p : PollResult) (c : Context) :
  forallb on_window (trace (iteration p c)) = true.
Proof. unfold iteration, handle_event. each_call. Qed.

(** The acquisitions of a run are made with the backends of its polls,
    for windows that are there. *)
Lemma acquisitions_polls (script : list PollResult) :
  forall c a,
    In a (acquisitions script c) ->
    (exists p, In p script /\ fst a = egl_now p) /\ snd a <> nullptr.
Proof.
  induction script as [|p rest IH]; intros c a Ha; [contradiction|].
  cbn [acquisitions] in Ha. apply in_app_or in Ha as [Ha | Ha].
  - apply in_map_iff in Ha as (win & <- & Hwin). cbn [fst snd]. split.
    + exists p. split; [left|]; reflexivity.
    + exact (on_window_windows _ _ (iteration_on_window p c) Hwin).
  - destruct (result (iteration p c)) as [[c1 | c1] |]; try contradiction.
    destruct (IH c1 a Ha) as [(q & Hq & Hegl) Hwin].
    split; [|exact Hwin]. exists q. split; [right; exact Hq | exact Hegl].
Qed.

(** *** The target, operation by operation *)

Lemma onInitWindow_target (egl : EGL) (c c' : Context) :
  (forall win, In win (surface_windows (trace (onInitWindow egl c))) ->
               binds_valid egl win) ->
  result (onInitWindow egl c) = Ok c' ->
  target_ok c -> target_ok c'.
Proof.
  unfold onInitWindow. intros Hegl H Hc.
  destruct (negb (window (app c) =? nullptr)).
  - rewrite result_bind in H.
    destruct (result (initDisplay egl c)) as [rc|] eqn:E; [|discriminate].
    revert H. eff. intros [= <-].
    destruct (initDisplay_acquires _ _ _ E)
      as [-> | (Hcfg & Hmc & Hin & ->)]; [exact Hc|].
    left. apply (Hegl (window (app c))); [|exact Hcfg | exact Hmc].
    apply bind_windows_l. exact Hin.
  - injection H as <-. exact Hc.
Qed.

Lemma termDisplay_target (c c' : Context) :
  result (termDisplay c) = Ok c' -> target_ok c'.
Proof.
  rewrite termDisplay_result. intros [= <-]. right. repeat split; reflexivity.
Qed.

Lemma onAppCmd_target (egl : EGL) (cmd : AppCmd) (c c' : Context) :
  (forall win, In win (surface_windows (trace (onAppCmd egl cmd c))) ->
               binds_valid egl win) ->
  result (onAppCmd egl cmd c) = Ok c' ->
  target_ok c -> target_ok c'.
Proof.
  intros Hegl H Hc.
  destruct cmd; cbn [onAppCmd] in H, Hegl;
    try (injection H as <-; exact Hc).
  - eapply onInitWindow_target; eassumption.
  - eapply termDisplay_target; eassumption.
  - rewrite onFocus_gained in H. injection H as <-. exact Hc.
  - rewrite onFocus_lost_result in H. injection H as <-. exact Hc.
Qed.

Lemma host_step_target (egl : EGL) (a : HostAction) (c c' : Context) :
  (forall win, In win (surface_windows (trace (host_step egl a c))) ->
               binds_valid egl win) ->
  result (host_step egl a c) = Ok c' ->
  target_ok c -> target_ok c'.
Proof.
  intros Hegl H Hc.
  destruct a as [w | | v | cmd | event]; cbn [host_step] in H, Hegl;
    try (injection H as <-; exact Hc).
  - eapply onAppCmd_target; eassumption.
  - rewrite result_bind, onInputEvent_result in H.
    destruct (AInputEvent_getType event =? AINPUT_EVENT_TYPE_MOTION);
      injection H as <-; exact Hc.
Qed.

Lemma process_target (egl : EGL) (acts : list HostAction) :
  forall c c',
    (forall win, In win (surface_windows (trace (process egl acts c))) ->
                 binds_valid egl win) ->
    result (process egl acts c) = Ok c' -> target_ok c -> target_ok c'.
Proof.
  induction acts as [|a rest IH]; intros c c' Hegl H Hc;
    cbn [process] in H, Hegl.
  - injection H as <-. exact Hc.
  - rewrite result_bind in H.
    destruct (result (host_step egl a c)) as [c1|] eqn:E; [|discriminate].
    apply (IH c1 c').
    + intros win Hin. apply Hegl.
      apply (bind_windows_r _ _ c1); assumption.
    + exact H.
    + apply (host_step_target egl a c c1); [|exact E | exact Hc].
      intros win Hin. apply Hegl. apply bind_windows_l. exact Hin.
Qed.

Lemma iteration_target (p : PollResult) (c : Context) (n : Next) :
  (forall win, In win (surface_windows (trace (iteration p c))) ->
               binds_valid (egl_now p) win) ->
  result (iteration p c) = Ok n ->
  target_ok c -> target_ok (next_ctx n).
Proof.
  intros Hegl H Hc.
  assert (Hproc : forall acts win,
             0 <= ident p -> source p = Some acts ->
             In win (surface_windows (trace (process (egl_now p) acts c))) ->
             binds_valid (egl_now p) win).
  { intros acts win Hid Hsrc Hin. apply Hegl. unfold iteration.
    apply (bind_windows_r _ _ tt); [reflexivity|].
    destruct (Z.leb_spec 0 (ident p)); [|lia].
    apply bind_windows_l. unfold handle_event. apply bind_windows_l.
    rewrite Hsrc. exact Hin. }
  clear Hegl. revert H. unfold iteration. eff. intros H.
  destruct (Z.leb_spec 0 (ident p)) as [Hid | Hid].
  - rewrite result_bind, handle_event_result in H.
    assert (Hc1 : forall c1,
               match source p with
               | Some acts => result (process (egl_now p) acts c)
               | None => Ok c
               end = Ok c1 -> target_ok c1).
    { intros c1 E. destruct (source p) as [acts|].
      - apply (process_target (egl_now p) acts c c1); [|exact E | exact Hc].
        intros win. apply Hproc; [exact Hid | reflexivity].
      - injection E as <-. exact Hc. }
    destruct (match source p with Some _ => _ | None => _ end) as [c1|];
      [|discriminate].
    specialize (Hc1 c1 eq_refl).
    destruct (negb _).
    + rewrite result_bind, termDisplay_result in H. injection H as <-.
      right. repeat split; reflexivity.
    + injection H as <-. exact Hc1.
  - rewrite result_bind in H.
    destruct (isAnimating c) eqn:E.
    + rewrite (animate_step c E) in H. injection H as <-. exact Hc.
    + rewrite (animate_idle c E) in H. injection H as <-. exact Hc.
Qed.

Lemma event_loop_target (script : list PollResult) :
  forall c,
    Forall (fun a => binds_valid (fst a) (snd a)) (acquisitions script c) ->
    target_ok c ->
    Forall target_ok (loop_heads script c) /\
    forall n, result (event_loop script c) = Ok n -> target_ok (next_ctx n).
Proof.
  induction script as [|p rest IH]; intros c Hegl Hc;
    cbn [loop_heads event_loop acquisitions] in *.
  - split; [constructor|]. intros n [= <-]. exact Hc.
  - apply Forall_app in Hegl as [Hp Hrest]. rewrite result_bind.
    assert (Hit : forall n, result (iteration p c) = Ok n ->
                            target_ok (next_ctx n)).
    { intros n E. apply (iteration_target p c n); [|exact E | exact Hc].
      intros win Hin. rewrite Forall_forall in Hp.
      apply (Hp (egl_now p, win)). apply in_map. exact Hin. }
    destruct (result (iteration p c)) as [[c1 | c1] |].
    + specialize (Hit _ eq_refl).
      destruct (IH c1 Hrest Hit) as [IH1 IH2].
      split; [constructor; assumption | exact IH2].
    + specialize (Hit _ eq_refl).
      split; [constructor; [assumption | constructor]|].
      intros n [= <-]. exact Hit.
    + split; [constructor; [assumption | constructor] | discriminate].
Qed.

(* ================================================================== *)
(** * The render target *)

(** C1, as the code has it.  After [termDisplay] the display, surface
    and context handles are all invalid.  When [initDisplay] fails
    (return value -1: no configuration, or [eglMakeCurrent] refused) the
    engine is exactly as before.  When it succeeds the three fields hold
    the handles the backend returned for the preferred configuration and
    the app's window, and [eglMakeCurrent] accepted; the code does not
    test them, so they are all valid whenever those handles are.  Hence
    the target is all-valid or all-invalid at the head of every
    iteration of the loop and at its end, provided that at each
    acquisition the run makes [eglMakeCurrent] accepts the surface and
    the context only when display, surface and context are valid.  The
    acquisitions of a run are made with the backends of its polls and
    for windows that are not null, so it is enough that these backends
    behave so for the preferred configuration and every window that is
    there; nothing is asked of [eglMakeCurrent] on other handles, the
    release form included. *)
Theorem C1_render_target_commit :
  (forall c, exists c', result (termDisplay c) = Ok c' /\ all_invalid c') /\
  (forall egl c rc,
      result (initDisplay egl c) = Ok rc ->
      (fst rc = 0 \/ fst rc = -1) /\
      (fst rc = -1 -> snd rc = c) /\
      (fst rc = 0 ->
       let dpy := egl_getDisplay egl EGL_DEFAULT_DISPLAY in
       let config := preferred_config egl dpy (egl_chooseConfig egl dpy attr) in
       let surf := egl_createWindowSurface egl dpy config (window (app c)) in
       let cx := egl_createContext egl dpy config in
       config <> nullptr /\
       egl_makeCurrent egl dpy surf surf cx = true /\
       display (snd rc) = dpy /\ surface (snd rc) = surf /\
       context (snd rc) = cx /\
       (dpy <> EGL_NO_DISPLAY -> surf <> EGL_NO_SURFACE ->
        cx <> EGL_NO_CONTEXT -> all_valid (snd rc)) /\
       (binds_valid egl (window (app c)) -> all_valid (snd rc)))) /\
  (forall script c,
      Forall (fun a => binds_valid (fst a) (snd a)) (acquisitions script c) ->
      target_ok c ->
      Forall target_ok (loop_heads script c) /\
      forall n, result (event_loop script c) = Ok n -> target_ok (next_ctx n)) /\
  (forall script c,
      (forall p win, In p script -> win <> nullptr ->
                     binds_valid (egl_now p) win) ->
      Forall (fun a => binds_valid (fst a) (snd a)) (acquisitions script c)).
Proof.
  split; [|split; [|split]].
  - intros c. rewrite termDisplay_result. eexists. split; [reflexivity|].
    repeat split; reflexivity.
  - intros egl c rc H. split; [|split].
    + apply initDisplay_result in H as [-> | (cfg & _ & _ & ->)];
        [right | left]; reflexivity.
    + intros Hrc.
      apply initDisplay_result in H as [-> | (cfg & _ & _ & ->)];
        [reflexivity | discriminate].
    + intros Hrc.
      apply initDisplay_acquires in H as [-> | (Hcfg & Hmc & _ & ->)];
        [discriminate|].
      cbv zeta. cbn [snd display surface context].
      split; [exact Hcfg|]. split; [exact Hmc|].
      do 3 (split; [reflexivity|]). split.
      * intros Hd Hs Hx. repeat split; assumption.
      * intros Hb. exact (Hb Hcfg Hmc).
  - intros script c Hegl Hc. apply event_loop_target; assumption.
  - intros script c Hegl. apply Forall_forall. intros [egl win] Ha.
    destruct (acquisitions_polls script c _ Ha) as [(p & Hp & Hq) Hwin].
    cbn [fst snd] in *. subst egl. apply Hegl; assumption.
Qed.

(** A failed acquisition that leaves a drawing engine as it was, and a
    run (window, touch, a frame, destroy) whose every iteration starts
    with a target that is all-valid or all-invalid.  The backend of the
    run makes no surface for a null window and nothing for a
    configuration it does not list, and [eglMakeCurrent] accepts the
    release form on it; the one acquisition of the run is for window 77
    and configuration 12. *)
Lemma C1_render_target_commit_witness :
  result (initDisplay Sample.egl_unbound Sample.drawing)
  = Ok (-1, Sample.drawing) /\
  egl_makeCurrent Sample.egl_checked 7 EGL_NO_SURFACE EGL_NO_SURFACE
    EGL_NO_CONTEXT = true /\
  acquisitions
    (map Sample.checked
       [Sample.poll_window; Sample.poll_touch; Sample.poll_timeout;
        Sample.poll_destroy]) Sample.windowless
  = [(Sample.egl_checked, 77)] /\
  Forall (fun a => binds_valid (fst a) (snd a))
    (acquisitions
       (map Sample.checked
          [Sample.poll_window; Sample.poll_touch; Sample.poll_timeout;
           Sample.poll_destroy]) Sample.windowless) /\
  target_ok Sample.windowless /\
  Forall target_ok
    (loop_heads
       (map Sample.checked
          [Sample.poll_window; Sample.poll_touch; Sample.poll_timeout;
           Sample.poll_destroy]) Sample.windowless).
Proof.
  assert (Ha : acquisitions
                 (map Sample.checked
                    [Sample.poll_window; Sample.poll_touch;
                     Sample.poll_timeout; Sample.poll_destroy])
                 Sample.windowless
               = [(Sample.egl_checked, 77)]) by reflexivity.
  assert (Hb : binds_valid Sample.egl_checked 77).
  { intros _ _. repeat split; discriminate. }
  assert (Hs : Forall (fun a => binds_valid (fst a) (snd a))
                 (acquisitions
                    (map Sample.checked
                       [Sample.poll_window; Sample.poll_touch;
                        Sample.poll_timeout; Sample.poll_destroy])
                    Sample.windowless)).
  { rewrite Ha. apply Forall_cons; [exact Hb | apply Forall_nil]. }
  assert (Hc : target_ok Sample.windowless)
    by (right; repeat split; reflexivity).
  split; [reflexivity|]. split; [reflexivity|]. split; [exact Ha|].
  split; [exact Hs|]. split; [exact Hc|].
  exact (proj1 (proj1 (proj2 (proj2 C1_render_target_commit)) _ _ Hs Hc)).
Defined.

(** C1, as stated, fails: a backend that can create neither surface
    nor context accepts [eglMakeCurrent] on the two null handles, and
    [initDisplay] then stores a valid display next to an invalid surface
    and an invalid context. *)
Lemma C1_partial_target_counterexample :
  ~ (forall egl c rc,
        all_valid c \/ all_invalid c ->
        result (initDisplay egl c) = Ok rc ->
        all_valid (snd rc) \/ all_invalid (snd rc)).
Proof.
  intros H.
  specialize (H Sample.egl_exhausted Sample.windowless
                (0, mkContext Sample.cold 3 5 6 0 7 0 0 1080 1920
                      (mkSavedState (F32.Zero false) 0 0))).
  destruct H as [(_ & Hs & _) | (Hd & _)].
  - right. repeat split; reflexivity.
  - reflexivity.
  - apply Hs. reflexivity.
  - discriminate Hd.
Qed.

(** C2.  [termDisplay] never fails and always ends with the three
    handles invalid and [animating] false; run again on its own result
    it changes nothing and calls nothing; on a target that is already
    all-invalid it issues no call and leaves every field but
    [animating] as it was; an engine fresh from [init] is left exactly
    as it was. *)
Theorem C2_release_idempotent (c : Context) :
  exists c1,
    result (termDisplay c) = Ok c1 /\
    all_invalid c1 /\ animating c1 = 0 /\
    termDisplay c1 = (Ok c1, []) /\
    (all_invalid c ->
     trace (termDisplay c) = [] /\ c1 = set_animating 0 c) /\
    (forall sens st c0,
        result (init sens st) = Ok c0 -> termDisplay c0 = (Ok c0, [])).
Proof.
  eexists. split; [apply termDisplay_result|].
  split; [repeat split; reflexivity|].
  split; [reflexivity|]. split; [reflexivity|]. split.
  - intros (Hd & Hs & Hc). split.
    + apply termDisplay_trace_invalid, Hd.
    + unfold set_animating. rewrite Hd, Hs, Hc. reflexivity.
  - intros sens st c0 H. rewrite init_result in H.
    destruct (result (acquireASensorManagerInstance sens)); [|discriminate].
    injection H as <-. reflexivity.
Qed.

Lemma C2_release_idempotent_witness :
  all_invalid Sample.touched /\
  termDisplay Sample.touched = (Ok (set_animating 0 Sample.touched), []).
Proof.
  assert (Hinv : all_invalid Sample.touched) by (repeat split; reflexivity).
  split; [exact Hinv|].
  destruct (C2_release_idempotent Sample.touched)
    as (c1 & Hr & _ & _ & _ & Hnoop & _).
  destruct (Hnoop Hinv) as [Ht Hc].
  rewrite (eff_eta (termDisplay Sample.touched)), Hr, Ht, Hc. reflexivity.
Defined.

(** C10.  [termDisplay] writes [animating], [display], [context] and
    [surface] and nothing else: the saved state (angle, x, y), the
    cached width and height, the host's object and the sensor handles
    are as before; and the pointer coordinates are still there after a
    TermWindow followed by an InitWindow, whether or not that
    acquisition succeeds. *)
Theorem C10_release_frame (c : Context) :
  result (termDisplay c) =
  Ok (mkContext (app c) (sensorManager c) (accelerometerSensor c)
        (sensorEventQueue c) 0 EGL_NO_DISPLAY EGL_NO_SURFACE EGL_NO_CONTEXT
        (width c) (height c) (state c)) /\
  (forall egl c1, result (onAppCmd egl APP_CMD_TERM_WINDOW c) = Ok c1 ->
     state c1 = state c /\ width c1 = width c /\ height c1 = height c) /\
  (forall egl1 egl2 c1 c2,
      result (onAppCmd egl1 APP_CMD_TERM_WINDOW c) = Ok c1 ->
      result (onAppCmd egl2 APP_CMD_INIT_WINDOW c1) = Ok c2 ->
      x (state c2) = x (state c) /\ y (state c2) = y (state c)).
Proof.
  split; [apply termDisplay_result|]. split.
  - intros egl c1 H. cbn [onAppCmd] in H. unfold onTermWindow in H.
    rewrite termDisplay_result in H. injection H as <-.
    repeat split; reflexivity.
  - intros egl1 egl2 c1 c2 H1 H2. cbn [onAppCmd] in H1, H2.
    unfold onTermWindow in H1. rewrite termDisplay_result in H1.
    injection H1 as <-.
    apply onInitWindow_frame in H2 as (_ & _ & _ & _ & Hx & Hy).
    split; assumption.
Qed.

Lemma C10_release_frame_witness :
  result (onAppCmd Sample.egl_ready APP_CMD_TERM_WINDOW Sample.drawing)
  = Ok (mkContext Sample.windowed 3 5 6 0 0 0 0 1080 1920 Sample.saved) /\
  result (onAppCmd Sample.egl_ready APP_CMD_INIT_WINDOW
            (mkContext Sample.windowed 3 5 6 0 0 0 0 1080 1920 Sample.saved))
  = Ok (mkContext Sample.windowed 3 5 6 0 7 21 31 1080 1920
          (mkSavedState (F32.Zero false) 120 340)) /\
  x (state (mkContext Sample.windowed 3 5 6 0 7 21 31 1080 1920
              (mkSavedState (F32.Zero false) 120 340))) = x Sample.saved.
Proof.
  assert (H1 : result (onAppCmd Sample.egl_ready APP_CMD_TERM_WINDOW
                         Sample.drawing)
               = Ok (mkContext Sample.windowed 3 5 6 0 0 0 0 1080 1920
                       Sample.saved)) by reflexivity.
  assert (H2 : result (onAppCmd Sample.egl_ready APP_CMD_INIT_WINDOW
                         (mkContext Sample.windowed 3 5 6 0 0 0 0 1080 1920
                            Sample.saved))
               = Ok (mkContext Sample.windowed 3 5 6 0 7 21 31 1080 1920
                       (mkSavedState (F32.Zero false) 120 340)))
    by (vm_compute; reflexivity).
  split; [exact H1|]. split; [exact H2|].
  exact (proj1 (proj2 (proj2 (C10_release_frame Sample.drawing))
                  Sample.egl_ready Sample.egl_ready _ _ H1 H2)).
Defined.

(* ================================================================== *)
(** * The event loop *)

(** C3.  Along any run of the loop, the polls found in the log are, in
    order, one per iteration, each with timeout -1 (block) when
    [animating] was false at the head of that iteration and 0 when it
    was true. *)
Theorem C3_poll_policy (script : list PollResult) :
  forall c,
    poll_timeouts (trace (event_loop script c)) =
    map (fun h => if animating h =? 0 then -1 else 0) (loop_heads script c).
Proof.
  induction script as [|p rest IH]; intros c; [reflexivity|].
  cbn [event_loop loop_heads map]. rewrite trace_bind.
  assert (Ht : (if isAnimating c then 0 else -1)
               = (if animating c =? 0 then -1 else 0))
    by (unfold isAnimating; destruct (animating c =? 0); reflexivity).
  destruct (result (iteration p c)) as [[c1 | c1] |].
  - rewrite poll_timeouts_app, iteration_polls, IH, Ht. reflexivity.
  - rewrite poll_timeouts_app, iteration_polls, Ht. reflexivity.
  - rewrite iteration_polls, Ht. reflexivity.
Qed.

(** C4.  [init] leaves [animating] false; a run from [init] that routes
    no motion event has [animating] false at the head of every
    iteration and at its end; an iteration that starts with [animating]
    false and ends with it true has routed a motion event; routing a
    motion event sets it; LoseFocus clears it, and so does the
    [termDisplay] of a destroy request, whatever it was. *)
Theorem C4_animating_transitions :
  (forall sens st c, result (init sens st) = Ok c -> animating c = 0) /\
  (forall sens st script c,
      result (init sens st) = Ok c -> no_motion script = true ->
      Forall (fun h => animating h = 0) (loop_heads script c) /\
      forall n, result (android_main sens st script) = Ok n ->
                animating (next_ctx n) = 0) /\
  (forall p c n,
      result (iteration p c) = Ok n -> animating c = 0 ->
      animating (next_ctx n) <> 0 -> routes_motion p = true) /\
  (forall event c,
      AInputEvent_getType event = AINPUT_EVENT_TYPE_MOTION ->
      exists c', result (onInputEvent event c) = Ok (1, c') /\ animating c' = 1) /\
  (forall egl c,
      exists c', result (onAppCmd egl APP_CMD_LOST_FOCUS c) = Ok c' /\
                 animating c' = 0) /\
  (forall p c c1,
      0 <= ident p -> result (handle_event p c) = Ok c1 ->
      destroyRequested (app c1) <> 0 ->
      exists c2, result (iteration p c) = Ok (Return c2) /\ animating c2 = 0).
Proof.
  assert (Hinit : forall sens st c,
             result (init sens st) = Ok c -> animating c = 0).
  { intros sens st c H. rewrite init_result in H.
    destruct (result (acquireASensorManagerInstance sens)); [|discriminate].
    injection H as <-. reflexivity. }
  split; [exact Hinit|]. split; [|split; [|split; [|split]]].
  - intros sens st script c H Hm.
    destruct (event_loop_animating script c (Hinit _ _ _ H) Hm) as [Hh Hn].
    split; [exact Hh|].
    intros n. unfold android_main. rewrite result_bind, H. apply Hn.
  - intros p c n H H0 Hn.
    destruct (routes_motion p) eqn:E; [reflexivity|].
    exfalso. apply Hn. eapply iteration_animating; eassumption.
  - intros event c H. rewrite onInputEvent_result.
    apply Z.eqb_eq in H. rewrite H. eexists; split; reflexivity.
  - intros egl c. cbn [onAppCmd]. rewrite onFocus_lost_result.
    eexists; split; reflexivity.
  - intros p c c1 Hid Hev Hd.
    rewrite (iteration_destroy p c c1 Hid Hev Hd).
    eexists; split; reflexivity.
Qed.

Lemma C4_animating_transitions_witness :
  result (init Sample.sensors Sample.cold) = Ok Sample.windowless /\
  no_motion [Sample.poll_window; Sample.poll_focus; Sample.poll_timeout] = true /\
  Forall (fun h => animating h = 0)
    (loop_heads [Sample.poll_window; Sample.poll_focus; Sample.poll_timeout]
       Sample.windowless).
Proof.
  split; [reflexivity|]. split; [reflexivity|].
  exact (proj1 (proj1 (proj2 C4_animating_transitions)
                  Sample.sensors Sample.cold
                  [Sample.poll_window; Sample.poll_focus; Sample.poll_timeout]
                  Sample.windowless eq_refl eq_refl)).
Defined.

(** C6.  An iteration whose event leaves [destroyRequested] set ends
    the loop: after the poll and the handling of the event the log holds
    the calls of one [termDisplay] and nothing more, the polls still in
    the script are never issued, and [android_main] returns with the
    target all-invalid and [animating] false.  That [termDisplay]
    presents no frame and releases the display connection once if there
    was one.  For the glue's Destroy command the handling itself calls
    nothing. *)
Theorem C6_destroy_releases_once (p : PollResult) (rest : list PollResult)
  (c c1 : Context) :
  0 <= ident p ->
  result (handle_event p c) = Ok c1 ->
  destroyRequested (app c1) <> 0 ->
  exists c2,
    event_loop (p :: rest) c =
    (Ok (Return c2),
     ALooper_pollAll (if isAnimating c then 0 else -1)
     :: trace (handle_event p c) ++ trace (termDisplay c1)) /\
    result (termDisplay c1) = Ok c2 /\
    all_invalid c2 /\ animating c2 = 0 /\
    frames (trace (termDisplay c1)) = 0%nat /\
    releases (trace (termDisplay c1)) =
    (if display c1 =? EGL_NO_DISPLAY then 0%nat else 1%nat) /\
    (source p = Some Destroy -> ident p <> LOOPER_ID_USER ->
     trace (handle_event p c) = [] /\
     c1 = set_app (set_destroyRequested 1 (app c)) c).
Proof.
  intros Hid Hev Hd. eexists.
  split; [|split; [apply termDisplay_result|]].
  - cbn [event_loop]. rewrite (eff_eta (bind _ _)). eff.
    rewrite (iteration_destroy p c c1 Hid Hev Hd). cbn [result trace fst snd].
    rewrite app_nil_r. reflexivity.
  - split; [repeat split; reflexivity|]. split; [reflexivity|].
    split; [apply termDisplay_frames|]. split; [apply termDisplay_releases|].
    intros Hsrc Hid'. unfold handle_event in *. rewrite Hsrc in *.
    apply Z.eqb_neq in Hid'. rewrite Hid' in *.
    cbn in Hev |- *. injection Hev as <-. split; reflexivity.
Qed.

(** Destroy while the window is ready and the engine animates: one
    non-blocking poll, then the four calls of the teardown. *)
Lemma C6_destroy_releases_once_witness :
  0 <= ident Sample.poll_destroy /\
  event_loop [Sample.poll_destroy; Sample.poll_timeout; Sample.poll_touch]
    Sample.drawing =
  (Ok (Return (mkContext (mk_android_app 77 None 0 1) 3 5 6 0 0 0 0 1080 1920
                 Sample.saved)),
   [ALooper_pollAll 0; eglMakeCurrent 7 0 0 0; eglDestroyContext 7 31;
    eglDestroySurface 7 21; eglTerminate 7]).
Proof.
  assert (Hid : 0 <= ident Sample.poll_destroy) by (cbn; lia).
  split; [exact Hid|].
  destruct (C6_destroy_releases_once Sample.poll_destroy
              [Sample.poll_timeout; Sample.poll_touch] Sample.drawing
              (set_app (set_destroyRequested 1 (app Sample.drawing))
                 Sample.drawing)
              Hid eq_refl ltac:(cbn; lia))
    as (c2 & Hloop & Hc2 & _).
  rewrite Hloop. injection Hc2 as <-. reflexivity.
Defined.

(* ================================================================== *)
(** * Animation and saved state *)

(** C5, as the code has it.  With [animating] true, [animate] adds the
    increment [.01f] to the angle once and resets the angle to 0 when the
    sum exceeds 1 (so an angle within 0..1 stays within 0..1), touches
    nothing else, and calls [drawFrame] once on the new state: that
    presents exactly one frame when there is a display and none when
    there is not.  With [animating] false, [animate] changes nothing
    and calls nothing. *)
Theorem C5_animate_step (c : Context) :
  (isAnimating c = true ->
   let a1 := F32.add (angle (state c)) F32.lit_0_01 in
   let a2 := if F32.gt a1 (F32.of_int 1) then F32.of_int 0 else a1 in
   let c' := set_state (set_angle a2 (state c)) c in
   animate c = (Ok c', trace (drawFrame c')) /\
   frames (trace (animate c)) =
   (if display c =? nullptr then 0%nat else 1%nat) /\
   (in_unit (angle (state c)) = true -> in_unit (angle (state c')) = true)) /\
  (isAnimating c = false -> animate c = (Ok c, [])).
Proof.
  split.
  - intros Ha. cbv zeta.
    rewrite (animate_step c Ha). cbn [trace snd].
    split; [reflexivity|]. split.
    + rewrite drawFrame_frames. reflexivity.
    + intros Hu. cbn [angle state set_state set_angle].
      apply (step_in_unit _ Hu).
  - apply animate_idle.
Qed.

(** One step of an engine that draws: 0.37f becomes 0.38f, one frame;
    an engine that does not animate stays as it is. *)
Lemma C5_animate_step_witness :
  isAnimating Sample.drawing = true /\
  in_unit (angle (state Sample.drawing)) = true /\
  frames (trace (animate Sample.drawing)) = 1%nat /\
  result (animate Sample.drawing) =
  Ok (mkContext Sample.windowed 3 5 6 1 7 21 31 1080 1920
        (mkSavedState (F32.Finite false 12750684 (-25)) 120 340)) /\
  (isAnimating Sample.windowless = false /\
   animate Sample.windowless = (Ok Sample.windowless, [])).
Proof.
  assert (Ha : isAnimating Sample.drawing = true) by reflexivity.
  assert (Hi : isAnimating Sample.windowless = false) by reflexivity.
  destruct (proj1 (C5_animate_step Sample.drawing) Ha) as (Heq & Hfr & _).
  split; [exact Ha|]. split; [reflexivity|]. split; [rewrite Hfr; reflexivity|].
  split; [rewrite Heq; reflexivity|].
  split; [exact Hi|].
  exact (proj2 (C5_animate_step Sample.windowless) Hi).
Defined.

(** C5, as stated, fails: a touch that arrives before any window makes
    the engine animate, and the animation step that follows advances the
    angle but presents no frame. *)
Lemma C5_no_frame_counterexample :
  result (android_main Sample.sensors Sample.cold [Sample.poll_touch])
  = Ok (Continue Sample.touched) /\
  ~ (forall c, isAnimating c = true -> frames (trace (animate c)) = 1%nat).
Proof.
  split; [reflexivity|].
  intros H. specialize (H Sample.touched eq_refl). discriminate H.
Qed.

(** C7.  [onSaveState] allocates [sizeof(SavedState)] bytes and leaves
    in [savedState] the bytes of the current state, with
    [savedStateSize] their number; [init], given a host object with that
    buffer, comes back with the same angle, x and y.  The other way
    round, an engine that [init] started from any buffer of
    [sizeof(SavedState)] bytes writes those very bytes when it saves:
    the state is copied as it is, whatever float the first four bytes
    encode, a NaN with its sign and payload included. *)
Theorem C7_save_restore (c : Context) (sens : Sensors) (mgr : Z)
  (st : android_app) :
  SavedState_wf (state c) = true ->
  result (acquireASensorManagerInstance sens) = Ok mgr ->
  exists c1,
    onSaveState c = (Ok c1, [malloc sizeof_SavedState]) /\
    savedState (app c1) = Some (SavedState_bytes (state c)) /\
    savedStateSize (app c1) =
    Z.of_nat (List.length (SavedState_bytes (state c))) /\
    (savedState st = savedState (app c1) ->
     exists c2, result (init sens st) = Ok c2 /\ state c2 = state c) /\
    (forall buf,
        Z.of_nat (List.length buf) = sizeof_SavedState ->
        savedState st = Some buf ->
        exists c2 c3,
          result (init sens st) = Ok c2 /\
          SavedState_wf (state c2) = true /\
          result (onSaveState c2) = Ok c3 /\
          savedState (app c3) = Some buf).
Proof.
  intros Hwf Hmgr. rewrite onSaveState_result.
  eexists. split; [reflexivity|]. cbn [app savedState savedStateSize].
  split; [reflexivity|]. split; [reflexivity|]. split.
  - intros Hst. rewrite init_result, Hmgr, Hst.
    eexists. split; [reflexivity|]. cbn [state].
    apply SavedState_of_bytes_bytes, Hwf.
  - intros buf Hlen Hst. rewrite init_result, Hmgr, Hst.
    assert (Hn : List.length buf = 12%nat)
      by (unfold sizeof_SavedState in Hlen; lia).
    eexists. eexists. split; [reflexivity|]. cbn [state].
    split; [apply SavedState_of_bytes_wf|].
    rewrite onSaveState_result. split; [reflexivity|].
    cbn [app state savedState set_app set_savedState].
    rewrite (SavedState_bytes_of_bytes buf Hn). reflexivity.
Qed.

(** The scenario x = 120, y = 340, angle = 0.37f: the twelve bytes, and
    the state a new engine starts from; and an engine started from
    twelve bytes that hold a NaN, which saves those twelve bytes. *)
Lemma C7_save_restore_witness :
  SavedState_wf Sample.saved = true /\
  result (acquireASensorManagerInstance Sample.sensors) = Ok 3 /\
  savedState (app (mkContext
                     (mk_android_app 77 (Some (SavedState_bytes Sample.saved))
                        12 0) 3 5 6 1 7 21 31 1080 1920 Sample.saved))
  = Some [Byte.xa4; Byte.x70; Byte.xbd; Byte.x3e;
          Byte.x78; Byte.x00; Byte.x00; Byte.x00;
          Byte.x54; Byte.x01; Byte.x00; Byte.x00] /\
  (exists c2,
      result (init Sample.sensors
                (mk_android_app nullptr (Some (SavedState_bytes Sample.saved))
                   12 0))
      = Ok c2 /\
      state c2 = mkSavedState (F32.Finite false 12415140 (-25)) 120 340) /\
  (exists c2 c3,
      result (init Sample.sensors
                (mk_android_app nullptr (Some Sample.nan_buffer) 12 0))
      = Ok c2 /\
      state c2 = mkSavedState (F32.NaN false 1) (-1) 340 /\
      result (onSaveState c2) = Ok c3 /\
      savedState (app c3) = Some Sample.nan_buffer).
Proof.
  assert (Hwf : SavedState_wf Sample.saved = true) by reflexivity.
  assert (Hm : result (acquireASensorManagerInstance Sample.sensors) = Ok 3)
    by reflexivity.
  split; [exact Hwf|]. split; [exact Hm|]. split; [reflexivity|]. split.
  - destruct (C7_save_restore Sample.drawing Sample.sensors 3
                (mk_android_app nullptr (Some (SavedState_bytes Sample.saved))
                   12 0) Hwf Hm)
      as (c1 & Hsave & _ & _ & Hinit & _).
    rewrite onSaveState_result in Hsave. injection Hsave as <-.
    exact (Hinit eq_refl).
  - destruct (C7_save_restore Sample.drawing Sample.sensors 3
                (mk_android_app nullptr (Some Sample.nan_buffer) 12 0) Hwf Hm)
      as (c1 & _ & _ & _ & _ & Hbuf).
    destruct (Hbuf Sample.nan_buffer eq_refl eq_refl)
      as (c2 & c3 & Hi & _ & Hs & Hb).
    exists c2, c3. split; [exact Hi|]. split; [|split; assumption].
    assert (E : result (init Sample.sensors
                          (mk_android_app nullptr (Some Sample.nan_buffer)
                             12 0))
                = Ok (mkContext
                        (mk_android_app nullptr (Some Sample.nan_buffer) 12 0)
                        3 5 6 0 0 0 0 0 0
                        (mkSavedState (F32.NaN false 1) (-1) 340)))
      by reflexivity.
    rewrite E in Hi. injection Hi as <-. reflexivity.
Defined.

(** C8.  An [initDisplay] that returns 0 leaves the angle at 0,
    whatever it was; so an engine that [init] restored from a saved
    state has the saved angle until its window is acquired, and angle 0
    after. *)
Theorem C8_acquire_resets_angle (egl : EGL) (c c' : Context) :
  result (initDisplay egl c) = Ok (0, c') ->
  angle (state c') = F32.of_int 0 /\
  (forall sens st s,
      SavedState_wf s = true ->
      savedState st = Some (SavedState_bytes s) ->
      result (init sens st) = Ok c ->
      angle (state c) = angle s /\ angle (state c') = F32.Zero false).
Proof.
  intros H.
  assert (Ha : angle (state c') = F32.Zero false).
  { apply initDisplay_result in H as [[=] | (cfg & _ & _ & [= ->])].
    reflexivity. }
  split; [exact Ha|].
  intros sens st s Hwf Hst Hinit. split; [|exact Ha].
  rewrite init_result, Hst in Hinit.
  destruct (result (acquireASensorManagerInstance sens)); [|discriminate].
  injection Hinit as <-. cbn [state].
  rewrite (SavedState_of_bytes_bytes s Hwf). reflexivity.
Qed.

Lemma C8_acquire_resets_angle_witness :
  result (init Sample.sensors
            (mk_android_app 77 (Some (SavedState_bytes Sample.saved)) 12 0))
  = Ok (mkContext
          (mk_android_app 77 (Some (SavedState_bytes Sample.saved)) 12 0)
          3 5 6 0 0 0 0 0 0 Sample.saved) /\
  result (initDisplay Sample.egl_ready
            (mkContext
               (mk_android_app 77 (Some (SavedState_bytes Sample.saved)) 12 0)
               3 5 6 0 0 0 0 0 0 Sample.saved))
  = Ok (0, mkContext
             (mk_android_app 77 (Some (SavedState_bytes Sample.saved)) 12 0)
             3 5 6 0 7 21 31 1080 1920
             (mkSavedState (F32.Zero false) 120 340)) /\
  angle (state (mkContext
                  (mk_android_app 77 (Some (SavedState_bytes Sample.saved)) 12 0)
                  3 5 6 0 7 21 31 1080 1920
                  (mkSavedState (F32.Zero false) 120 340)))
  = F32.of_int 0.
Proof.
  assert (H0 : result (init Sample.sensors
                         (mk_android_app 77
                            (Some (SavedState_bytes Sample.saved)) 12 0))
               = Ok (mkContext
                       (mk_android_app 77
                          (Some (SavedState_bytes Sample.saved)) 12 0)
                       3 5 6 0 0 0 0 0 0 Sample.saved))
    by (vm_compute; reflexivity).
  assert (H1 : result (initDisplay Sample.egl_ready
                         (mkContext
                            (mk_android_app 77
                               (Some (SavedState_bytes Sample.saved)) 12 0)
                            3 5 6 0 0 0 0 0 0 Sample.saved))
               = Ok (0, mkContext
                          (mk_android_app 77
                             (Some (SavedState_bytes Sample.saved)) 12 0)
                          3 5 6 0 7 21 31 1080 1920
                          (mkSavedState (F32.Zero false) 120 340)))
    by (vm_compute; reflexivity).
  split; [exact H0|]. split; [exact H1|].
  exact (proj1 (C8_acquire_resets_angle _ _ _ H1)).
Defined.

(** C9, on the code.  GainFocus without a sensor calls nothing and
    changes nothing; with one, it enables the sensor and asks for a
    period of [(1000L / 60) * 1000] microseconds, which is 16000: 62
    whole events a second (62.5), not the 60 of the comment, whose
    period is 16666 microseconds. *)
Theorem C9_gain_focus_rate (c : Context) :
  onFocus true c =
  (Ok c,
   if accelerometerSensor c =? nullptr then []
   else [ASensorEventQueue_enableSensor (sensorEventQueue c)
           (accelerometerSensor c);
         ASensorEventQueue_setEventRate (sensorEventQueue c)
           (accelerometerSensor c) 16000]) /\
  Z.quot 1000 60 * 1000 = 16000 /\
  Z.quot 1000000 16000 = 62 /\ Z.quot 1000000 60 = 16666.
Proof.
  split; [apply onFocus_gained|]. repeat split; reflexivity.
Qed.

(* ================================================================== *)
(** * Further properties *)

(** ** Choosing the configuration *)

(** X1.  The configuration loop stops at the first configuration, in
    the backend's order, whose four queries succeed with 8 bits of red,
    green and blue and no depth, and runs to the end when there is
    none; the configuration [initDisplay] goes on with is then one of
    those the backend listed. *)
Theorem X1_find_config_first_match (egl : EGL) (dpy : Z) (cfgs : list Z) :
  result (find_config egl dpy cfgs) = Ok (find (rgb888_no_depth egl dpy) cfgs) /\
  (cfgs <> [] -> In (preferred_config egl dpy cfgs) cfgs) /\
  (forall cfg, find (rgb888_no_depth egl dpy) cfgs = Some cfg ->
               rgb888_no_depth egl dpy cfg = true).
Proof.
  split; [apply find_config_preferred|]. split.
  - intros Hne. unfold preferred_config.
    destruct (find (rgb888_no_depth egl dpy) cfgs) as [cfg|] eqn:E.
    + apply find_some in E. apply E.
    + destruct cfgs as [|cfg rest]; [contradiction | left; reflexivity].
  - intros cfg E. apply find_some in E. apply E.
Qed.

Lemma X1_find_config_first_match_witness :
  [11; 12] <> [] /\
  result (find_config Sample.egl_ready 7 [11; 12]) = Ok (Some 12) /\
  In (preferred_config Sample.egl_ready 7 [11; 12]) [11; 12].
Proof.
  assert (Hne : [11; 12] <> []) by discriminate.
  split; [exact Hne|]. split; [reflexivity|].
  exact (proj1 (proj2 (X1_find_config_first_match Sample.egl_ready 7 [11; 12]))
           Hne).
Defined.

(** X2.  [initDisplay] stops at [assert(numConfigs)] exactly when the
    backend offers no configuration; it has then opened the display and
    asked twice for configurations, and nothing else. *)
Theorem X2_initDisplay_no_config (egl : EGL) (c : Context) :
  let dpy := egl_getDisplay egl EGL_DEFAULT_DISPLAY in
  (result (initDisplay egl c) = Abort <-> egl_chooseConfig egl dpy attr = []) /\
  (egl_chooseConfig egl dpy attr = [] ->
   trace (initDisplay egl c) =
   [eglGetDisplay EGL_DEFAULT_DISPLAY; eglInitialize dpy;
    eglChooseConfig dpy attr 0; eglChooseConfig dpy attr 0]).
Proof.
  cbv zeta. split.
  - split.
    + intros H. destruct (egl_chooseConfig egl _ attr) as [|cfg rest] eqn:E;
        [reflexivity|].
      exfalso. revert H. unfold initDisplay. eff. rewrite E.
      cbn [List.length]. rewrite Nat2Z.inj_succ.
      destruct (Z.eqb_spec (Z.succ (Z.of_nat (List.length rest))) 0); [lia|].
      cbn [negb].
      rewrite find_config_preferred.
      set (config := match find _ _ with Some k => k | None => _ end).
      destruct (config =? nullptr); eff; [discriminate|].
      destruct (negb _); eff; discriminate.
    + intros E. unfold initDisplay. eff. rewrite E. reflexivity.
  - intros E. unfold initDisplay. eff. rewrite E. reflexivity.
Qed.

Lemma X2_initDisplay_no_config_witness :
  egl_chooseConfig Corner.egl_bare 7 attr = [] /\
  result (initDisplay Corner.egl_bare Sample.drawing) = Abort /\
  trace (initDisplay Corner.egl_bare Sample.drawing) =
  [eglGetDisplay 0; eglInitialize 7; eglChooseConfig 7 attr 0;
   eglChooseConfig 7 attr 0].
Proof.
  assert (He : egl_chooseConfig Corner.egl_bare 7 attr = []) by reflexivity.
  split; [exact He|]. split.
  - exact (proj2 (proj1 (X2_initDisplay_no_config Corner.egl_bare
                           Sample.drawing)) He).
  - exact (proj2 (X2_initDisplay_no_config Corner.egl_bare Sample.drawing) He).
Defined.

(** X3.  With at least one configuration on offer, [initDisplay]
    returns: -1 and the engine as it was when the preferred
    configuration (first exact match, else first of the list) is a null
    handle or [eglMakeCurrent] refuses the surface and context made for
    it; otherwise 0 and the engine with that display, surface and
    context, the size [eglQuerySurface] reports, and angle 0. *)
Theorem X3_initDisplay_outcome (egl : EGL) (c : Context) :
  let dpy := egl_getDisplay egl EGL_DEFAULT_DISPLAY in
  let config := preferred_config egl dpy (egl_chooseConfig egl dpy attr) in
  let surf := egl_createWindowSurface egl dpy config (window (app c)) in
  let cx := egl_createContext egl dpy config in
  egl_chooseConfig egl dpy attr <> [] ->
  result (initDisplay egl c) =
  if (config =? nullptr) || negb (egl_makeCurrent egl dpy surf surf cx)
  then Ok (-1, c)
  else Ok (0, mkContext (app c) (sensorManager c) (accelerometerSensor c)
                (sensorEventQueue c) (animating c) dpy surf cx
                (egl_querySurface egl dpy surf EGL_WIDTH)
                (egl_querySurface egl dpy surf EGL_HEIGHT)
                (mkSavedState (F32.Zero false) (x (state c)) (y (state c)))).
Proof.
  cbv zeta. intros Hne. unfold initDisplay, preferred_config. eff.
  destruct (egl_chooseConfig egl _ attr) as [|cfg rest] eqn:E; [contradiction|].
  cbn [List.length]. rewrite Nat2Z.inj_succ.
  destruct (Z.eqb_spec (Z.succ (Z.of_nat (List.length rest))) 0); [lia|].
  cbn [negb]. rewrite find_config_preferred.
  set (config := match find _ _ with Some k => k | None => _ end).
  destruct (config =? nullptr); eff; [reflexivity|]. cbn [orb].
  destruct (egl_makeCurrent _ _ _ _ _); cbn [negb]; eff; reflexivity.
Qed.

Lemma X3_initDisplay_outcome_witness :
  egl_chooseConfig Sample.egl_ready 7 attr <> [] /\
  result (initDisplay Sample.egl_ready Sample.windowless)
  = Ok (0, mkContext Sample.cold 3 5 6 0 7 21 31 1080 1920
             (mkSavedState (F32.Zero false) 0 0)) /\
  result (initDisplay Sample.egl_unbound Sample.drawing)
  = Ok (-1, Sample.drawing).
Proof.
  assert (Hne : egl_chooseConfig Sample.egl_ready 7 attr <> []) by discriminate.
  split; [exact Hne|]. split.
  - rewrite (X3_initDisplay_outcome Sample.egl_ready Sample.windowless Hne).
    reflexivity.
  - rewrite (X3_initDisplay_outcome Sample.egl_unbound Sample.drawing Hne).
    reflexivity.
Defined.

(** ** What the log never holds *)

(** *** Null handles *)

Lemma drawFrame_addressed (c : Context) :
  forallb addressed (trace (drawFrame c)) = true.
Proof.
  unfold drawFrame. destruct (display c =? nullptr) eqn:E; [reflexivity|].
  cbn. unfold EGL_NO_DISPLAY. unfold nullptr in E. rewrite E. reflexivity.
Qed.
#[local] Hint Resolve drawFrame_addressed : calls.

Lemma termDisplay_addressed (c : Context) :
  forallb addressed (trace (termDisplay c)) = true.
Proof.
  unfold termDisplay.
  destruct (display c =? EGL_NO_DISPLAY) eqn:Ed; [reflexivity|].
  destruct (context c =? EGL_NO_CONTEXT) eqn:Ec,
           (surface c =? EGL_NO_SURFACE) eqn:Es;
    cbn; rewrite ?Ed, ?Ec, ?Es; reflexivity.
Qed.
#[local] Hint Resolve termDisplay_addressed : calls.

Lemma config_matches_addressed (egl : EGL) (dpy cfg : Z) :
  forallb addressed (trace (config_matches egl dpy cfg)) = true.
Proof. unfold config_matches. each_call. Qed.
#[local] Hint Resolve config_matches_addressed : calls.

Lemma find_config_addressed (egl : EGL) (dpy : Z) (cfgs : list Z) :
  forallb addressed (trace (find_config egl dpy cfgs)) = true.
Proof. induction cfgs; cbn [find_config]; each_call. Qed.
#[local] Hint Resolve find_config_addressed : calls.

Lemma initDisplay_addressed (egl : EGL) (c : Context) :
  forallb addressed (trace (initDisplay egl c)) = true.
Proof. unfold initDisplay. each_call. Qed.
#[local] Hint Resolve initDisplay_addressed : calls.

Lemma onAppCmd_addressed (egl : EGL) (cmd : AppCmd) (c : Context) :
  forallb addressed (trace (onAppCmd egl cmd c)) = true.
Proof.
  destruct cmd; cbn [onAppCmd];
    unfold onSaveState, onInitWindow, onTermWindow, onFocus; each_call.
Qed.
#[local] Hint Resolve onAppCmd_addressed : calls.

Lemma host_step_addressed (egl : EGL) (a : HostAction) (c : Context) :
  forallb addressed (trace (host_step egl a c)) = true.
Proof. destruct a; cbn [host_step]; unfold onInputEvent; each_call. Qed.
#[local] Hint Resolve host_step_addressed : calls.

Lemma process_addressed (egl : EGL) (acts : list HostAction) :
  forall c, forallb addressed (trace (process egl acts c)) = true.
Proof. induction acts; intros c; cbn [process]; each_call. Qed.
#[local] Hint Resolve process_addressed : calls.

Lemma drain_events_addressed (queue : Z) (pending : list ASensorEvent) :
  forallb addressed (trace (drain_events queue pending)) = true.
Proof. induction pending; cbn [drain_events]; each_call. Qed.
#[local] Hint Resolve drain_events_addressed : calls.

Lemma processSensorEvents_addressed (pending : list ASensorEvent) (c : Context) :
  forallb addressed (trace (processSensorEvents pending c)) = true.
Proof. unfold processSensorEvents. each_call. Qed.
#[local] Hint Resolve processSensorEvents_addressed : calls.

Lemma animate_addressed (c : Context) :
  forallb addressed (trace (animate c)) = true.
Proof. unfold animate. each_call. Qed.
#[local] Hint Resolve animate_addressed : calls.

Lemma iteration_addressed (p : PollResult) (c : Context) :
  forallb addressed (trace (iteration p c)) = true.
Proof. unfold iteration, handle_event. each_call. Qed.
#[local] Hint Resolve iteration_addressed : calls.

(** X4.  Whatever the host and the backend do, the engine never
    presents a frame on a null display, never destroys a null context
    or surface, and never terminates a null display. *)
Theorem X4_no_null_handle (script : list PollResult) :
  forall c, forallb addressed (trace (event_loop script c)) = true.
Proof.
  induction script as [|p rest IH]; intros c; [reflexivity|].
  cbn [event_loop]. apply forallb_bind; [apply iteration_addressed|].
  intros [c1 | c1]; [apply IH | reflexivity].
Qed.

(** *** Acquisition gives nothing back *)

Lemma config_matches_keeps (egl : EGL) (dpy cfg : Z) :
  forallb keeps (trace (config_matches egl dpy cfg))
  = true.
Proof. unfold config_matches. each_call. Qed.
#[local] Hint Resolve config_matches_keeps : calls.

Lemma find_config_keeps (egl : EGL) (dpy : Z) (cfgs : list Z) :
  forallb keeps (trace (find_config egl dpy cfgs))
  = true.
Proof. induction cfgs; cbn [find_config]; each_call. Qed.
#[local] Hint Resolve find_config_keeps : calls.

(** X5.  [initDisplay] never destroys a context or a surface and never
    terminates a display: not those of an acquisition still in place
    when it is called again, and not, when [eglMakeCurrent] refuses,
    the surface and the context it has just created. *)
Theorem X5_initDisplay_gives_nothing_back (egl : EGL) (c : Context) :
  forallb keeps (trace (initDisplay egl c)) = true /\
  (let dpy := egl_getDisplay egl EGL_DEFAULT_DISPLAY in
   let config := preferred_config egl dpy (egl_chooseConfig egl dpy attr) in
   let surf := egl_createWindowSurface egl dpy config (window (app c)) in
   let cx := egl_createContext egl dpy config in
   egl_chooseConfig egl dpy attr <> [] -> config <> nullptr ->
   egl_makeCurrent egl dpy surf surf cx = false ->
   In (eglCreateWindowSurface dpy config (window (app c)))
     (trace (initDisplay egl c)) /\
   In (eglCreateContext dpy config) (trace (initDisplay egl c)) /\
   result (initDisplay egl c) = Ok (-1, c)).
Proof.
  split; [unfold initDisplay; each_call|].
  cbv zeta. intros Hne Hcfg Hmc.
  unfold initDisplay, preferred_config in *. eff.
  destruct (egl_chooseConfig egl _ attr) as [|cfg rest] eqn:E; [contradiction|].
  cbn [List.length]. rewrite Nat2Z.inj_succ.
  destruct (Z.eqb_spec (Z.succ (Z.of_nat (List.length rest))) 0); [lia|].
  cbn [negb]. rewrite find_config_preferred.
  set (config := match find _ _ with Some k => k | None => _ end) in *.
  destruct (Z.eqb_spec config nullptr); [contradiction|]. eff.
  rewrite Hmc. cbn [negb]. eff.
  split; [|split; [|reflexivity]].
  - cbn [List.app]. do 4 right. apply in_or_app. right.
    right. left. reflexivity.
  - cbn [List.app]. do 4 right. apply in_or_app. right.
    do 2 right. left. reflexivity.
Qed.

Lemma X5_initDisplay_gives_nothing_back_witness :
  egl_chooseConfig Sample.egl_unbound 7 attr <> [] /\
  trace (initDisplay Sample.egl_unbound Sample.drawing) =
  [eglGetDisplay 0; eglInitialize 7; eglChooseConfig 7 attr 0;
   eglChooseConfig 7 attr 2;
   eglGetConfigAttrib 7 11 EGL_RED_SIZE; eglGetConfigAttrib 7 11 EGL_GREEN_SIZE;
   eglGetConfigAttrib 7 11 EGL_BLUE_SIZE; eglGetConfigAttrib 7 11 EGL_DEPTH_SIZE;
   eglGetConfigAttrib 7 12 EGL_RED_SIZE; eglGetConfigAttrib 7 12 EGL_GREEN_SIZE;
   eglGetConfigAttrib 7 12 EGL_BLUE_SIZE; eglGetConfigAttrib 7 12 EGL_DEPTH_SIZE;
   eglGetConfigAttrib 7 12 EGL_NATIVE_VISUAL_ID;
   eglCreateWindowSurface 7 12 77; eglCreateContext 7 12;
   eglMakeCurrent 7 21 21 0; LOGW "Unable to eglMakeCurrent" []] /\
  In (eglCreateContext 7 12)
    (trace (initDisplay Sample.egl_unbound Sample.drawing)).
Proof.
  assert (Hne : egl_chooseConfig Sample.egl_unbound 7 attr <> [])
    by discriminate.
  split; [exact Hne|]. split; [reflexivity|].
  exact (proj1 (proj2 (proj2 (X5_initDisplay_gives_nothing_back
                                Sample.egl_unbound Sample.drawing)
                         Hne ltac:(discriminate) eq_refl))).
Defined.

(** *** The sensor queue *)

Lemma initDisplay_sensor (egl : EGL) (c : Context) (rc : Z * Context) :
  result (initDisplay egl c) = Ok rc -> sensor_handles (snd rc) = sensor_handles c.
Proof.
  intros H. apply initDisplay_result in H as [-> | (cfg & _ & _ & ->)];
    reflexivity.
Qed.

Lemma onAppCmd_sensor (egl : EGL) (cmd : AppCmd) (c c' : Context) :
  result (onAppCmd egl cmd c) = Ok c' -> sensor_handles c' = sensor_handles c.
Proof.
  intros H.
  destruct cmd; cbn [onAppCmd] in H; try (injection H as <-; reflexivity).
  - unfold onInitWindow in H.
    destruct (negb (window (app c) =? nullptr));
      [|injection H as <-; reflexivity].
    rewrite result_bind in H.
    destruct (result (initDisplay egl c)) as [rc|] eqn:E; [|discriminate].
    revert H. eff. intros [= <-]. apply (initDisplay_sensor egl c rc E).
  - unfold onTermWindow in H. rewrite termDisplay_result in H.
    injection H as <-. reflexivity.
  - rewrite onFocus_gained in H. injection H as <-. reflexivity.
  - rewrite onFocus_lost_result in H. injection H as <-. reflexivity.
Qed.

Lemma host_step_sensor (egl : EGL) (a : HostAction) (c c' : Context) :
  result (host_step egl a c) = Ok c' -> sensor_handles c' = sensor_handles c.
Proof.
  intros H.
  destruct a as [w | | v | cmd | event]; cbn [host_step] in H;
    try (injection H as <-; reflexivity).
  - eapply onAppCmd_sensor; eassumption.
  - rewrite result_bind, onInputEvent_result in H.
    destruct (AInputEvent_getType event =? AINPUT_EVENT_TYPE_MOTION);
      injection H as <-; reflexivity.
Qed.

Lemma process_sensor (egl : EGL) (acts : list HostAction) :
  forall c c', result (process egl acts c) = Ok c' ->
               sensor_handles c' = sensor_handles c.
Proof.
  induction acts as [|a rest IH]; intros c c' H; cbn [process] in H.
  - injection H as <-. reflexivity.
  - rewrite result_bind in H.
    destruct (result (host_step egl a c)) as [c1|] eqn:E; [|discriminate].
    rewrite (IH c1 c' H). eapply host_step_sensor; eassumption.
Qed.

Lemma iteration_sensor (p : PollResult) (c : Context) (n : Next) :
  result (iteration p c) = Ok n -> sensor_handles (next_ctx n) = sensor_handles c.
Proof.
  unfold iteration. eff. intros H.
  destruct (0 <=? ident p).
  - rewrite result_bind, handle_event_result in H.
    assert (Hc1 : forall c1,
               match source p with
               | Some acts => result (process (egl_now p) acts c)
               | None => Ok c
               end = Ok c1 -> sensor_handles c1 = sensor_handles c).
    { intros c1 E. destruct (source p) as [acts|].
      - eapply process_sensor; eassumption.
      - injection E as <-. reflexivity. }
    destruct (match source p with Some _ => _ | None => _ end) as [c1|];
      [|discriminate].
    specialize (Hc1 c1 eq_refl).
    destruct (negb _).
    + rewrite result_bind, termDisplay_result in H. injection H as <-.
      exact Hc1.
    + injection H as <-. exact Hc1.
  - rewrite result_bind in H.
    destruct (isAnimating c) eqn:E.
    + rewrite (animate_step c E) in H. injection H as <-. reflexivity.
    + rewrite (animate_idle c E) in H. injection H as <-. reflexivity.
Qed.

Lemma no_accelerometer (c c' : Context) :
  sensor_handles c' = sensor_handles c ->
  accelerometerSensor c = nullptr -> accelerometerSensor c' = nullptr.
Proof. unfold sensor_handles. intros [= _ -> _]. exact (fun H => H). Qed.

Lemma drawFrame_silent (c : Context) : forallb silent (trace (drawFrame c)) = true.
Proof. unfold drawFrame. each_call. Qed.
#[local] Hint Resolve drawFrame_silent : calls.

Lemma termDisplay_silent (c : Context) :
  forallb silent (trace (termDisplay c)) = true.
Proof. unfold termDisplay. each_call. Qed.
#[local] Hint Resolve termDisplay_silent : calls.

Lemma config_matches_silent (egl : EGL) (dpy cfg : Z) :
  forallb silent (trace (config_matches egl dpy cfg)) = true.
Proof. unfold config_matches. each_call. Qed.
#[local] Hint Resolve config_matches_silent : calls.

Lemma find_config_silent (egl : EGL) (dpy : Z) (cfgs : list Z) :
  forallb silent (trace (find_config egl dpy cfgs)) = true.
Proof. induction cfgs; cbn [find_config]; each_call. Qed.
#[local] Hint Resolve find_config_silent : calls.

Lemma initDisplay_silent (egl : EGL) (c : Context) :
  forallb silent (trace (initDisplay egl c)) = true.
Proof. unfold initDisplay. each_call. Qed.
#[local] Hint Resolve initDisplay_silent : calls.

Lemma animate_silent (c : Context) : forallb silent (trace (animate c)) = true.
Proof. unfold animate. each_call. Qed.
#[local] Hint Resolve animate_silent : calls.

Lemma onAppCmd_silent (egl : EGL) (cmd : AppCmd) (c : Context) :
  accelerometerSensor c = nullptr ->
  forallb silent (trace (onAppCmd egl cmd c)) = true.
Proof.
  intros H.
  destruct cmd; cbn [onAppCmd];
    unfold onSaveState, onInitWindow, onTermWindow, onFocus;
    rewrite ?H, ?Z.eqb_refl; cbn [negb]; each_call.
Qed.

Lemma host_step_silent (egl : EGL) (a : HostAction) (c : Context) :
  accelerometerSensor c = nullptr ->
  forallb silent (trace (host_step egl a c)) = true.
Proof.
  intros H. destruct a; cbn [host_step]; try reflexivity.
  - apply onAppCmd_silent, H.
  - unfold onInputEvent. each_call.
Qed.

Lemma process_silent (egl : EGL) (acts : list HostAction) :
  forall c, accelerometerSensor c = nullptr ->
            forallb silent (trace (process egl acts c)) = true.
Proof.
  induction acts as [|a rest IH]; intros c H; cbn [process]; [reflexivity|].
  rewrite trace_bind.
  destruct (result (host_step egl a c)) as [c1|] eqn:E.
  - rewrite forallb_app, (host_step_silent egl a c H). cbn [andb].
    apply IH. eapply no_accelerometer; [|exact H].
    eapply host_step_sensor; eassumption.
  - apply host_step_silent, H.
Qed.

Lemma iteration_silent (p : PollResult) (c : Context) :
  accelerometerSensor c = nullptr ->
  forallb silent (trace (iteration p c)) = true.
Proof.
  intros H. unfold iteration.
  apply forallb_bind; [reflexivity|]. intros _.
  destruct (0 <=? ident p); [|each_call].
  apply forallb_bind; [|intros c1; each_call].
  unfold handle_event. rewrite trace_bind.
  assert (Hp : forallb silent
                 (trace match source p with
                        | Some acts => process (egl_now p) acts c
                        | None => ret c
                        end) = true)
    by (destruct (source p); [apply process_silent, H | reflexivity]).
  assert (Hs : forall c1,
             match source p with
             | Some acts => result (process (egl_now p) acts c)
             | None => Ok c
             end = Ok c1 -> accelerometerSensor c1 = nullptr).
  { intros c1 E. destruct (source p) as [acts|].
    - eapply no_accelerometer; [eapply process_sensor; eassumption | exact H].
    - injection E as <-. exact H. }
  destruct (source p) as [acts|].
  - destruct (result (process (egl_now p) acts c)) as [c1|]; [|exact Hp].
    rewrite forallb_app, Hp. cbn [andb].
    unfold processSensorEvents. rewrite (Hs c1 eq_refl), Z.eqb_refl.
    destruct (ident p =? LOOPER_ID_USER); reflexivity.
  - cbn [result ret fst]. rewrite forallb_app, Hp. cbn [andb].
    unfold processSensorEvents. rewrite H, Z.eqb_refl.
    destruct (ident p =? LOOPER_ID_USER); reflexivity.
Qed.

(** X6.  The engine never changes the sensor manager, sensor and queue
    it got from [init]; and on a device without accelerometer it makes
    no call on the sensor queue at all: no enable, rate, disable or
    read, whatever commands and events arrive. *)
Theorem X6_sensor_handles_fixed (script : list PollResult) :
  forall c,
    (forall n, result (event_loop script c) = Ok n ->
               sensor_handles (next_ctx n) = sensor_handles c) /\
    (accelerometerSensor c = nullptr ->
     forallb silent (trace (event_loop script c)) = true).
Proof.
  induction script as [|p rest IH]; intros c.
  - split; [intros n [= <-]; reflexivity | reflexivity].
  - cbn [event_loop]. split.
    + intros n. rewrite result_bind.
      destruct (result (iteration p c)) as [[c1 | c1] |] eqn:E;
        [| intros [= <-]; apply (iteration_sensor p c _ E) | discriminate].
      intros H. rewrite (proj1 (IH c1) n H).
      apply (iteration_sensor p c _ E).
    + intros H. rewrite trace_bind.
      destruct (result (iteration p c)) as [[c1 | c1] |] eqn:E;
        rewrite ?forallb_app, (iteration_silent p c H); cbn [andb];
        try reflexivity.
      apply (proj2 (IH c1)).
      eapply no_accelerometer; [apply (iteration_sensor p c _ E) | exact H].
Qed.

Lemma X6_sensor_handles_fixed_witness :
  accelerometerSensor Corner.deaf = nullptr /\
  forallb silent
    (trace (event_loop [Sample.poll_focus; Sample.poll_timeout;
                        Sample.poll_destroy]
              Corner.deaf)) = true.
Proof.
  split; [reflexivity|].
  exact (proj2 (X6_sensor_handles_fixed
                  [Sample.poll_focus; Sample.poll_timeout; Sample.poll_destroy]
                  Corner.deaf) eq_refl).
Defined.

(** ** Display connections opened and closed *)

Lemma initializes_app (t1 t2 : list Call) :
  initializes (t1 ++ t2) = (initializes t1 + initializes t2)%nat.
Proof. unfold initializes. rewrite filter_app, length_app. reflexivity. Qed.

Lemma neutral_counts (t : list Call) :
  forallb neutral t = true -> releases t = 0%nat /\ initializes t = 0%nat.
Proof.
  induction t as [|k t IH]; [split; reflexivity|].
  cbn [forallb]. intros H. apply andb_prop in H as [Hk Ht].
  destruct (IH Ht) as [IH1 IH2].
  unfold neutral in Hk. apply andb_prop in Hk as [H1 H2].
  apply negb_true_iff in H1. apply negb_true_iff in H2.
  unfold releases, initializes in *. cbn [filter]. rewrite H1, H2.
  split; assumption.
Qed.

Lemma connected_le_1 (c : Context) : (connected c <= 1)%nat.
Proof. unfold connected. destruct (display c =? EGL_NO_DISPLAY); lia. Qed.

(** Goals of balance on computations that are known pairs. *)
Ltac conn := unfold balanced, after, connected; cbn -[Z.eqb]; lia.

Lemma balanced_bind {A B} (fa : A -> nat) (fb : B -> nat) (m : Eff A)
  (k : A -> Eff B) (n0 : nat) :
  balanced fa m n0 ->
  (forall a, balanced fb (k a) (fa a)) ->
  balanced fb (bind m k) n0.
Proof.
  unfold balanced, after. intros Hm Hk. rewrite trace_bind, result_bind.
  destruct (result m) as [a|].
  - specialize (Hk a). rewrite releases_app, initializes_app. lia.
  - lia.
Qed.

Lemma balanced_neutral {A} (f : A -> nat) (m : Eff A) (n0 : nat) :
  forallb neutral (trace m) = true -> (after f m <= n0)%nat ->
  balanced f m n0.
Proof.
  unfold balanced. intros H Hn. destruct (neutral_counts _ H) as [-> ->]. lia.
Qed.

Lemma drawFrame_neutral (c : Context) :
  forallb neutral (trace (drawFrame c)) = true.
Proof. unfold drawFrame. each_call. Qed.
#[local] Hint Resolve drawFrame_neutral : calls.

Lemma config_matches_neutral (egl : EGL) (dpy cfg : Z) :
  forallb neutral (trace (config_matches egl dpy cfg)) = true.
Proof. unfold config_matches. each_call. Qed.
#[local] Hint Resolve config_matches_neutral : calls.

Lemma find_config_neutral (egl : EGL) (dpy : Z) (cfgs : list Z) :
  forallb neutral (trace (find_config egl dpy cfgs)) = true.
Proof. induction cfgs; cbn [find_config]; each_call. Qed.
#[local] Hint Resolve find_config_neutral : calls.

Lemma drain_events_neutral (queue : Z) (pending : list ASensorEvent) :
  forallb neutral (trace (drain_events queue pending)) = true.
Proof. induction pending; cbn [drain_events]; each_call. Qed.
#[local] Hint Resolve drain_events_neutral : calls.

Lemma processSensorEvents_neutral (pending : list ASensorEvent) (c : Context) :
  forallb neutral (trace (processSensorEvents pending c)) = true.
Proof. unfold processSensorEvents. each_call. Qed.
#[local] Hint Resolve processSensorEvents_neutral : calls.

Lemma animate_neutral (c : Context) :
  forallb neutral (trace (animate c)) = true.
Proof. unfold animate. each_call. Qed.

Lemma onFocus_neutral (gained : bool) (c : Context) :
  forallb neutral (trace (onFocus gained c)) = true.
Proof. unfold onFocus. each_call. Qed.

(** [initDisplay] opens one connection and closes none. *)
Lemma initDisplay_counts (egl : EGL) (c : Context) :
  initializes (trace (initDisplay egl c)) = 1%nat /\
  releases (trace (initDisplay egl c)) = 0%nat.
Proof.
  unfold initDisplay.
  rewrite trace_bind, result_call, trace_call.
  rewrite trace_bind, result_call, trace_call.
  rewrite !initializes_app, !releases_app.
  match goal with
  | |- context [initializes (trace ?r)] =>
      assert (Hr : forallb neutral (trace r) = true) by each_call;
      destruct (neutral_counts _ Hr) as [-> ->]
  end.
  split; reflexivity.
Qed.

Lemma initDisplay_balanced (egl : EGL) (c : Context) :
  balanced (fun rc : Z * Context => connected (snd rc)) (initDisplay egl c)
    (connected c).
Proof.
  unfold balanced. destruct (initDisplay_counts egl c) as [-> ->]. unfold after.
  destruct (result (initDisplay egl c)) as [rc|]; [|lia].
  pose proof (connected_le_1 (snd rc)). lia.
Qed.

Lemma termDisplay_balanced (c : Context) :
  balanced connected (termDisplay c) (connected c).
Proof.
  unfold balanced, after. rewrite termDisplay_releases, termDisplay_result.
  unfold connected. cbn [display].
  destruct (display c =? EGL_NO_DISPLAY); cbn; lia.
Qed.

Lemma onAppCmd_balanced (egl : EGL) (cmd : AppCmd) (c : Context) :
  balanced connected (onAppCmd egl cmd c) (connected c).
Proof.
  destruct cmd; cbn [onAppCmd]; try (conn).
  - unfold onInitWindow. destruct (negb _); [|conn].
    eapply balanced_bind; [apply initDisplay_balanced|].
    intros rc. cbv zeta. apply balanced_neutral; [each_call|].
    unfold after. eff. lia.
  - apply termDisplay_balanced.
  - apply balanced_neutral; [apply onFocus_neutral|].
    rewrite onFocus_gained. conn.
  - apply balanced_neutral; [apply onFocus_neutral|].
    unfold after. rewrite onFocus_lost_result. conn.
Qed.

Lemma host_step_balanced (egl : EGL) (a : HostAction) (c : Context) :
  balanced connected (host_step egl a c) (connected c).
Proof.
  destruct a as [w | | v | cmd | event]; cbn [host_step]; try (conn).
  - apply onAppCmd_balanced.
  - rewrite onInputEvent_result.
    destruct (AInputEvent_getType event =? AINPUT_EVENT_TYPE_MOTION);
      conn.
Qed.

Lemma process_balanced (egl : EGL) (acts : list HostAction) :
  forall c, balanced connected (process egl acts c) (connected c).
Proof.
  induction acts as [|a rest IH]; intros c; cbn [process]; [conn|].
  eapply balanced_bind; [apply host_step_balanced | intros c1; apply IH].
Qed.

Lemma iteration_balanced (p : PollResult) (c : Context) :
  balanced (fun n => connected (next_ctx n)) (iteration p c) (connected c).
Proof.
  unfold iteration.
  eapply (balanced_bind (fun _ => connected c));
    [conn|]. intros _.
  destruct (0 <=? ident p).
  - eapply (balanced_bind connected).
    + unfold handle_event. eapply (balanced_bind connected).
      * destruct (source p); [apply process_balanced | conn].
      * intros c1. apply balanced_neutral; [each_call|].
        unfold after. eff.
        destruct (ident p =? LOOPER_ID_USER);
          rewrite ?processSensorEvents_result; conn.
    + intros c1. destruct (negb _); [|conn].
      eapply (balanced_bind connected); [apply termDisplay_balanced|].
      intros c2. conn.
  - eapply (balanced_bind connected); [|intros c1; conn].
    apply balanced_neutral; [apply animate_neutral|].
    unfold after. destruct (isAnimating c) eqn:E.
    + rewrite (animate_step c E). conn.
    + rewrite (animate_idle c E). conn.
Qed.

(** X7.  Along any run, the display connections the engine terminates,
    plus the one it holds at the end, are at most those it opened plus
    the one it held at the start: it never terminates a connection
    twice, nor one it did not open. *)
Theorem X7_connections_balanced (script : list PollResult) :
  forall c,
    (releases (trace (event_loop script c))
     + after (fun n => connected (next_ctx n)) (event_loop script c)
     <= initializes (trace (event_loop script c)) + connected c)%nat.
Proof.
  induction script as [|p rest IH]; intros c; cbn [event_loop]; [conn|].
  eapply balanced_bind; [apply iteration_balanced|].
  intros [c1 | c1]; [apply IH | conn].
Qed.

(** ** Frames *)

Lemma offscreen_frames (t : list Call) :
  forallb offscreen t = true -> frames t = 0%nat.
Proof.
  induction t as [|k t IH]; [reflexivity|].
  cbn [forallb]. intros H. apply andb_prop in H as [Hk Ht].
  unfold offscreen in Hk. apply negb_true_iff in Hk.
  unfold frames in *. cbn [filter]. rewrite Hk. exact (IH Ht).
Qed.

Lemma config_matches_offscreen (egl : EGL) (dpy cfg : Z) :
  forallb offscreen (trace (config_matches egl dpy cfg)) = true.
Proof. unfold config_matches. each_call. Qed.
#[local] Hint Resolve config_matches_offscreen : calls.

Lemma find_config_offscreen (egl : EGL) (dpy : Z) (cfgs : list Z) :
  forallb offscreen (trace (find_config egl dpy cfgs)) = true.
Proof. induction cfgs; cbn [find_config]; each_call. Qed.
#[local] Hint Resolve find_config_offscreen : calls.

Lemma initDisplay_offscreen (egl : EGL) (c : Context) :
  forallb offscreen (trace (initDisplay egl c)) = true.
Proof. unfold initDisplay. each_call. Qed.

Lemma drain_events_offscreen (queue : Z) (pending : list ASensorEvent) :
  forallb offscreen (trace (drain_events queue pending)) = true.
Proof. induction pending; cbn [drain_events]; each_call. Qed.
#[local] Hint Resolve drain_events_offscreen : calls.

Lemma processSensorEvents_offscreen (pending : list ASensorEvent) (c : Context) :
  forallb offscreen (trace (processSensorEvents pending c)) = true.
Proof. unfold processSensorEvents. each_call. Qed.

(** X8.  InitWindow without a window does nothing at all.  With a
    window it tries the acquisition and then draws: the engine is what
    [initDisplay] left, and exactly one frame is presented when the
    engine then has a display (the new one, or the one it already had
    when the acquisition failed), none otherwise. *)
Theorem X8_onInitWindow (egl : EGL) (c : Context) :
  (window (app c) = nullptr -> onInitWindow egl c = (Ok c, [])) /\
  (window (app c) <> nullptr ->
   forall c', result (onInitWindow egl c) = Ok c' ->
     (exists rc, result (initDisplay egl c) = Ok rc /\ c' = snd rc) /\
     frames (trace (onInitWindow egl c)) =
     (if display c' =? nullptr then 0%nat else 1%nat)).
Proof.
  unfold onInitWindow. split.
  - intros ->. reflexivity.
  - intros Hw c'. destruct (Z.eqb_spec (window (app c)) nullptr);
      [contradiction|]. cbn [negb].
    rewrite result_bind, trace_bind.
    destruct (result (initDisplay egl c)) as [rc|] eqn:E; [|discriminate].
    eff. intros [= <-]. split; [exists rc; split; reflexivity|].
    rewrite app_nil_r, frames_app, drawFrame_frames.
    rewrite (offscreen_frames _ (initDisplay_offscreen egl c)). reflexivity.
Qed.

Lemma X8_onInitWindow_witness :
  window (app Sample.windowless) = nullptr /\
  onInitWindow Sample.egl_ready Sample.windowless = (Ok Sample.windowless, []) /\
  window (app Sample.drawing) <> nullptr /\
  frames (trace (onInitWindow Sample.egl_unbound Sample.drawing)) = 1%nat.
Proof.
  assert (Hw : window (app Sample.drawing) <> nullptr) by discriminate.
  split; [reflexivity|].
  split; [exact (proj1 (X8_onInitWindow Sample.egl_ready Sample.windowless)
                   eq_refl)|].
  split; [exact Hw|].
  destruct (proj2 (X8_onInitWindow Sample.egl_unbound Sample.drawing) Hw
              Sample.drawing eq_refl) as [_ ->].
  reflexivity.
Defined.

(** X9.  LoseFocus leaves the engine as it was but for [animating],
    which is false; it disables the sensor when there is one, before it
    draws, and presents exactly one last frame when there is a display;
    a second LoseFocus finds the engine as the first left it. *)
Theorem X9_onFocus_lost (c : Context) :
  onFocus false c =
  (Ok (set_animating 0 c),
   (if accelerometerSensor c =? nullptr then []
    else [ASensorEventQueue_disableSensor (sensorEventQueue c)
            (accelerometerSensor c)])
   ++ trace (drawFrame (set_animating 0 c))) /\
  frames (trace (onFocus false c)) =
  (if display c =? nullptr then 0%nat else 1%nat) /\
  result (onFocus false (set_animating 0 c)) = Ok (set_animating 0 c).
Proof.
  assert (H : onFocus false c =
              (Ok (set_animating 0 c),
               (if accelerometerSensor c =? nullptr then []
                else [ASensorEventQueue_disableSensor (sensorEventQueue c)
                        (accelerometerSensor c)])
               ++ trace (drawFrame (set_animating 0 c)))).
  { unfold onFocus. rewrite (eff_eta (bind _ _)). eff.
    destruct (accelerometerSensor c =? nullptr); cbn [negb]; eff;
      rewrite app_nil_r; reflexivity. }
  split; [exact H|]. split.
  - rewrite H. cbn [trace snd]. rewrite frames_app, drawFrame_frames.
    destruct (accelerometerSensor c =? nullptr); reflexivity.
  - rewrite onFocus_lost_result. reflexivity.
Qed.

(** ** Reading the sensor queue *)

Lemma drain_events_calls (queue : Z) (pending : list ASensorEvent) :
  filter is_getEvents (trace (drain_events queue pending)) =
  repeat (ASensorEventQueue_getEvents queue) (S (List.length pending)) /\
  filter is_log (trace (drain_events queue pending)) =
  map accelerometer_line pending.
Proof.
  induction pending as [|ev rest [IH1 IH2]]; [split; reflexivity|].
  cbn [drain_events]. rewrite !trace_bind, !result_call, !trace_call.
  cbn [List.app filter is_getEvents is_log LOGI List.length repeat map].
  rewrite IH1, IH2. split; reflexivity.
Qed.

(** X10.  [processSensorEvents] never fails.  Without accelerometer it
    calls nothing.  With one it reads the queue once more than there
    are events waiting, stopping at the read that finds it empty, and
    logs one line per event, in order, with that event's three
    coordinates. *)
Theorem X10_processSensorEvents (pending : list ASensorEvent) (c : Context) :
  result (processSensorEvents pending c) = Ok tt /\
  (accelerometerSensor c = nullptr ->
   trace (processSensorEvents pending c) = []) /\
  (accelerometerSensor c <> nullptr ->
   filter is_getEvents (trace (processSensorEvents pending c)) =
   repeat (ASensorEventQueue_getEvents (sensorEventQueue c))
     (S (List.length pending)) /\
   filter is_log (trace (processSensorEvents pending c)) =
   map accelerometer_line pending /\
   List.length (trace (processSensorEvents pending c)) =
   S (2 * List.length pending)).
Proof.
  split; [apply processSensorEvents_result|].
  unfold processSensorEvents. split.
  - intros ->. reflexivity.
  - intros H. destruct (Z.eqb_spec (accelerometerSensor c) nullptr);
      [contradiction|]. cbn [negb].
    split; [apply drain_events_calls|]. split; [apply drain_events_calls|].
    clear. induction pending as [|ev rest IH]; [reflexivity|].
    cbn [drain_events]. rewrite !trace_bind, !result_call, !trace_call.
    cbn [List.app List.length]. rewrite IH. lia.
Qed.

Lemma X10_processSensorEvents_witness :
  accelerometerSensor Sample.drawing <> nullptr /\
  trace (processSensorEvents
           [Corner.at_rest]
           Sample.drawing) =
  [ASensorEventQueue_getEvents 6;
   accelerometer_line Corner.at_rest;
   ASensorEventQueue_getEvents 6] /\
  List.length
    (trace (processSensorEvents
              [Corner.at_rest]
              Sample.drawing)) = 3%nat.
Proof.
  assert (H : accelerometerSensor Sample.drawing <> nullptr) by discriminate.
  split; [exact H|]. split; [reflexivity|].
  exact (proj2 (proj2 (proj2 (proj2
           (X10_processSensorEvents
              [Corner.at_rest]
              Sample.drawing)) H))).
Defined.

(** ** Runs of the loop *)

Lemma bind_ret_l {A B} (a : A) (k : A -> Eff B) : bind (Ok a, []) k = k a.
Proof. unfold bind. cbn. symmetry. apply eff_eta. Qed.

Lemma timeout_iteration (p : PollResult) (c : Context) :
  timed_out p = true -> isAnimating c = true ->
  let a1 := F32.add (angle (state c)) F32.lit_0_01 in
  let c' := set_state
              (set_angle (if F32.gt a1 (F32.of_int 1) then F32.of_int 0 else a1)
                 (state c)) c in
  iteration p c = (Ok (Continue c'), ALooper_pollAll 0 :: trace (drawFrame c')).
Proof.
  unfold timed_out. intros Hp Ha. cbv zeta. unfold iteration.
  rewrite Ha. apply Z.ltb_lt in Hp.
  destruct (Z.leb_spec 0 (ident p)); [lia|].
  rewrite (eff_eta (bind _ _)). eff. rewrite (animate_step c Ha).
  cbn [result trace fst snd]. rewrite app_nil_r. reflexivity.
Qed.

(** X12.  While the engine animates and the polls return no event, each
    poll is non-blocking and is followed by one animation step: after
    any number of them the loop is still running, the engine still
    animates on the same target with the same pointer position, and the
    log holds one frame per poll when there is a display and none when
    there is not. *)
Theorem X12_frame_per_timeout (script : list PollResult) :
  forall c,
    forallb timed_out script = true -> isAnimating c = true ->
    exists c',
      result (event_loop script c) = Ok (Continue c') /\
      frames (trace (event_loop script c)) =
      (List.length script * connected c)%nat /\
      poll_timeouts (trace (event_loop script c)) =
      repeat 0 (List.length script) /\
      animating c' = animating c /\ display c' = display c /\
      surface c' = surface c /\ context c' = context c /\
      x (state c') = x (state c) /\ y (state c') = y (state c).
Proof.
  induction script as [|p rest IH]; intros c Hs Ha.
  - exists c. repeat split; reflexivity.
  - cbn [forallb] in Hs. apply andb_prop in Hs as [Hp Hrest].
    pose proof (timeout_iteration p c Hp Ha) as Hit. cbv zeta in Hit.
    set (c1 := set_state _ c) in Hit.
    assert (Ha1 : isAnimating c1 = true) by exact Ha.
    destruct (IH c1 Hrest Ha1)
      as (c' & Hr & Hf & Hpoll & Han & Hd & Hsf & Hcx & Hx & Hy).
    exists c'. cbn [event_loop List.length repeat].
    rewrite result_bind, trace_bind, Hit. cbn [result trace fst snd].
    split; [exact Hr|]. split; [|split].
    + rewrite frames_app, Hf.
      change (frames (ALooper_pollAll 0 :: trace (drawFrame c1)))
        with (frames (trace (drawFrame c1))).
      rewrite drawFrame_frames. unfold connected, nullptr, EGL_NO_DISPLAY.
      change (display c1) with (display c).
      destruct (display c =? 0); lia.
    + rewrite poll_timeouts_app, Hpoll.
      cbn [poll_timeouts]. rewrite drawFrame_quiet. reflexivity.
    + repeat split; assumption.
Qed.

Lemma X12_frame_per_timeout_witness :
  forallb timed_out [Sample.poll_timeout; Sample.poll_timeout;
                     Sample.poll_timeout] = true /\
  isAnimating Sample.drawing = true /\
  frames (trace (event_loop [Sample.poll_timeout; Sample.poll_timeout;
                             Sample.poll_timeout] Sample.drawing)) = 3%nat.
Proof.
  assert (Hs : forallb timed_out [Sample.poll_timeout; Sample.poll_timeout;
                                  Sample.poll_timeout] = true) by reflexivity.
  assert (Ha : isAnimating Sample.drawing = true) by reflexivity.
  split; [exact Hs|]. split; [exact Ha|].
  destruct (X12_frame_per_timeout _ Sample.drawing Hs Ha) as (c' & _ & Hf & _).
  rewrite Hf. reflexivity.
Defined.

Lemma process_ignored (egl : EGL) (acts : list HostAction) (c : Context) :
  forallb ignored acts = true -> process egl acts c = (Ok c, []).
Proof.
  induction acts as [|a rest IH]; [reflexivity|].
  cbn [forallb process]. intros H. apply andb_prop in H as [Ha Hrest].
  assert (Hstep : host_step egl a c = (Ok c, [])).
  { destruct a as [w | | v | cmd | event]; try discriminate.
    - destruct cmd; try discriminate; reflexivity.
    - cbn [ignored] in Ha. apply negb_true_iff in Ha.
      cbn [host_step]. rewrite onInputEvent_result, Ha. reflexivity. }
  rewrite Hstep, bind_ret_l. exact (IH Hrest).
Qed.

Lemma spurious_iteration (p : PollResult) (c : Context) :
  spurious p = true -> animating c = 0 -> destroyRequested (app c) = 0 ->
  result (iteration p c) = Ok (Continue c) /\
  frames (trace (iteration p c)) = 0%nat.
Proof.
  unfold spurious. intros Hp Ha Hd.
  assert (Hidle : isAnimating c = false)
    by (unfold isAnimating; rewrite Ha; reflexivity).
  unfold iteration. rewrite result_bind, trace_bind, result_call, trace_call.
  rewrite frames_app. change (frames [ALooper_pollAll _]) with 0%nat.
  destruct (Z.leb_spec 0 (ident p)) as [Hid | Hid].
  - apply Z.ltb_ge in Hid. rewrite Hid in Hp. cbn [orb] in Hp.
    assert (Hev : result (handle_event p c) = Ok c /\
                  frames (trace (handle_event p c)) = 0%nat).
    { unfold handle_event.
      assert (Hsrc : match source p with
                     | Some acts => process (egl_now p) acts c
                     | None => ret c
                     end = (Ok c, []))
        by (destruct (source p); [apply process_ignored, Hp | reflexivity]).
      rewrite Hsrc. rewrite bind_ret_l. rewrite result_bind, trace_bind.
      assert (Hsens : result (if ident p =? LOOPER_ID_USER
                              then processSensorEvents (sensorEvents p) c
                              else ret tt) = Ok tt)
        by (destruct (ident p =? LOOPER_ID_USER);
            [apply processSensorEvents_result | reflexivity]).
      rewrite Hsens. split; [reflexivity|]. eff. rewrite app_nil_r.
      destruct (ident p =? LOOPER_ID_USER); [|reflexivity].
      apply offscreen_frames, processSensorEvents_offscreen. }
    destruct Hev as [Hr Hf].
    rewrite result_bind, trace_bind, Hr, Hd. cbn [Z.eqb negb].
    split; [reflexivity|]. eff. rewrite app_nil_r, Hf. reflexivity.
  - rewrite (animate_idle c Hidle), bind_ret_l. split; reflexivity.
Qed.

(** X13.  An engine that does not animate and is not asked to quit
    ignores what is not for it: through polls that return nothing,
    events without source, commands that fall to the [default] of the
    switch and input events that are not motion events, it stays
    exactly as it was, presents no frame, and every poll blocks. *)
Theorem X13_spurious_events (script : list PollResult) (c : Context) :
  forallb spurious script = true ->
  animating c = 0 -> destroyRequested (app c) = 0 ->
  result (event_loop script c) = Ok (Continue c) /\
  frames (trace (event_loop script c)) = 0%nat /\
  poll_timeouts (trace (event_loop script c)) = repeat (-1) (List.length script).
Proof.
  intros Hs Ha Hd. induction script as [|p rest IH];
    [repeat split; reflexivity|].
  cbn [forallb] in Hs. apply andb_prop in Hs as [Hp Hrest].
  destruct (IH Hrest) as (Hr & Hf & Hpoll).
  destruct (spurious_iteration p c Hp Ha Hd) as [Hit Hfit].
  cbn [event_loop List.length repeat].
  rewrite result_bind, trace_bind, Hit.
  split; [exact Hr|]. split.
  - rewrite frames_app, Hfit, Hf. reflexivity.
  - rewrite poll_timeouts_app, iteration_polls, Hpoll.
    unfold isAnimating. rewrite Ha. reflexivity.
Qed.

Lemma X13_spurious_events_witness :
  forallb spurious Corner.script = true /\
  animating Sample.windowless = 0 /\
  destroyRequested (app Sample.windowless) = 0 /\
  result (event_loop Corner.script Sample.windowless)
  = Ok (Continue Sample.windowless).
Proof.
  split; [reflexivity|]. split; [reflexivity|]. split; [reflexivity|].
  exact (proj1 (X13_spurious_events Corner.script Sample.windowless
                  eq_refl eq_refl eq_refl)).
Defined.

(** ** Restoring *)

Lemma load_prefix (buf extra : list byte) (off : nat) :
  (off + 4 <= List.length buf)%nat ->
  LE32.load (buf ++ extra) off = LE32.load buf off.
Proof.
  intros H. unfold LE32.load. rewrite !app_nth1 by lia. reflexivity.
Qed.

(** X14.  [init] restores from the first twelve bytes of the host's
    buffer and from nothing else: bytes that follow them and the value
    of [savedStateSize] make no difference to the state the engine
    starts from. *)
Theorem X14_init_reads_twelve_bytes (sens : Sensors) (st1 st2 : android_app)
  (buf extra : list byte) (c1 c2 : Context) :
  (12 <= List.length buf)%nat ->
  savedState st1 = Some buf -> savedState st2 = Some (buf ++ extra) ->
  result (init sens st1) = Ok c1 -> result (init sens st2) = Ok c2 ->
  state c1 = state c2 /\ state c1 = SavedState_of_bytes (firstn 12 buf).
Proof.
  intros Hlen H1 H2 Hc1 Hc2. rewrite init_result in Hc1, Hc2.
  destruct (result (acquireASensorManagerInstance sens)); [|discriminate].
  rewrite H1 in Hc1. rewrite H2 in Hc2.
  injection Hc1 as <-. injection Hc2 as <-. cbn [state].
  unfold SavedState_of_bytes. split.
  - rewrite !load_prefix by lia. reflexivity.
  - rewrite <- (firstn_skipn 12 buf) at 1 2 3.
    assert (Hf : List.length (firstn 12 buf) = 12%nat)
      by (rewrite length_firstn; lia).
    rewrite !load_prefix by lia. reflexivity.
Qed.

Lemma X14_init_reads_twelve_bytes_witness :
  (12 <= List.length (SavedState_bytes Sample.saved))%nat /\
  result (init Sample.sensors
            (mk_android_app 0 (Some (SavedState_bytes Sample.saved)) 12 0))
  = Ok (mkContext
          (mk_android_app 0 (Some (SavedState_bytes Sample.saved)) 12 0)
          3 5 6 0 0 0 0 0 0 Sample.saved) /\
  state (mkContext
           (mk_android_app 0 (Some (SavedState_bytes Sample.saved)) 12 0)
           3 5 6 0 0 0 0 0 0 Sample.saved)
  = state (mkContext
             (mk_android_app 0
                (Some (SavedState_bytes Sample.saved ++ [Byte.xff; Byte.xff]))
                0 0)
             3 5 6 0 0 0 0 0 0 Sample.saved).
Proof.
  assert (Hlen : (12 <= List.length (SavedState_bytes Sample.saved))%nat)
    by (cbn; lia).
  assert (H1 : result (init Sample.sensors
                         (mk_android_app 0
                            (Some (SavedState_bytes Sample.saved)) 12 0))
               = Ok (mkContext
                       (mk_android_app 0
                          (Some (SavedState_bytes Sample.saved)) 12 0)
                       3 5 6 0 0 0 0 0 0 Sample.saved))
    by (vm_compute; reflexivity).
  assert (H2 : result (init Sample.sensors
                         (mk_android_app 0
                            (Some (SavedState_bytes Sample.saved
                                   ++ [Byte.xff; Byte.xff])) 0 0))
               = Ok (mkContext
                       (mk_android_app 0
                          (Some (SavedState_bytes Sample.saved
                                 ++ [Byte.xff; Byte.xff])) 0 0)
                       3 5 6 0 0 0 0 0 0 Sample.saved))
    by (vm_compute; reflexivity).
  split; [exact Hlen|]. split; [exact H1|].
  exact (proj1 (X14_init_reads_twelve_bytes Sample.sensors
                  (mk_android_app 0 (Some (SavedState_bytes Sample.saved)) 12 0)
                  (mk_android_app 0
                     (Some (SavedState_bytes Sample.saved
                            ++ [Byte.xff; Byte.xff])) 0 0)
                  (SavedState_bytes Sample.saved) [Byte.xff; Byte.xff] _ _
                  Hlen eq_refl eq_refl H1 H2)).
Defined.

(** ** How the loop ends *)

Lemma iteration_return (p : PollResult) (c c' : Context) :
  result (iteration p c) = Ok (Return c') ->
  destroyRequested (app c') <> 0 /\ all_invalid c' /\ animating c' = 0.
Proof.
  unfold iteration. eff. destruct (0 <=? ident p).
  - rewrite result_bind.
    destruct (result (handle_event p c)) as [c1|]; [|discriminate].
    destruct (Z.eqb_spec (destroyRequested (app c1)) 0) as [|Hd];
      cbn [negb]; [discriminate|].
    rewrite result_bind, termDisplay_result. intros [= <-].
    split; [exact Hd|]. split; [repeat split|]; reflexivity.
  - rewrite result_bind. destruct (result (animate c)); discriminate.
Qed.

(** X15.  [android_main] returns only on a destroy request: whenever
    the loop returns, [destroyRequested] is set in the host's object,
    the three handles are invalid and [animating] is false. *)
Theorem X15_return_only_on_destroy (script : list PollResult) :
  forall c c',
    result (event_loop script c) = Ok (Return c') ->
    destroyRequested (app c') <> 0 /\ all_invalid c' /\ animating c' = 0.
Proof.
  induction script as [|p rest IH]; intros c c'; cbn [event_loop];
    [discriminate|].
  rewrite result_bind.
  destruct (result (iteration p c)) as [[c1 | c1] |] eqn:E;
    [apply IH | | discriminate].
  intros [= <-]. apply (iteration_return p c c1 E).
Qed.

Lemma X15_return_only_on_destroy_witness :
  result (event_loop [Sample.poll_timeout; Sample.poll_destroy;
                      Sample.poll_touch] Sample.drawing)
  = Ok (Return (mkContext (mk_android_app 77 None 0 1) 3 5 6 0 0 0 0 1080 1920
                  (mkSavedState (F32.Finite false 12750684 (-25)) 120 340))) /\
  destroyRequested (mk_android_app 77 None 0 1) <> 0.
Proof.
  assert (H : result (event_loop [Sample.poll_timeout; Sample.poll_destroy;
                                  Sample.poll_touch] Sample.drawing)
              = Ok (Return (mkContext (mk_android_app 77 None 0 1) 3 5 6 0 0 0
                              0 1080 1920
                              (mkSavedState (F32.Finite false 12750684 (-25))
                                 120 340))))
    by (vm_compute; reflexivity).
  split; [exact H|].
  exact (proj1 (X15_return_only_on_destroy _ _ _ H)).
Defined.

Lemma initDisplay_completes (egl : EGL) (c : Context) :
  offers_config egl -> exists rc, result (initDisplay egl c) = Ok rc.
Proof.
  unfold offers_config. intros Hne. unfold initDisplay. eff.
  destruct (egl_chooseConfig egl _ attr) as [|cfg rest] eqn:E; [contradiction|].
  cbn [List.length]. rewrite Nat2Z.inj_succ.
  destruct (Z.eqb_spec (Z.succ (Z.of_nat (List.length rest))) 0); [lia|].
  cbn [negb]. rewrite find_config_preferred.
  set (config := match find _ _ with Some k => k | None => _ end).
  destruct (config =? nullptr); eff; [eexists; reflexivity|].
  destruct (negb _); eff; eexists; reflexivity.
Qed.

Lemma host_step_completes (egl : EGL) (a : HostAction) (c : Context) :
  offers_config egl -> exists c', result (host_step egl a c) = Ok c'.
Proof.
  intros Hegl.
  destruct a as [w | | v | cmd | event]; cbn [host_step];
    try (eexists; reflexivity).
  - destruct cmd; cbn [onAppCmd]; try (eexists; reflexivity).
    + unfold onInitWindow. destruct (negb _); [|eexists; reflexivity].
      rewrite result_bind.
      destruct (initDisplay_completes egl c Hegl) as [rc ->]. eff.
      eexists; reflexivity.
    + unfold onTermWindow. rewrite termDisplay_result. eexists; reflexivity.
    + rewrite onFocus_gained. eexists; reflexivity.
    + rewrite onFocus_lost_result. eexists; reflexivity.
  - rewrite onInputEvent_result.
    destruct (AInputEvent_getType event =? AINPUT_EVENT_TYPE_MOTION);
      eexists; reflexivity.
Qed.

Lemma process_completes (egl : EGL) (acts : list HostAction) :
  offers_config egl -> forall c, exists c', result (process egl acts c) = Ok c'.
Proof.
  intros Hegl. induction acts as [|a rest IH]; intros c; cbn [process].
  - eexists; reflexivity.
  - rewrite result_bind.
    destruct (host_step_completes egl a c Hegl) as [c1 ->]. apply IH.
Qed.

Lemma iteration_completes (p : PollResult) (c : Context) :
  offers_config (egl_now p) -> exists n, result (iteration p c) = Ok n.
Proof.
  intros Hegl. unfold iteration. eff. destruct (0 <=? ident p).
  - rewrite result_bind, handle_event_result.
    assert (exists c1, match source p with
                       | Some acts => result (process (egl_now p) acts c)
                       | None => Ok c
                       end = Ok c1) as [c1 ->]
      by (destruct (source p);
          [apply process_completes, Hegl | eexists; reflexivity]).
    destruct (negb _).
    + rewrite result_bind, termDisplay_result. eexists; reflexivity.
    + eexists; reflexivity.
  - rewrite result_bind. destruct (animate_result c) as (c' & -> & _).
    eexists; reflexivity.
Qed.

(** X16.  Against backends that offer at least one configuration the
    loop never stops at an [assert]: on every script it either is still
    running when the script ends or has returned. *)
Theorem X16_loop_completes (script : list PollResult) :
  Forall (fun p => offers_config (egl_now p)) script ->
  forall c, exists n, result (event_loop script c) = Ok n.
Proof.
  induction script as [|p rest IH]; intros Hegl c; cbn [event_loop].
  - eexists; reflexivity.
  - inversion Hegl as [|? ? Hp Hrest]; subst. rewrite result_bind.
    destruct (iteration_completes p c Hp) as [[c1 | c1] ->].
    + apply IH, Hrest.
    + eexists; reflexivity.
Qed.

Lemma X16_loop_completes_witness :
  Forall (fun p => offers_config (egl_now p))
    [Sample.poll_window; Sample.poll_touch; Sample.poll_timeout] /\
  exists n,
    result (event_loop [Sample.poll_window; Sample.poll_touch;
                        Sample.poll_timeout] Sample.windowless) = Ok n.
Proof.
  assert (Ho : offers_config Sample.egl_ready) by discriminate.
  assert (Hs : Forall (fun p => offers_config (egl_now p))
                 [Sample.poll_window; Sample.poll_touch; Sample.poll_timeout])
    by (repeat (apply Forall_cons; [exact Ho|]); apply Forall_nil).
  split; [exact Hs|].
  exact (X16_loop_completes _ Hs Sample.windowless).
Defined.

(** ** The angle outside 0..1 *)

Lemma binary_round_aux_not_nan (prec emax : Z) (s : bool) (m e : Z)
  (l : location) :
  0 <= m -> SFis_nan (binary_round_aux prec emax s m e l) = false.
Proof.
  intros H. unfold binary_round_aux.
  pose proof (shr_fexp_nonneg prec emax m e l H) as H1.
  destruct (shr_fexp prec emax m e l) as [mrs' e'] eqn:E1. cbn [fst] in H1.
  pose proof (shr_fexp_nonneg prec emax _ e' loc_Exact
                (round_nearest_even_nonneg _ (loc_of_shr_record mrs') H1)) as H2.
  destruct (shr_fexp prec emax _ e' loc_Exact) as [mrs'' e''] eqn:E2.
  cbn [fst] in H2.
  destruct (shr_m mrs'') as [| q | q]; [reflexivity | | lia].
  destruct (e'' <=? emax - prec); reflexivity.
Qed.

Lemma SFadd_finite_not_nan (prec emax : Z) (s1 s2 : bool) (m1 m2 : positive)
  (e1 e2 : Z) :
  SFis_nan (SFadd prec emax (S754_finite s1 m1 e1) (S754_finite s2 m2 e2))
  = false.
Proof.
  cbn [SFadd]. destruct (_ + _) as [| q | q]; cbn [binary_normalize];
    [reflexivity | |];
    unfold binary_round; destruct (shl_align _ _ _) as [mz ez];
    apply binary_round_aux_not_nan; lia.
Qed.

Lemma SFcompare_total (a b : spec_float) :
  SFis_nan a = false -> SFis_nan b = false ->
  SFltb b a = false -> SFleb a b = true.
Proof.
  unfold SFltb, SFleb.
  destruct a as [sa | sa | | sa ma ea], b as [sb | sb | | sb mb eb];
    try discriminate; intros _ _; destruct sa, sb; cbn [SFcompare];
    try congruence.
  - rewrite (Z.compare_antisym eb ea).
    destruct (eb ?= ea); cbn [CompOpp]; try congruence.
    pose proof (Pos.compare_cont_antisym mb ma Eq) as H; cbn [CompOpp] in H.
    rewrite <- H.
    destruct (Pos.compare_cont Eq mb ma); cbn [CompOpp]; congruence.
  - rewrite (Z.compare_antisym eb ea).
    destruct (eb ?= ea); cbn [CompOpp]; try congruence.
    pose proof (Pos.compare_cont_antisym mb ma Eq) as H; cbn [CompOpp] in H.
    rewrite <- H.
    destruct (Pos.compare_cont Eq mb ma); cbn [CompOpp]; congruence.
Qed.

Lemma is_nan_val (f : F32.float) : SFis_nan (F32.val f) = is_nan f.
Proof. destruct f; reflexivity. Qed.

Lemma is_nan_of_val (v : spec_float) : is_nan (F32.of_val v) = SFis_nan v.
Proof. destruct v; reflexivity. Qed.

(** Adding [.01f] to a number gives a number. *)
Lemma add_lit_not_nan (a : F32.float) :
  is_nan a = false ->
  F32.add a F32.lit_0_01
  = F32.of_val (SFadd F32.prec F32.emax (F32.val a) (F32.val F32.lit_0_01)) /\
  is_nan (F32.add a F32.lit_0_01) = false.
Proof.
  intros Hn. unfold F32.lit_0_01.
  destruct a as [s | s | s p | s m e]; try discriminate;
    cbn [F32.add F32.val]; (split; [reflexivity|]); try reflexivity.
  rewrite is_nan_of_val. apply SFadd_finite_not_nan.
Qed.

(** X17.  The wrap test bounds the angle from above only.  From any
    angle that is a number, whatever its size or sign, one animation
    step leaves an angle that is a number and at most 1.  A NaN angle,
    which only a restored buffer can bring in, stays NaN through every
    step: [animate] never repairs it. *)
Theorem X17_angle_after_step (c : Context) :
  isAnimating c = true ->
  (exists c', result (animate c) = Ok c' /\
              angle (state c') = next_angle (angle (state c))) /\
  (is_nan (angle (state c)) = false ->
   is_nan (next_angle (angle (state c))) = false /\
   F32.le (next_angle (angle (state c))) (F32.of_int 1) = true) /\
  (is_nan (angle (state c)) = true ->
   is_nan (next_angle (angle (state c))) = true).
Proof.
  intros Ha. split; [|split].
  - rewrite (animate_step c Ha). eexists. split; reflexivity.
  - intros Hn. unfold next_angle.
    destruct (add_lit_not_nan _ Hn) as [Hadd Hsum].
    destruct (F32.gt _ _) eqn:E; [split; reflexivity|].
    split; [exact Hsum|].
    unfold F32.gt in E. unfold F32.le.
    apply SFcompare_total;
      [rewrite is_nan_val; exact Hsum | reflexivity | exact E].
  - intros Hn. unfold next_angle.
    destruct (angle (state c)); try discriminate. reflexivity.
Qed.

Lemma X17_angle_after_step_witness :
  isAnimating (set_state (mkSavedState (F32.Finite true 10485760 (-21)) 0 0)
                 Sample.drawing) = true /\
  is_nan (F32.Finite true 10485760 (-21)) = false /\
  F32.le (next_angle (F32.Finite true 10485760 (-21))) (F32.of_int 1) = true /\
  next_angle (F32.Finite true 10485760 (-21))
  = F32.Finite true 10464788 (-21).
Proof.
  split; [reflexivity|]. split; [reflexivity|].
  split; [|reflexivity].
  exact (proj2 (proj1 (proj2 (X17_angle_after_step
                   (set_state (mkSavedState (F32.Finite true 10485760 (-21)) 0 0)
                      Sample.drawing) eq_refl)) eq_refl)).
Defined.

(** ** The pointer position *)

Lemma onAppCmd_pointer (egl : EGL) (cmd : AppCmd) (c c' : Context) :
  result (onAppCmd egl cmd c) = Ok c' ->
  x (state c') = x (state c) /\ y (state c') = y (state c).
Proof.
  intros H.
  destruct cmd; cbn [onAppCmd] in H;
    try (injection H as <-; split; reflexivity).
  - apply onInitWindow_frame in H as (_ & _ & _ & _ & Hx & Hy).
    split; assumption.
  - unfold onTermWindow in H. rewrite termDisplay_result in H.
    injection H as <-. split; reflexivity.
  - rewrite onFocus_gained in H. injection H as <-. split; reflexivity.
  - rewrite onFocus_lost_result in H. injection H as <-. split; reflexivity.
Qed.

Lemma host_step_pointer (egl : EGL) (a : HostAction) (c c' : Context) :
  result (host_step egl a c) = Ok c' -> is_motion a = false ->
  x (state c') = x (state c) /\ y (state c') = y (state c).
Proof.
  intros H Hm.
  destruct a as [w | | v | cmd | event]; cbn [host_step] in H;
    try (injection H as <-; split; reflexivity).
  - eapply onAppCmd_pointer; eassumption.
  - cbn [is_motion] in Hm. rewrite result_bind, onInputEvent_result, Hm in H.
    injection H as <-. split; reflexivity.
Qed.

Lemma process_pointer (egl : EGL) (acts : list HostAction) :
  forall c c', result (process egl acts c) = Ok c' ->
               existsb is_motion acts = false ->
               x (state c') = x (state c) /\ y (state c') = y (state c).
Proof.
  induction acts as [|a rest IH]; intros c c' H Hm; cbn [process] in H.
  - injection H as <-. split; reflexivity.
  - cbn [existsb] in Hm. apply orb_false_elim in Hm as [Ha Hrest].
    rewrite result_bind in H.
    destruct (result (host_step egl a c)) as [c1|] eqn:E; [|discriminate].
    destruct (IH c1 c' H Hrest) as [-> ->].
    eapply host_step_pointer; eassumption.
Qed.

Lemma iteration_pointer (p : PollResult) (c : Context) (n : Next) :
  result (iteration p c) = Ok n -> routes_motion p = false ->
  x (state (next_ctx n)) = x (state c) /\ y (state (next_ctx n)) = y (state c).
Proof.
  unfold iteration, routes_motion. eff. intros H Hm.
  destruct (0 <=? ident p); cbn [andb] in Hm.
  - rewrite result_bind, handle_event_result in H.
    assert (Hc1 : forall c1,
               match source p with
               | Some acts => result (process (egl_now p) acts c)
               | None => Ok c
               end = Ok c1 ->
               x (state c1) = x (state c) /\ y (state c1) = y (state c)).
    { intros c1 E. destruct (source p) as [acts|].
      - eapply process_pointer; eassumption.
      - injection E as <-. split; reflexivity. }
    destruct (match source p with Some _ => _ | None => _ end) as [c1|];
      [|discriminate].
    specialize (Hc1 c1 eq_refl).
    destruct (negb _).
    + rewrite result_bind, termDisplay_result in H. injection H as <-.
      exact Hc1.
    + injection H as <-. exact Hc1.
  - rewrite result_bind in H.
    destruct (isAnimating c) eqn:E.
    + rewrite (animate_step c E) in H. injection H as <-. split; reflexivity.
    + rewrite (animate_idle c E) in H. injection H as <-. split; reflexivity.
Qed.

(** X18.  The pointer position moves only when a motion event is
    routed: through any run without one (windows coming and going,
    focus changes, saves, animation steps, the final teardown) x and y
    are at the end what they were at the start. *)
Theorem X18_pointer_stable (script : list PollResult) :
  forall c n,
    no_motion script = true ->
    result (event_loop script c) = Ok n ->
    x (state (next_ctx n)) = x (state c) /\
    y (state (next_ctx n)) = y (state c).
Proof.
  induction script as [|p rest IH]; intros c n Hm; cbn [event_loop].
  - intros [= <-]. split; reflexivity.
  - cbn [no_motion forallb] in Hm. apply andb_prop in Hm as [Hp Hrest].
    apply negb_true_iff in Hp. rewrite result_bind.
    destruct (result (iteration p c)) as [[c1 | c1] |] eqn:E;
      [| | discriminate].
    + intros H. destruct (IH c1 n Hrest H) as [-> ->].
      apply (iteration_pointer p c _ E Hp).
    + intros [= <-]. apply (iteration_pointer p c _ E Hp).
Qed.

Lemma X18_pointer_stable_witness :
  no_motion [Sample.poll_focus; Sample.poll_timeout; Sample.poll_destroy] = true /\
  result (event_loop [Sample.poll_focus; Sample.poll_timeout;
                      Sample.poll_destroy] Sample.drawing)
  = Ok (Return (mkContext (mk_android_app 77 None 0 1) 3 5 6 0 0 0 0 1080 1920
                  (mkSavedState (F32.Finite false 12750684 (-25)) 120 340))) /\
  x (state (mkContext (mk_android_app 77 None 0 1) 3 5 6 0 0 0 0 1080 1920
              (mkSavedState (F32.Finite false 12750684 (-25)) 120 340)))
  = x (state Sample.drawing).
Proof.
  assert (Hm : no_motion [Sample.poll_focus; Sample.poll_timeout;
                          Sample.poll_destroy] = true) by reflexivity.
  assert (H : result (event_loop [Sample.poll_focus; Sample.poll_timeout;
                                  Sample.poll_destroy] Sample.drawing)
              = Ok (Return (mkContext (mk_android_app 77 None 0 1) 3 5 6 0 0 0
                              0 1080 1920
                              (mkSavedState (F32.Finite false 12750684 (-25))
                                 120 340))))
    by (vm_compute; reflexivity).
  split; [exact Hm|]. split; [exact H|].
  exact (proj1 (X18_pointer_stable _ Sample.drawing _ Hm H)).
Defined.
